(** * Esports-Trajectory: the resumable ingestion core, embedded and verified

    A shallow embedding of the Python sources

      - [data/mw.py]                (rate limiter, retrying fetch client)
      - [data/cache.py]             (file cache)
      - [data/db.py]                (schema, checkpoints)
      - [data/config.py]            (configuration defaults)
      - [data/discover_players.py]  (work-item discovery)
      - [data/stages/players.py]    (checkpointed player stage)
      - [data/stages/careers.py]    (career aggregation)

    Conventions of the embedding.

      - A Python [str] is a Rocq [string]: the UTF-8 bytes of the text.
        Byte-wise lexicographic order on UTF-8 is code-point order, which is
        the order Python's [sorted] and SQLite's BINARY collation use.
      - Python floats holding seconds are exact rationals [Q].
      - A function that can raise returns a [result]; the exception classes
        the code distinguishes are the constructors of [exn].
      - Wall-clock readings, random draws and the replies of the remote
        server are oracles of an environment [Env], indexed by how many were
        consumed so far; the counters live in the [World].
      - Libraries the sources call but do not define (SHA-1, BeautifulSoup,
        the page interpreter's HTML walking, date formatting) are fields of
        [Env].
      - Console output ([print]) is not modelled. *)

From Stdlib Require Import ZArith QArith Qminmax Lqa Lia String Ascii List Bool.
From Stdlib Require Import DecimalString DecimalZ DecimalPos.
From Stdlib Require OrderedTypeEx.
From stdpp Require Import base gmap sets list strings sorting.

Set Warnings "-register-all,-clear-no-such-hyp".
Local Open Scope string_scope.

(** ** Python values and exceptions *)

(** What [json.loads] / [r.json()] can produce. *)
Inductive json : Type :=
| JNull
| JBool (b : bool)
| JNum (z : Z)
| JStr (s : string)
| JList (l : list json)
| JDict (d : list (string * json)).

(** The exceptions the sources raise or let through.  The [RuntimeError]s of
    [data/mw.py] keep the fields their messages are formatted from. *)
Inductive exn : Type :=
| RateLimited (msg : string)
| RuntimeError_expected_json (ctype preview : string)
| RuntimeError_api_error (err : json)
| RuntimeError_request_failed
    (last_status : option Z) (last_retry_after : option string)
    (last_preview : option string) (last_exc : option exn)
    (params : list (string * string))
| RuntimeError_empty_html (title : string)
| RuntimeError_html_fetch_failed (url : string) (last_exc : option exn)
| HTTPError (status_code : Z)
| RequestException (detail : string)
| JSONDecodeError
| AttributeError
| TypeError
| IndexError
| ValueError
| InterpreterError (detail : string).

Inductive result (A : Type) : Type :=
| Return (a : A)
| Raise (e : exn).
Arguments Return {A} a.
Arguments Raise {A} e.

(** [except RateLimited] *)
Definition is_RateLimited (e : exn) : bool :=
  match e with RateLimited _ => true | _ => false end.

Module Py.

(** [needle in hay] *)
Fixpoint contains (needle hay : string) : bool :=
  if String.prefix needle hay then true
  else match hay with
       | EmptyString => false
       | String _ hay' => contains needle hay'
       end.

(** [s.startswith(p)] *)
Definition startswith (s p : string) : bool := String.prefix p s.

(** [s.startswith((p1, p2, ...))] *)
Definition startswith_any (s : string) (ps : list string) : bool :=
  existsb (startswith s) ps.

Definition lower_char (c : ascii) : ascii :=
  let n := nat_of_ascii c in
  if (65 <=? n)%nat && (n <=? 90)%nat then ascii_of_nat (n + 32) else c.

(** [s.lower()] on the ASCII letters.  On other code points Python's
    [lower] never yields one of the ASCII letters tested by the callers in
    a position where it would complete a match, see [Discover]. *)
Fixpoint lower (s : string) : string :=
  match s with
  | EmptyString => EmptyString
  | String c s' => String (lower_char c) (lower s')
  end.

(** [s.replace(a, b)] for one-character [a] and [b]. *)
Fixpoint replace_char (a b : ascii) (s : string) : string :=
  match s with
  | EmptyString => EmptyString
  | String c s' =>
      String (if Ascii.eqb c a then b else c) (replace_char a b s')
  end.

(** [s.rstrip(c)] for a one-character [c]. *)
Fixpoint rstrip_char (c : ascii) (s : string) : string :=
  match s with
  | EmptyString => EmptyString
  | String x s' =>
      match rstrip_char c s' with
      | EmptyString => if Ascii.eqb x c then EmptyString else String x EmptyString
      | r => String x r
      end
  end.

(** [s[:n]] *)
Definition prefix_slice (n : nat) (s : string) : string := String.substring 0 n s.

(** [str(i)] for an [int]. *)
Definition str (z : Z) : string := NilZero.string_of_int (Z.to_int z).

(** [int(s)] on the spellings [str] produces (an optional minus sign and
    decimal digits); [None] is [ValueError].  Python also accepts
    surrounding blanks, a plus sign and underscores, which the sources
    never write. *)
Definition int (s : string) : option Z := Z.of_int <$> NilZero.int_of_string s.

(** [l[i]] for a list: a negative index counts from the end. *)
Definition getitem {A : Type} (l : list A) (i : Z) : result A :=
  let n := Z.of_nat (length l) in
  let j := if (i <? 0)%Z then (i + n)%Z else i in
  if (j <? 0)%Z then Raise IndexError
  else match l !! Z.to_nat j with
       | Some x => Return x
       | None => Raise IndexError
       end.

(** [x or y] on optional strings: [None] and [""] are falsy. *)
Definition or_else (x y : option string) : option string :=
  match x with
  | Some EmptyString | None => y
  | Some _ => x
  end.

(** [str(x)] inside an f-string, for an optional string. *)
Definition fmt (x : option string) : string := default "None" x.

End Py.

(** ** [data/mw.py]: [HourlyRateLimiter] *)

Module RateLimiter.

Record HourlyRateLimiter : Type := mk {
  max_requests : Z;
  window_seconds : Z;
  timestamps : list Q   (* the deque, oldest first *)
}.

(** [__init__] *)
Definition init (max_requests window_seconds : Z) : HourlyRateLimiter :=
  {| max_requests := max_requests;
     window_seconds := window_seconds;
     timestamps := [] |}.

Definition with_timestamps (self : HourlyRateLimiter) (ts : list Q) :=
  {| max_requests := max_requests self;
     window_seconds := window_seconds self;
     timestamps := ts |}.

(** [while self.timestamps and now - self.timestamps[0] >= self.window_seconds:
       self.timestamps.popleft()].  Seconds are rationals and the difference
    is the exact one.  The float difference the code computes is the exact
    one whenever [t / 2 <= now <= 2 * t] (Sterbenz), as for two epoch
    readings taken within decades of each other; [sterbenz_ok] states it
    of a run. *)
Fixpoint drop_expired (W : Z) (now : Q) (ts : list Q) : list Q :=
  match ts with
  | [] => []
  | t :: rest =>
      if Qle_bool (inject_Z W) (now - t) then drop_expired W now rest else ts
  end.

(** What one call reads from its environment: [time.time()] on entry, the
    draw of [random.uniform(0.5, 3.0)], and [time.time()] after the sleep.
    The last two are only looked at on the sleeping path. *)
Record readings : Type := {
  now1 : Q;
  jitter : Q;
  now2 : Q
}.

(** How a call ended: it returned at once, it slept [sleep_for] seconds
    first, or it raised. *)
Inductive slot : Type :=
| Immediate
| Slept (sleep_for : Q)
| Failed (e : exn).

Definition wait_for_slot (self : HourlyRateLimiter) (r : readings)
  : slot * HourlyRateLimiter :=
  let W := window_seconds self in
  let ts := drop_expired W (now1 r) (timestamps self) in
  if (Z.of_nat (length ts) <? max_requests self)%Z then
    (Immediate, with_timestamps self (ts ++ [now1 r]))
  else
    match ts with
    | [] => (Failed IndexError, with_timestamps self ts)   (* self.timestamps[0] *)
    | t0 :: _ =>
        let sleep_for := Qmax 1 (inject_Z W - (now1 r - t0) + jitter r) in
        let ts' := drop_expired W (now2 r) ts in
        (Slept sleep_for, with_timestamps self (ts' ++ [now2 r]))
    end.

(** The timestamp a call recorded, if it recorded one. *)
Definition stamp_of (r : readings) (s : slot) : option Q :=
  match s with
  | Immediate => Some (now1 r)
  | Slept _ => Some (now2 r)
  | Failed _ => None
  end.

(** The timestamps recorded by a sequence of calls, in order. *)
Fixpoint stamps (self : HourlyRateLimiter) (rs : list readings) : list Q :=
  match rs with
  | [] => []
  | r :: rs' =>
      let '(s, self') := wait_for_slot self r in
      match stamp_of r s with
      | Some t => t :: stamps self' rs'
      | None => stamps self' rs'
      end
  end.

(** The clock behaves: readings never go back (from [last], the previous
    reading), the jitter is drawn from [0.5, 3.0], and a sleep of [d]
    seconds lets at least [d] seconds pass. *)
Fixpoint clock_ok (self : HourlyRateLimiter) (last : Q) (rs : list readings) : Prop :=
  match rs with
  | [] => True
  | r :: rs' =>
      (last <= now1 r)%Q /\ (1#2 <= jitter r)%Q /\ (jitter r <= 3)%Q /\
      match wait_for_slot self r with
      | (Slept d, self') => (now1 r + d <= now2 r)%Q /\ clock_ok self' (now2 r) rs'
      | (_, self') => clock_ok self' (now1 r) rs'
      end
  end.

(** [s] lies in the trailing window of length [W] that ends at [t]: less
    than [W] seconds before [t].  This is the test [drop_expired] negates. *)
Definition in_window (W : Z) (t s : Q) : bool :=
  negb (Qle_bool (inject_Z W) (t - s)).

Definition count_in_window (W : Z) (t : Q) (l : list Q) : Z :=
  Z.of_nat (length (List.filter (in_window W t) l)).

(** The limiter after a sequence of calls. *)
Fixpoint after (self : HourlyRateLimiter) (rs : list readings) : HourlyRateLimiter :=
  match rs with
  | [] => self
  | r :: rs' => after (snd (wait_for_slot self r)) rs'
  end.

(** How each call of a sequence ended, in order. *)
Fixpoint slots (self : HourlyRateLimiter) (rs : list readings) : list slot :=
  match rs with
  | [] => []
  | r :: rs' => fst (wait_for_slot self r) :: slots (snd (wait_for_slot self r)) rs'
  end.

End RateLimiter.

(** ** The environment and the mutable world *)

(** [session.get(url, params=...)] *)
Record Request : Type := {
  url : string;
  params : list (string * string)
}.

(** The parts of a [requests.Response] the sources read. *)
Record Response : Type := {
  status_code : Z;
  retry_after : option string;    (* r.headers.get("Retry-After") *)
  content_type : option string;   (* r.headers.get("Content-Type") *)
  text : string;                  (* r.text *)
  json_body : option json         (* r.json(); None: it raises *)
}.

(** [session.get] raises (connection error, timeout, ...) or returns. *)
Inductive reply : Type :=
| Raises (detail : string)
| Responds (r : Response).

(** The page interpreter's output, [data/scrape_player.py]: the [profile]
    dict and the stint dicts, read with [.get]. *)
Module Scrape.

Record Profile : Type := {
  display_name : option string;
  country : option string;
  role : option string
}.

Record Stint : Type := {
  team : option string;
  joined : option string;
  left : option string;
  note : option string;
  source_url : option string
}.

End Scrape.

Record Env : Type := {
  time_time : nat -> Q;                       (* k-th reading of the clock *)
  random_random : nat -> Q;                   (* k-th draw, in [0, 1) *)
  session_get : nat -> Request -> reply;      (* reply to the k-th GET *)
  os_linesep : string;
  sha1_hexdigest : string -> string;          (* hashlib.sha1(..).hexdigest() *)
  find_all_a_href : string -> list string;    (* soup.find_all("a", href=True), the hrefs *)
  parse_player_page : string -> string -> string + (Scrape.Profile * list Scrape.Stint);
  utc_now_str : Q -> string;                  (* the reading, formatted to seconds *)
  utc_today_iso : Q -> string                 (* the reading's date, YYYY-MM-DD *)
}.

Inductive event : Type :=
| EvGet (req : Request)
| EvSleep (seconds : Q).

Record World : Type := {
  ticks : nat;                                  (* clock readings taken *)
  draws : nat;                                  (* random numbers drawn *)
  sent : nat;                                   (* GETs issued *)
  limiter : RateLimiter.HourlyRateLimiter;      (* mw.limiter *)
  files : gmap string string;                   (* path -> file content *)
  log : list event
}.

Module W.

Definition set_limiter (l : RateLimiter.HourlyRateLimiter) (w : World) : World :=
  {| ticks := ticks w; draws := draws w; sent := sent w; limiter := l;
     files := files w; log := log w |}.

Definition set_files (f : gmap string string) (w : World) : World :=
  {| ticks := ticks w; draws := draws w; sent := sent w; limiter := limiter w;
     files := f; log := log w |}.

Definition tick (w : World) : World :=
  {| ticks := S (ticks w); draws := draws w; sent := sent w; limiter := limiter w;
     files := files w; log := log w |}.

Definition emit (e : event) (w : World) : World :=
  {| ticks := ticks w; draws := draws w; sent := sent w; limiter := limiter w;
     files := files w; log := log w ++ [e] |}.

(** [time.time()] *)
Definition time (E : Env) (w : World) : Q * World :=
  (time_time E (ticks w), tick w).

(** [time.sleep(d)] *)
Definition sleep (d : Q) (w : World) : World := emit (EvSleep d) w.

(** [random.uniform(a, b)], that is [a + (b - a) * random.random()] *)
Definition uniform (E : Env) (a b : Q) (w : World) : Q * World :=
  (a + (b - a) * random_random E (draws w),
   {| ticks := ticks w; draws := S (draws w); sent := sent w; limiter := limiter w;
      files := files w; log := log w |})%Q.

(** [self.session.get(...)] *)
Definition get (E : Env) (req : Request) (w : World) : reply * World :=
  (session_get E (sent w) req,
   {| ticks := ticks w; draws := draws w; sent := S (sent w); limiter := limiter w;
      files := files w; log := log w ++ [EvGet req] |}).

(** [self.limiter.wait_for_slot()] run against the world: the readings the
    call takes are the next ones of the environment. *)
Definition wait_for_slot (E : Env) (w : World) : result unit * World :=
  let r := {| RateLimiter.now1 := time_time E (ticks w);
              RateLimiter.jitter := ((1#2) + (3 - (1#2)) * random_random E (draws w))%Q;
              RateLimiter.now2 := time_time E (S (ticks w)) |} in
  match RateLimiter.wait_for_slot (limiter w) r with
  | (RateLimiter.Immediate, l) => (Return tt, set_limiter l (tick w))
  | (RateLimiter.Failed e, l) => (Raise e, set_limiter l (tick w))
  | (RateLimiter.Slept d, l) =>
      let w1 := tick w in
      let '(_, w2) := uniform E (1#2) 3 w1 in
      let w3 := sleep d w2 in
      (Return tt, set_limiter l (tick w3))
  end.

End W.

(** ** [data/mw.py]: [MediaWikiClient] *)

Module Mw.

Record MediaWikiClient : Type := {
  api_url : string;
  wiki_base : string;
  timeout_s : Z;
  throttle_s : Q;
  max_retries : Z
}.

(** [__init__]; the limiter it creates is [new_limiter]. *)
Definition init (api_url wiki_base : string) (timeout_s : Z) (throttle_s : Q)
    (max_retries : Z) : MediaWikiClient :=
  {| api_url := api_url;
     wiki_base := Py.rstrip_char "/" wiki_base;
     timeout_s := timeout_s;
     throttle_s := throttle_s;
     max_retries := max_retries |}.

Definition new_limiter : RateLimiter.HourlyRateLimiter := RateLimiter.init 60 3600.

Definition marker : string := "Rate Limited - Liquipedia".

(** [r.status_code == 429 or "Rate Limited - Liquipedia" in body] *)
Definition is_rate_limited (r : Response) : bool :=
  (status_code r =? 429)%Z || Py.contains marker (text r).

(** [self._sleep_polite(extra)] *)
Definition _sleep_polite (E : Env) (self : MediaWikiClient) (extra : Q) (w : World) : World :=
  let '(u, w1) := W.uniform E 0 (5#2) w in
  W.sleep (throttle_s self + extra + u)%Q w1.

(** The locals of a call that survive an attempt. *)
Record retry_state : Type := {
  backoff : Q;
  last_exc : option exn;
  last_status : option Z;
  last_preview : option string;
  last_retry_after : option string
}.

Definition retry_init : retry_state :=
  {| backoff := 10; last_exc := None; last_status := None;
     last_preview := None; last_retry_after := None |}.

(** How one pass through the loop body ends. *)
Inductive attempt (A : Type) : Type :=
| Returned (a : A)               (* return *)
| Propagated (e : exn)           (* the exception leaves the call *)
| Again (st : retry_state).      (* continue, or the handler fell through *)
Arguments Returned {A} a.
Arguments Propagated {A} e.
Arguments Again {A} st.

Definition param (k : string) (ps : list (string * string)) : option string :=
  snd <$> List.find (fun kv => String.eqb (fst kv) k) ps.

Definition rate_limited_msg (ps : list (string * string)) : string :=
  "Liquipedia rate limited on API call: " ++ Py.fmt (param "action" ps) ++ "/"
    ++ Py.fmt (Py.or_else (param "list" ps) (param "page" ps)).

(** [body[:200].replace("\n", " ")] *)
Definition preview (body : string) : string :=
  Py.replace_char "010"%char " "%char (Py.prefix_slice 200 body).

Definition has_key (k : string) (v : json) : bool :=
  match v with
  | JDict d => existsb (fun kv => String.eqb (fst kv) k) d
  | _ => false
  end.

(** [payload[k]] on a dict that has the key. *)
Definition item (k : string) (v : json) : json :=
  match v with
  | JDict d => default JNull (snd <$> List.find (fun kv => String.eqb (fst kv) k) d)
  | _ => JNull
  end.

(** [except Exception as e] of [_request] *)
Definition request_except (E : Env) (self : MediaWikiClient) (e : exn)
    (st : retry_state) (w : World) : attempt json * World :=
  let wait := Qmin (Qmax (backoff st) 10) 60 in
  let w1 := _sleep_polite E self wait w in
  (Again {| backoff := Qmin (backoff st * (8#5)) 180;
            last_exc := Some e;
            last_status := last_status st;
            last_preview := last_preview st;
            last_retry_after := last_retry_after st |}, w1).

(** The body of the [for attempt] loop of [_request]. *)
Definition request_attempt (E : Env) (self : MediaWikiClient)
    (ps : list (string * string)) (st : retry_state) (w : World)
  : attempt json * World :=
  match W.wait_for_slot E w with
  | (Raise e, w1) => request_except E self e st w1
  | (Return _, w1) =>
      match W.get E {| url := api_url self; params := ps |} w1 with
      | (Raises d, w2) => request_except E self (RequestException d) st w2
      | (Responds r, w2) =>
          let body := text r in
          let st1 := {| backoff := backoff st;
                        last_exc := last_exc st;
                        last_status := Some (status_code r);
                        last_preview := Some (preview body);
                        last_retry_after := retry_after r |} in
          if is_rate_limited r then
            (Propagated (RateLimited (rate_limited_msg ps)), w2)
          else if (500 <=? status_code r)%Z && (status_code r <? 600)%Z then
            let wait := Qmin (Qmax (backoff st1) 10) 60 in
            let w3 := _sleep_polite E self wait w2 in
            (Again {| backoff := Qmin (backoff st1 * (8#5)) 120;
                      last_exc := last_exc st1;
                      last_status := last_status st1;
                      last_preview := last_preview st1;
                      last_retry_after := last_retry_after st1 |}, w3)
          else if (400 <=? status_code r)%Z && (status_code r <? 600)%Z then
            (* r.raise_for_status() *)
            request_except E self (HTTPError (status_code r)) st1 w2
          else
            let ctype := Py.lower (default "" (content_type r)) in
            if negb (Py.contains "application/json" ctype) then
              request_except E self
                (RuntimeError_expected_json ctype (preview body)) st1 w2
            else
              let w3 := _sleep_polite E self 0 w2 in
              match json_body r with
              | None => request_except E self JSONDecodeError st1 w3
              | Some payload =>
                  if has_key "error" payload then
                    request_except E self
                      (RuntimeError_api_error (item "error" payload)) st1 w3
                  else (Returned payload, w3)
              end
      end
  end.

(** [for attempt in range(1, self.max_retries + 1)], then the final raise;
    [n] passes are left. *)
Fixpoint request_loop (E : Env) (self : MediaWikiClient)
    (ps : list (string * string)) (n : nat) (st : retry_state) (w : World)
  : result json * World :=
  match n with
  | O =>
      (Raise (RuntimeError_request_failed (last_status st) (last_retry_after st)
                (last_preview st) (last_exc st) ps), w)
  | S n' =>
      match request_attempt E self ps st w with
      | (Returned payload, w') => (Return payload, w')
      | (Propagated e, w') => (Raise e, w')
      | (Again st', w') => request_loop E self ps n' st' w'
      end
  end.

Definition _request (E : Env) (self : MediaWikiClient)
    (ps : list (string * string)) (w : World) : result json * World :=
  request_loop E self ps (Z.to_nat (max_retries self)) retry_init w.

(** [self.page_url(title)] *)
Definition page_url (self : MediaWikiClient) (title : string) : string :=
  wiki_base self ++ "/" ++ Py.replace_char " "%char "_"%char title.

(** [d.get(k, default)]; only a dict has [get]. *)
Definition dict_get (k : string) (dflt : json) (v : json) : result json :=
  match v with
  | JDict d =>
      Return (default dflt (snd <$> List.find (fun kv => String.eqb (fst kv) k) d))
  | _ => Raise AttributeError
  end.

(** [not v] *)
Definition falsy (v : json) : bool :=
  match v with
  | JNull | JBool false | JNum 0 | JStr EmptyString | JList [] | JDict [] => true
  | _ => false
  end.

Definition parse_params (title : string) : list (string * string) :=
  [("action", "parse"); ("format", "json"); ("page", title);
   ("prop", "text"); ("redirects", "1")].

Definition fetch_html (E : Env) (self : MediaWikiClient) (title : string) (w : World)
  : result json * World :=
  match _request E self (parse_params title) w with
  | (Raise e, w') => (Raise e, w')
  | (Return payload, w') =>
      match dict_get "parse" (JDict []) payload with
      | Raise e => (Raise e, w')
      | Return p =>
          match dict_get "text" (JDict []) p with
          | Raise e => (Raise e, w')
          | Return t =>
              match dict_get "*" (JStr "") t with
              | Raise e => (Raise e, w')
              | Return html =>
                  if falsy html then (Raise (RuntimeError_empty_html title), w')
                  else (Return html, w')
              end
          end
      end
  end.

(** [except Exception as e] of [fetch_full_html] *)
Definition full_html_except (e : exn) (st : retry_state) (w : World)
  : attempt string * World :=
  let wait := Qmin (Qmax (backoff st) 30) 120 in
  let w1 := W.sleep wait w in
  (Again {| backoff := Qmin (backoff st * (8#5)) 180;
            last_exc := Some e;
            last_status := last_status st;
            last_preview := last_preview st;
            last_retry_after := last_retry_after st |}, w1).

(** The body of the [for attempt] loop of [fetch_full_html]. *)
Definition full_html_attempt (E : Env) (self : MediaWikiClient) (u : string)
    (st : retry_state) (w : World) : attempt string * World :=
  match W.wait_for_slot E w with
  | (Raise e, w1) => full_html_except e st w1
  | (Return _, w1) =>
      match W.get E {| url := u; params := [] |} w1 with
      | (Raises d, w2) => full_html_except (RequestException d) st w2
      | (Responds r, w2) =>
          let body := text r in
          if (status_code r =? 429)%Z || Py.contains marker body then
            let wait := Qmin (Qmax (backoff st) 60) 180 in
            let '(j, w3) := W.uniform E 0 10 w2 in
            let w4 := W.sleep (wait + j)%Q w3 in
            (Again {| backoff := Qmin (backoff st * (8#5)) 180;
                      last_exc := last_exc st;
                      last_status := last_status st;
                      last_preview := last_preview st;
                      last_retry_after := last_retry_after st |}, w4)
          else if (400 <=? status_code r)%Z && (status_code r <? 600)%Z then
            full_html_except (HTTPError (status_code r)) st w2
          else
            let '(j, w3) := W.uniform E 0 (3#5) w2 in
            let w4 := W.sleep (throttle_s self + j)%Q w3 in
            (Returned body, w4)
      end
  end.

Fixpoint full_html_loop (E : Env) (self : MediaWikiClient) (u : string)
    (n : nat) (st : retry_state) (w : World) : result string * World :=
  match n with
  | O => (Raise (RuntimeError_html_fetch_failed u (last_exc st)), w)
  | S n' =>
      match full_html_attempt E self u st w with
      | (Returned body, w') => (Return body, w')
      | (Propagated e, w') => (Raise e, w')
      | (Again st', w') => full_html_loop E self u n' st' w'
      end
  end.

Definition fetch_full_html (E : Env) (self : MediaWikiClient)
    (title_or_path : string) (w : World) : result string * World :=
  let u := if Py.startswith title_or_path "http" then title_or_path
           else page_url self title_or_path in
  full_html_loop E self u (Z.to_nat (max_retries self)) retry_init w.

End Mw.

(** ** [data/cache.py] *)

Module Cache.

Definition _key (E : Env) (s : string) : string := sha1_hexdigest E s.

Fixpoint ends_with_char (c : ascii) (s : string) : bool :=
  match s with
  | EmptyString => false
  | String x EmptyString => Ascii.eqb x c
  | String _ s' => ends_with_char c s'
  end.

(** [os.path.join(a, b)] (posixpath) *)
Definition path_join (a b : string) : string :=
  if Py.startswith b "/" then b
  else if String.eqb a "" || ends_with_char "/" a then a ++ b
  else a ++ "/" ++ b.

Definition cache_path (E : Env) (cache_dir key : string) : string :=
  path_join cache_dir (_key E key ++ ".html").

Definition CR : ascii := "013"%char.
Definition LF : ascii := "010"%char.

(** What [f.write] stores in a file opened in text mode with the default
    [newline=None]: every line feed becomes [os.linesep]. *)
Fixpoint write_text (linesep : string) (s : string) : string :=
  match s with
  | EmptyString => EmptyString
  | String c s' =>
      if Ascii.eqb c LF then linesep ++ write_text linesep s'
      else String c (write_text linesep s')
  end.

(** What [f.read] returns from a file opened in text mode with the default
    [newline=None] (universal newlines): CR LF and a lone CR both read as
    one line feed. *)
Fixpoint read_text (raw : string) : string :=
  match raw with
  | EmptyString => EmptyString
  | String c rest =>
      if Ascii.eqb c CR then
        match rest with
        | String c' rest' =>
            if Ascii.eqb c' LF then String LF (read_text rest')
            else String LF (read_text rest)
        | EmptyString => String LF EmptyString
        end
      else String c (read_text rest)
  end.

(** [os.makedirs(cache_dir, exist_ok=True)] is taken to succeed;
    directories are not part of [files]. *)
Definition cache_get (E : Env) (cache_dir key : string) (w : World) : option string :=
  read_text <$> files w !! cache_path E cache_dir key.

Definition cache_set (E : Env) (cache_dir key value : string) (w : World) : World :=
  W.set_files
    (<[cache_path E cache_dir key := write_text (os_linesep E) value]> (files w)) w.

End Cache.

(** ** [data/db.py] *)

Module Db.

(** A row of [players], keyed by [page_title]. *)
Record PlayerRow : Type := {
  page_url : string;
  display_name : option string;
  country : option string;
  role : option string;
  created_utc : string;
  updated_utc : string
}.

(** A row of [team_stints]. *)
Record StintRow : Type := {
  id : Z;
  player_title : string;
  team : option string;
  joined : option string;
  left : option string;
  note : option string;
  source_url : option string;
  stint_created_utc : string
}.

(** A row of [player_careers], keyed by [player_title]. *)
Record CareerRow : Type := {
  career_start : option string;
  career_end : option string;
  career_days : option Z;
  stints_count : Z;
  career_updated_utc : string
}.

(** The four tables of [SCHEMA].  [checkpoints] maps [key] to
    [(value, updated_utc)]; [stint_seq] is the AUTOINCREMENT counter of
    [team_stints].  The FOREIGN KEY clauses are not modelled. *)
Record Tables : Type := {
  checkpoints : gmap string (option string * string);
  players : gmap string PlayerRow;
  team_stints : list StintRow;
  stint_seq : Z;
  player_careers : gmap string CareerRow
}.

(** [init_db] on a new file. *)
Definition empty : Tables :=
  {| checkpoints := ∅; players := ∅; team_stints := []; stint_seq := 0;
     player_careers := ∅ |}.

(** A [sqlite3.Connection]: [view] is what its statements see, with the
    writes of the open transaction; [durable] is what is on disk, the
    state a crash leaves; [commits] lists the states made durable through
    this connection, oldest first. *)
Record Conn : Type := {
  view : Tables;
  durable : Tables;
  commits : list Tables
}.

Definition connect (t : Tables) : Conn :=
  {| view := t; durable := t; commits := [] |}.

(** [conn.execute] of a writing statement. *)
Definition execute (f : Tables -> Tables) (c : Conn) : Conn :=
  {| view := f (view c); durable := durable c; commits := commits c |}.

(** [conn.commit()] *)
Definition commit (c : Conn) : Conn :=
  {| view := view c; durable := view c; commits := commits c ++ [view c] |}.

(** [init_db] on a database that has the tables: the CREATE TABLE IF NOT
    EXISTS statements change nothing, the commit remains. *)
Definition init_db (c : Conn) : Conn := commit c.

(** A crash: the open transaction is lost. *)
Definition crash (c : Conn) : Tables := durable c.

Definition _utc_now_str (E : Env) (w : World) : string * World :=
  let '(t, w') := W.time E w in (utc_now_str E t, w').

Definition get_checkpoint (c : Conn) (key : string) : option string :=
  match checkpoints (view c) !! key with
  | Some row => fst row
  | None => None
  end.

Definition upsert_checkpoint (key value now : string) (t : Tables) : Tables :=
  {| checkpoints := <[key := (Some value, now)]> (checkpoints t);
     players := players t; team_stints := team_stints t;
     stint_seq := stint_seq t; player_careers := player_careers t |}.

Definition set_checkpoint (E : Env) (c : Conn) (key value : string) (w : World)
  : Conn * World :=
  let '(now, w') := _utc_now_str E w in
  (commit (execute (upsert_checkpoint key value now) c), w').

(** [INSERT INTO players ... ON CONFLICT(page_title) DO UPDATE SET ...]:
    a row already there keeps its [created_utc]. *)
Definition upsert_player (title url : string) (p : Scrape.Profile) (now : string)
    (t : Tables) : Tables :=
  let created := match players t !! title with
                 | Some old => created_utc old
                 | None => now
                 end in
  {| checkpoints := checkpoints t;
     players := <[title := {| page_url := url;
                              display_name := Scrape.display_name p;
                              country := Scrape.country p;
                              role := Scrape.role p;
                              created_utc := created;
                              updated_utc := now |}]> (players t);
     team_stints := team_stints t;
     stint_seq := stint_seq t; player_careers := player_careers t |}.

(** Equality as a UNIQUE index of SQLite sees it: NULL is distinct from
    every value, NULL included. *)
Definition unique_eq (a b : option string) : bool :=
  match a, b with
  | Some x, Some y => String.eqb x y
  | _, _ => false
  end.

(** [UNIQUE(player_title, team, joined, left, note)]: the stored row [r]
    collides with the new tuple. *)
Definition collides (title : string) (s : Scrape.Stint) (r : StintRow) : bool :=
  String.eqb (player_title r) title
  && unique_eq (team r) (Scrape.team s)
  && unique_eq (joined r) (Scrape.joined s)
  && unique_eq (left r) (Scrape.left s)
  && unique_eq (note r) (Scrape.note s).

(** [INSERT OR IGNORE INTO team_stints(...) VALUES (?,?,?,?,?,?,?)].
    AUTOINCREMENT takes the next [id] before the conflict is seen: an
    ignored insert uses one up. *)
Definition insert_or_ignore_stint (title : string) (s : Scrape.Stint) (now : string)
    (t : Tables) : Tables :=
  if existsb (collides title s) (team_stints t) then
    {| checkpoints := checkpoints t;
       players := players t;
       team_stints := team_stints t;
       stint_seq := stint_seq t + 1;
       player_careers := player_careers t |}
  else
    {| checkpoints := checkpoints t;
       players := players t;
       team_stints := team_stints t ++
         [{| id := stint_seq t + 1;
             player_title := title;
             team := Scrape.team s;
             joined := Scrape.joined s;
             left := Scrape.left s;
             note := Scrape.note s;
             source_url := Scrape.source_url s;
             stint_created_utc := now |}];
       stint_seq := stint_seq t + 1;
       player_careers := player_careers t |}.

(** The UNIQUE key of a stored row. *)
Definition key_of (r : StintRow)
  : string * option string * option string * option string * option string :=
  (player_title r, team r, joined r, left r, note r).

Definition key_of_stint (title : string) (s : Scrape.Stint)
  : string * option string * option string * option string * option string :=
  (title, Scrape.team s, Scrape.joined s, Scrape.left s, Scrape.note s).

End Db.

(** ** [data/config.py] *)

Module Config.

(** The options the modelled code reads; an absent key is [None]. *)
Record Cfg : Type := {
  player_index_page : option string;
  cache_dir : option string;
  max_players : option Z;
  request_timeout_s : option Z;
  throttle_s : option Q
}.

(** [load_config], on the parsed file: the three [setdefault]s. *)
Definition load_config (file : Cfg) : Cfg :=
  {| player_index_page := player_index_page file;
     cache_dir := cache_dir file;
     max_players := Some (default 0%Z (max_players file));
     request_timeout_s := Some (default 30%Z (request_timeout_s file));
     throttle_s := Some (default (1#2)%Q (throttle_s file)) |}.

End Config.

(** ** [data/discover_players.py] *)

Module Discover.

(** The order of [sorted] on [str]. *)
Definition str_le : relation string := fun a b => String.leb a b = true.
Definition str_lt : relation string := fun a b => String.ltb a b = true.

#[global] Instance str_le_dec (a b : string) : Decision (str_le a b).
Proof. unfold str_le. apply _. Defined.

Fixpoint strip_prefix (p s : string) : option string :=
  match p with
  | EmptyString => Some s
  | String c p' =>
      match s with
      | EmptyString => None
      | String d s' => if Ascii.eqb c d then strip_prefix p' s' else None
      end
  end.

(** [m = re.match(r"^/leagueoflegends/([^#?]+)$", href)], giving
    [m.group(1)]: what follows the prefix, when it is not empty and has
    neither ['#'] nor ['?'] (the class also takes a line feed, so the
    greedy group always runs to the end of the string). *)
Definition re_match (href : string) : option string :=
  match strip_prefix "/leagueoflegends/" href with
  | None => None
  | Some rest =>
      if String.eqb rest "" || Py.contains "#" rest || Py.contains "?" rest
      then None else Some rest
  end.

Definition non_player_prefixes : list string :=
  ["portal"; "help"; "special"; "category"].

(** The three [continue] tests on a title, negated.  [title.lower()] only
    feeds [startswith] with ASCII words; the code points outside ASCII
    whose Unicode lower case starts with an ASCII letter are U+0130
    (giving i, U+0307) and U+212A (giving k), and neither can complete
    one of the four words, so lowering the ASCII letters decides the
    test. *)
Definition is_player_title (title : string) : bool :=
  negb (Py.contains ":" title)
  && negb (Py.contains "/" title)
  && negb (Py.startswith_any (Py.lower title) non_player_prefixes).

(** One pass of [for a in soup.find_all("a", href=True)]. *)
Definition visit (titles : gset string) (href : string) : gset string :=
  match re_match href with
  | None => titles
  | Some g =>
      let title := Py.replace_char "_"%char " "%char g in
      if is_player_title title then {[ title ]} ∪ titles else titles
  end.

Definition collect (hrefs : list string) : gset string :=
  fold_left visit hrefs ∅.

(** [sorted(titles)] *)
Definition sorted (titles : gset string) : list string :=
  merge_sort str_le (elements titles).

Definition titles_of_hrefs (hrefs : list string) : list string :=
  sorted (collect hrefs).

Definition discover_player_titles_from_html (E : Env) (html : string) : list string :=
  titles_of_hrefs (find_all_a_href E html).

End Discover.

(** ** [data/stages/players.py] *)

Module Players.

Definition done_key : string := "players:last_index".

(** The stage's own copy of [_utc_now_str]. *)
Definition _utc_now_str (E : Env) (w : World) : string * World :=
  let '(t, w') := W.time E w in (utc_now_str E t, w').

Definition _fetch_index_html (E : Env) (mw : Mw.MediaWikiClient)
    (index_page cache_dir : string) (w : World) : result string * World :=
  let key := "INDEX::" ++ index_page in
  match Cache.cache_get E cache_dir key w with
  | Some (String c s) => (Return (String c s), w)      (* if html: *)
  | _ =>
      match Mw.fetch_full_html E mw index_page w with
      | (Raise e, w1) => (Raise e, w1)
      | (Return html, w1) => (Return html, Cache.cache_set E cache_dir key html w1)
      end
  end.

Definition _fetch_player_overview_html (E : Env) (mw : Mw.MediaWikiClient)
    (title cache_dir : string) (w : World) : result string * World :=
  let key := "PLAYER::" ++ title in
  match Cache.cache_get E cache_dir key w with
  | Some (String c s) => (Return (String c s), w)      (* if html: *)
  | _ =>
      match Mw.fetch_html E mw title w with
      | (Raise e, w1) => (Raise e, w1)
      | (Return (JStr html), w1) =>
          (Return html, Cache.cache_set E cache_dir key html w1)
      | (Return _, w1) =>
          (* [f.write(value)] raises on a value that is not a [str]; the
             [open(path, "w")] before it has left an empty file *)
          (Raise TypeError,
           W.set_files (<[Cache.cache_path E cache_dir key := ""]> (files w1)) w1)
      end
  end.

(** The [try] block of the loop: fetch, then interpret. *)
Definition scrape (E : Env) (mw : Mw.MediaWikiClient) (title url cache_dir : string)
    (w : World) : result (Scrape.Profile * list Scrape.Stint) * World :=
  match _fetch_player_overview_html E mw title cache_dir w with
  | (Raise e, w1) => (Raise e, w1)
  | (Return html, w1) =>
      match parse_player_page E html url with
      | inl detail => (Raise (InterpreterError detail), w1)
      | inr ps => (Return ps, w1)
      end
  end.

(** The two [conn.execute] groups after the [try]: the player upsert, then
    one [INSERT OR IGNORE] per stint. *)
Definition store (title url : string) (p : Scrape.Profile) (stints : list Scrape.Stint)
    (now : string) (c : Db.Conn) : Db.Conn :=
  fold_left (fun c s => Db.execute (Db.insert_or_ignore_stint title s now) c)
    stints (Db.execute (Db.upsert_player title url p now) c).

(** How the pass for one index ended. *)
Inductive verdict : Type :=
| Stored (title : string) (p : Scrape.Profile) (stints : list Scrape.Stint)
| Skipped (e : exn)          (* except Exception: ... continue *)
| Limited (e : exn)          (* except RateLimited: ... return *)
| Uncaught (e : exn).        (* titles[i] out of range *)

(** The body of [for i in range(start_index, len(titles))]. *)
Definition step (E : Env) (mw : Mw.MediaWikiClient) (cache_dir : string)
    (titles : list string) (i : Z) (w : World) (c : Db.Conn)
  : verdict * World * Db.Conn :=
  match Py.getitem titles i with
  | Raise e => (Uncaught e, w, c)
  | Return title =>
      let url := Mw.page_url mw title in
      match scrape E mw title url cache_dir w with
      | (Raise e, w1) =>
          if is_RateLimited e then
            let '(c1, w2) := Db.set_checkpoint E c done_key (Py.str i) w1 in
            (Limited e, w2, c1)
          else
            let '(c1, w2) := Db.set_checkpoint E c done_key (Py.str (i + 1)) w1 in
            (Skipped e, w2, c1)
      | (Return (profile, stints), w1) =>
          let '(now, w2) := _utc_now_str E w1 in
          let c1 := store title url profile stints now c in
          let c2 := Db.commit c1 in
          let '(c3, w3) := Db.set_checkpoint E c2 done_key (Py.str (i + 1)) w2 in
          (Stored title profile stints, w3, c3)
      end
  end.

(** How the stage ended: it ran through the list, it returned early on a
    rate limit, or an exception left it. *)
Inductive outcome : Type :=
| Done
| Aborted
| Crashed (e : exn).

(** The [for] loop with [n] indices left, the next one being [i]. *)
Fixpoint loop (E : Env) (mw : Mw.MediaWikiClient) (cache_dir : string)
    (titles : list string) (n : nat) (i : Z) (w : World) (c : Db.Conn)
  : outcome * World * Db.Conn :=
  match n with
  | O => (Done, w, c)
  | S n' =>
      match step E mw cache_dir titles i w c with
      | (Stored _ _ _, w', c') | (Skipped _, w', c') =>
          loop E mw cache_dir titles n' (i + 1) w' c'
      | (Limited _, w', c') => (Aborted, w', c')
      | (Uncaught e, w', c') => (Crashed e, w', c')
      end
  end.

(** The verdicts of the passes [loop] makes, in order. *)
Fixpoint journal (E : Env) (mw : Mw.MediaWikiClient) (cache_dir : string)
    (titles : list string) (n : nat) (i : Z) (w : World) (c : Db.Conn)
  : list verdict :=
  match n with
  | O => []
  | S n' =>
      match step E mw cache_dir titles i w c with
      | ((Stored _ _ _) as v, w', c') | ((Skipped _) as v, w', c') =>
          v :: journal E mw cache_dir titles n' (i + 1) w' c'
      | (v, _, _) => [v]
      end
  end.

(** The worlds in which the passes [loop] makes start, in order. *)
Fixpoint starts (E : Env) (mw : Mw.MediaWikiClient) (cache_dir : string)
    (titles : list string) (n : nat) (i : Z) (w : World) (c : Db.Conn)
  : list World :=
  match n with
  | O => []
  | S n' =>
      match step E mw cache_dir titles i w c with
      | (Stored _ _ _, w', c') | (Skipped _, w', c') =>
          w :: starts E mw cache_dir titles n' (i + 1) w' c'
      | _ => [w]
      end
  end.

(** [titles[:max_players]] under [if max_players > 0]. *)
Definition work_items (max_players : Z) (titles : list string) : list string :=
  if (0 <? max_players)%Z then take (Z.to_nat max_players) titles else titles.

(** Steps 2 and 3 of [run]: resume from the checkpoint, then loop. *)
Definition stage (E : Env) (mw : Mw.MediaWikiClient) (cache_dir : string)
    (titles : list string) (w : World) (c : Db.Conn) : outcome * World * Db.Conn :=
  match Py.int (default "0" (Py.or_else (Db.get_checkpoint c done_key) None)) with
  | None => (Crashed ValueError, w, c)
  | Some start_index =>
      loop E mw cache_dir titles
        (Z.to_nat (Z.of_nat (length titles) - start_index)) start_index w c
  end.

Definition run (E : Env) (c : Db.Conn) (mw : Mw.MediaWikiClient) (cfg : Config.Cfg)
    (w : World) : outcome * World * Db.Conn :=
  let index_page := default "Portal:Players" (Config.player_index_page cfg) in
  let cache_dir := default ".cache_html" (Config.cache_dir cfg) in
  let max_players := default 0%Z (Config.max_players cfg) in
  match _fetch_index_html E mw index_page cache_dir w with
  | (Raise e, w1) => (Crashed e, w1, c)
  | (Return index_html, w1) =>
      let titles := Discover.discover_player_titles_from_html E index_html in
      stage E mw cache_dir (work_items max_players titles) w1 c
  end.

End Players.

(** ** [data/stages/careers.py] *)

Module Careers.

(** SQLite's [MIN] and [MAX] of two TEXT values (BINARY collation). *)
Definition text_min (a b : string) : string := if String.leb a b then a else b.
Definition text_max (a b : string) : string := if String.leb a b then b else a.

Definition digit (c : ascii) : option Z :=
  let n := nat_of_ascii c in
  if (48 <=? n)%nat && (n <=? 57)%nat then Some (Z.of_nat (n - 48)) else None.

(** A [YYYY-MM-DD] text, as SQLite's date functions parse it: four, two
    and two digits, month 1..12, day 1..31. *)
Definition parse_ymd (s : string) : option (Z * Z * Z) :=
  match s with
  | String y1 (String y2 (String y3 (String y4 (String "-"
      (String m1 (String m2 (String "-" (String d1 (String d2 EmptyString))))))))) =>
      match digit y1, digit y2, digit y3, digit y4,
            digit m1, digit m2, digit d1, digit d2 with
      | Some a, Some b, Some c, Some d, Some e, Some f, Some g, Some h =>
          let Y := (1000 * a + 100 * b + 10 * c + d)%Z in
          let M := (10 * e + f)%Z in
          let D := (10 * g + h)%Z in
          if (1 <=? M)%Z && (M <=? 12)%Z && (1 <=? D)%Z && (D <=? 31)%Z
          then Some (Y, M, D) else None
      | _, _, _, _, _, _, _, _ => None
      end
  | _ => None
  end.

(** SQLite's [julianday] on a date-only text, less the constant 1524.5 it
    adds: an integer day number.  The constant cancels in the difference
    [run] takes, and [ROUND(.., 1)] leaves a whole number of days as it
    is.  [None] is NULL.  Texts carrying a time of day, which the stage
    never stores, are not covered. *)
Definition julianday (s : string) : option Z :=
  match parse_ymd s with
  | None => None
  | Some (Y0, M0, D) =>
      let Y := if (M0 <=? 2)%Z then (Y0 - 1)%Z else Y0 in
      let M := if (M0 <=? 2)%Z then (M0 + 12)%Z else M0 in
      let A := Z.quot Y 100 in
      let B := (2 - A + Z.quot A 4)%Z in
      let X1 := Z.quot (36525 * (Y + 4716)) 100 in
      let X2 := Z.quot (306001 * (M + 1)) 10000 in
      Some (X1 + X2 + D + B)%Z
  end.

(** The running aggregates of one group: [MIN(joined)],
    [MAX(COALESCE(left, ?))] and [COUNT( * )]. *)
Record group : Type := {
  g_start : string;
  g_end : string;
  g_count : Z
}.

(** One row of [team_stints] entering the grouped SELECT:
    [WHERE joined IS NOT NULL GROUP BY player_title]. *)
Definition feed (today : string) (groups : gmap string group) (r : Db.StintRow)
  : gmap string group :=
  match Db.joined r with
  | None => groups
  | Some j =>
      let e := default today (Db.left r) in
      match groups !! Db.player_title r with
      | None =>
          <[Db.player_title r := {| g_start := j; g_end := e; g_count := 1 |}]> groups
      | Some g =>
          <[Db.player_title r := {| g_start := text_min (g_start g) j;
                                    g_end := text_max (g_end g) e;
                                    g_count := g_count g + 1 |}]> groups
      end
  end.

Definition aggregate (today : string) (rows : list Db.StintRow) : gmap string group :=
  fold_left (feed today) rows ∅.

(** [ROUND(julianday(MAX(..)) - julianday(MIN(..)), 1)] *)
Definition days_between (start_ end_ : string) : option Z :=
  match julianday end_, julianday start_ with
  | Some e, Some s => Some (e - s)%Z
  | _, _ => None
  end.

Definition career_row (now_utc : string) (g : group) : Db.CareerRow :=
  {| Db.career_start := Some (g_start g);
     Db.career_end := Some (g_end g);
     Db.career_days := days_between (g_start g) (g_end g);
     Db.stints_count := g_count g;
     Db.career_updated_utc := now_utc |}.

(** [DELETE FROM player_careers] *)
Definition delete_careers (t : Db.Tables) : Db.Tables :=
  {| Db.checkpoints := Db.checkpoints t; Db.players := Db.players t;
     Db.team_stints := Db.team_stints t; Db.stint_seq := Db.stint_seq t;
     Db.player_careers := ∅ |}.

(** [INSERT INTO player_careers(...) SELECT ... GROUP BY player_title]:
    one row per group; every group has its own key. *)
Definition insert_careers (today now_utc : string) (t : Db.Tables) : Db.Tables :=
  {| Db.checkpoints := Db.checkpoints t; Db.players := Db.players t;
     Db.team_stints := Db.team_stints t; Db.stint_seq := Db.stint_seq t;
     Db.player_careers :=
       (career_row now_utc <$> aggregate today (Db.team_stints t))
         ∪ Db.player_careers t |}.

Definition _utc_today_iso (E : Env) (w : World) : string * World :=
  let '(t, w') := W.time E w in (utc_today_iso E t, w').

Definition run (E : Env) (c : Db.Conn) (w : World) : Db.Conn * World :=
  let c1 := Db.execute delete_careers c in
  let '(today, w1) := _utc_today_iso E w in
  let '(now_utc, w2) := Db._utc_now_str E w1 in
  let c2 := Db.execute (insert_careers today now_utc) c1 in
  (Db.commit c2, w2).

(** The stints of a player that enter the aggregation. *)
Definition dated_stints (t : Db.Tables) (player : string) : list Db.StintRow :=
  List.filter (fun r => String.eqb (Db.player_title r) player
                        && bool_decide (is_Some (Db.joined r)))
    (Db.team_stints t).

(** All the stints stored for a player. *)
Definition stints_of (t : Db.Tables) (player : string) : list Db.StintRow :=
  List.filter (fun r => String.eqb (Db.player_title r) player) (Db.team_stints t).

End Careers.

(** ** [run_etl.py] *)

Module Etl.

(** [main] after the configuration is loaded and the database opened. *)
Definition main (E : Env) (cfg : Config.Cfg) (api_url wiki_base : string)
    (c : Db.Conn) (w : World) : Players.outcome * World * Db.Conn :=
  let mw := Mw.init api_url wiki_base
              (default 30%Z (Config.request_timeout_s cfg))
              (default (1#2)%Q (Config.throttle_s cfg)) 8 in
  match Players.run E (Db.init_db c) mw cfg (W.set_limiter Mw.new_limiter w) with
  | (Players.Crashed e, w1, c1) => (Players.Crashed e, w1, c1)
  | (o, w1, c1) => let '(c2, w2) := Careers.run E c1 w1 in (o, w2, c2)
  end.

End Etl.

(** ** [data/mw.py]: [fetch_html_cached] *)

Module MwCached.

(** [cache_set(cache_dir, key, value)] for a value of any type: [f.write]
    raises on a value that is not a [str], after [open(path, "w")] has left
    an empty file. *)
Definition cache_set_any (E : Env) (cache_dir key : string) (value : json) (w : World)
  : result unit * World :=
  match value with
  | JStr s => (Return tt, Cache.cache_set E cache_dir key s w)
  | _ =>
      (Raise TypeError,
       W.set_files (<[Cache.cache_path E cache_dir key := ""]> (files w)) w)
  end.

(** [MediaWikiClient.fetch_html_cached]; the two callables may be [None].
    Without [cache_set] the fetched value is returned as it is, whatever
    its type. *)
Definition fetch_html_cached (E : Env) (self : Mw.MediaWikiClient) (title : string)
    (cache_get : option (string -> string -> World -> option string))
    (cache_set : option (string -> string -> json -> World -> result unit * World))
    (cache_dir : string) (w : World) : result json * World :=
  let key := "PLAYER::" ++ title in
  let html := match cache_get with
              | Some get => get cache_dir key w
              | None => None
              end in
  match html with
  | Some (String c s) => (Return (JStr (String c s)), w)      (* if html: *)
  | _ =>
      match Mw.fetch_html E self title w with
      | (Raise e, w1) => (Raise e, w1)
      | (Return v, w1) =>
          match cache_set with
          | None => (Return v, w1)
          | Some set =>
              match set cache_dir key v w1 with
              | (Raise e, w2) => (Raise e, w2)
              | (Return _, w2) => (Return v, w2)
              end
          end
      end
  end.

End MwCached.

(** ** [data/liquipedia.py] *)

Module Liquipedia.

(** The session headers play no part in what follows. *)
Record LiquipediaClient : Type := {
  throttle_s : Q;
  timeout_s : Z
}.

(** [__init__] with its defaults. *)
Definition init : LiquipediaClient := {| throttle_s := 35 # 100; timeout_s := 60 |}.

(** [_get_json]: one GET, no retry; the sleep follows a decoded payload. *)
Definition _get_json (E : Env) (self : LiquipediaClient) (u : string)
    (ps : list (string * string)) (w : World) : result json * World :=
  match W.get E {| url := u; params := ps |} w with
  | (Raises d, w1) => (Raise (RequestException d), w1)
  | (Responds r, w1) =>
      if (400 <=? status_code r)%Z && (status_code r <? 600)%Z then
        (Raise (HTTPError (status_code r)), w1)        (* r.raise_for_status() *)
      else
        match json_body r with
        | None => (Raise JSONDecodeError, w1)
        | Some payload => (Return payload, W.sleep (throttle_s self) w1)
        end
  end.

Definition is_str (k : string) (v : json) : bool :=
  match v with
  | JStr s => String.eqb s k
  | _ => false
  end.

Definition is_list (v : json) : bool :=
  match v with
  | JList _ => true
  | _ => false
  end.

(** What one named candidate of the [for candidate in (...)] loop does. *)
Inductive probe : Type :=
| Found (rows : list json)     (* return payload[candidate] *)
| Next                         (* the test was false *)
| Fails (e : exn).

(** [candidate in payload and isinstance(payload[candidate], list)], then
    [return payload[candidate]].  [in] is a key test on a dict, an element
    test on a list, a substring test on a str, and raises on the other
    values; [payload[candidate]] with a str index raises on a list and on a
    str. *)
Definition probe_key (k : string) (payload : json) : probe :=
  match payload with
  | JDict d =>
      match List.find (fun kv => String.eqb (fst kv) k) d with
      | Some (_, JList l) => Found l
      | _ => Next
      end
  | JList l => if existsb (is_str k) l then Fails TypeError else Next
  | JStr s => if Py.contains k s then Fails TypeError else Next
  | JNull | JBool _ | JNum _ => Fails TypeError
  end.

Fixpoint scan (keys : list string) (payload : json) : probe :=
  match keys with
  | [] => Next
  | k :: keys' =>
      match probe_key k payload with
      | Next => scan keys' payload
      | p => p
      end
  end.

(** [for v in payload.values() if isinstance(payload, dict) else []:
       if isinstance(v, list): return v], then [return []]. *)
Definition first_list_value (payload : json) : list json :=
  match payload with
  | JDict d =>
      match List.find (fun kv => is_list (snd kv)) d with
      | Some (_, JList l) => l
      | _ => []
      end
  | _ => []
  end.

(** The part of [get_matches] and [get_match_players] after [_get_json]:
    the named candidates in order, then the [None] candidate (the payload
    itself when it is a list), then the first list among the values. *)
Definition rows_of (keys : list string) (payload : json) : result (list json) :=
  match scan keys payload with
  | Found l => Return l
  | Fails e => Raise e
  | Next =>
      match payload with
      | JList l => Return l
      | _ => Return (first_list_value payload)
      end
  end.

Definition matches_keys : list string := ["data"; "results"; "matches"; "items"; "rows"].
Definition players_keys : list string := ["data"; "results"; "players"; "items"].

(** [get_matches].  [format] stands for [str.format], which is not
    modelled: applied to the template and the keyword arguments it gives
    the URL, or the exception of the template ([KeyError] for a field that
    is not among the keywords, [IndexError] for a positional field,
    [ValueError] for a malformed template). *)
Definition get_matches (E : Env) (self : LiquipediaClient)
    (format : string -> list (string * json) -> result string)
    (endpoint_template start end_ : string) (limit offset : Z) (w : World)
  : result (list json) * World :=
  match format endpoint_template
          [("start", JStr start); ("end", JStr end_);
           ("limit", JNum limit); ("offset", JNum offset)] with
  | Raise e => (Raise e, w)
  | Return u =>
      match _get_json E self u [] w with
      | (Raise e, w1) => (Raise e, w1)
      | (Return payload, w1) => (rows_of matches_keys payload, w1)
      end
  end.

(** [get_match_players] *)
Definition get_match_players (E : Env) (self : LiquipediaClient)
    (format : string -> list (string * json) -> result string)
    (endpoint_template match_id : string) (limit offset : Z) (w : World)
  : result (list json) * World :=
  match format endpoint_template
          [("match_id", JStr match_id); ("limit", JNum limit); ("offset", JNum offset)] with
  | Raise e => (Raise e, w)
  | Return u =>
      match _get_json E self u [] w with
      | (Raise e, w1) => (Raise e, w1)
      | (Return payload, w1) => (rows_of players_keys payload, w1)
      end
  end.

End Liquipedia.

(** * Statements and scenarios *)

(** A reply classified as a hard rate limit is not retried: if the [k]-th
    GET of the environment, issued to [req] during the call that took the
    world from [w] to [snd out], was answered with such a reply, then the
    call raised [RateLimited], that GET was its last one, and nothing was
    logged after it (no sleep). *)
Definition not_retried {A : Type} (env : Env) (req : Request) (w : World)
    (out : result A * World) : Prop :=
  forall (k : nat) (r : Response),
    (sent w <= k < sent (snd out))%nat ->
    session_get env k req = Responds r ->
    Mw.is_rate_limited r = true ->
    (exists msg, fst out = Raise (RateLimited msg)) /\
    sent (snd out) = S k /\
    List.last (log (snd out)) (EvSleep 0) = EvGet req.

(** The readings of a run stay between a positive first reading [t0] and
    its double.  Every difference [now - t] the limiter then takes has
    [t0 <= t <= now <= 2 * t0 <= 2 * t], so the float subtraction is exact
    (Sterbenz) and the test on floats is the test on the exact seconds. *)
Definition sterbenz_ok (t0 : Q) (rs : list RateLimiter.readings) : Prop :=
  (0 < t0)%Q /\
  Forall (fun r => (RateLimiter.now1 r <= 2 * t0)%Q /\ (RateLimiter.now2 r <= 2 * t0)%Q) rs.

(** The title one link contributes to the discovered set, if any. *)
Definition title_of_href (href : string) : option string :=
  match Discover.re_match href with
  | None => None
  | Some g =>
      let title := Py.replace_char "_"%char " "%char g in
      if Discover.is_player_title title then Some title else None
  end.

(** A discovered title is acceptable: no colon, no slash, and none of the
    four prefixes once lowered. *)
Definition acceptable (title : string) : Prop :=
  Py.contains ":" title = false /\
  Py.contains "/" title = false /\
  Forall (fun p => Py.startswith (Py.lower title) p = false)
    Discover.non_player_prefixes.

(** [start] is the earliest [joined] among [rows], [end_] the latest [left]
    among them once an absent [left] is read as [today]. *)
Definition earliest_joined (start : string) (rows : list Db.StintRow) : Prop :=
  (exists r, r ∈ rows /\ Db.joined r = Some start) /\
  (forall r j, r ∈ rows -> Db.joined r = Some j -> Discover.str_le start j).

Definition latest_left (today end_ : string) (rows : list Db.StintRow) : Prop :=
  (exists r, r ∈ rows /\ default today (Db.left r) = end_) /\
  (forall r, r ∈ rows -> Discover.str_le (default today (Db.left r)) end_).

(** The aggregates of one group after one more of its rows. *)
Definition merge_row (today : string) (g : option Careers.group) (r : Db.StintRow)
  : option Careers.group :=
  let j := default "" (Db.joined r) in
  let e := default today (Db.left r) in
  Some match g with
       | None => {| Careers.g_start := j; Careers.g_end := e; Careers.g_count := 1 |}
       | Some g =>
           {| Careers.g_start := Careers.text_min (Careers.g_start g) j;
              Careers.g_end := Careers.text_max (Careers.g_end g) e;
              Careers.g_count := Careers.g_count g + 1 |}
       end.

(** The index a run of the player stage would resume from, were it started
    on the tables [t]: the computation of [start_index]. *)
Definition cursor (t : Db.Tables) : option Z :=
  Py.int (default "0"
            (Py.or_else (match Db.checkpoints t !! Players.done_key with
                         | Some row => fst row
                         | None => None
                         end) None)).

(** The storage effects of a processed item are in [t]: the player has a
    row, and so has every stint of the page, under its UNIQUE key. *)
Definition stored_in (t : Db.Tables) (title : string) (stints : list Scrape.Stint) : Prop :=
  is_Some (Db.players t !! title) /\
  forall s, s ∈ stints ->
    exists r, r ∈ Db.team_stints t /\ Db.key_of r = Db.key_of_stint title s.

(** [t'] has every player and every stint row of [t]. *)
Definition grows (t t' : Db.Tables) : Prop :=
  (forall title, is_Some (Db.players t !! title) -> is_Some (Db.players t' !! title)) /\
  (forall r, r ∈ Db.team_stints t -> r ∈ Db.team_stints t').

(** The tables [t], as a crash could leave them, are consistent with the
    verdicts [vs] of the passes made from index [lo] on: every index from
    [lo] up to the cursor of [t] was either skipped or stored, and what was
    stored is in [t]. *)
Definition consistent (lo : Z) (vs : list Players.verdict) (t : Db.Tables) : Prop :=
  forall (k j : Z),
    cursor t = Some k -> (lo <= j < k)%Z ->
    match vs !! Z.to_nat (j - lo) with
    | Some (Players.Stored title _ stints) => stored_in t title stints
    | Some (Players.Skipped _) => True
    | _ => False
    end.

(** The verdict the [try] statement of the loop body dictates for index
    [i] in world [w]: stored when the fetch and the interpreter returned,
    limited or skipped by the exception they raised. *)
Definition verdict_of (E : Env) (mw : Mw.MediaWikiClient) (cache_dir : string)
    (titles : list string) (i : Z) (w : World) : Players.verdict :=
  match Py.getitem titles i with
  | Raise e => Players.Uncaught e
  | Return title =>
      match Players.scrape E mw title (Mw.page_url mw title) cache_dir w with
      | (Return (p, stints), _) => Players.Stored title p stints
      | (Raise e, _) => if is_RateLimited e then Players.Limited e else Players.Skipped e
      end
  end.

(** The tables [t], as a crash could leave them, never point past an item
    whose effects are missing: every index [j] from [lo] up to the cursor
    of [t] had its pass, in the world [ws !! (j - lo)], and if the fetch
    and the interpreter returned in that pass (the item was processed
    successfully), the player row and the stint rows of the page are in
    [t]. *)
Definition settled (E : Env) (mw : Mw.MediaWikiClient) (cache_dir : string)
    (titles : list string) (lo : Z) (ws : list World) (t : Db.Tables) : Prop :=
  forall (k j : Z),
    cursor t = Some k -> (lo <= j < k)%Z ->
    exists wj,
      ws !! Z.to_nat (j - lo) = Some wj /\
      forall title p stints w1,
        Py.getitem titles j = Return title ->
        Players.scrape E mw title (Mw.page_url mw title) cache_dir wj
        = (Return (p, stints), w1) ->
        stored_in t title stints.

(** The test of [Careers.dated_stints]: a dated row of [player]. *)
Definition dated_for (player : string) (r : Db.StintRow) : bool :=
  String.eqb (Db.player_title r) player && bool_decide (is_Some (Db.joined r)).

(** The [for s in stints] loop of the player stage. *)
Definition insert_all (title now : string) (stints : list Scrape.Stint) (c : Db.Conn)
  : Db.Conn :=
  fold_left (fun c s => Db.execute (Db.insert_or_ignore_stint title s now) c) stints c.

(** What a pass of the loop commits, by verdict. *)
Definition pass_spec (i : Z) (c : Db.Conn) (v : Players.verdict) (c1 : Db.Conn) : Prop :=
  match v with
  | Players.Stored title _ stints =>
      exists d1,
        Db.commits c1 = (Db.commits c ++ [d1; Db.view c1])%list /\
        cursor d1 = cursor (Db.view c) /\
        stored_in d1 title stints /\
        grows (Db.view c) d1 /\ grows d1 (Db.view c1) /\
        cursor (Db.view c1) = Some (i + 1)%Z /\
        Db.durable c1 = Db.view c1
  | Players.Skipped _ =>
      Db.commits c1 = (Db.commits c ++ [Db.view c1])%list /\
      Db.players (Db.view c1) = Db.players (Db.view c) /\
      Db.team_stints (Db.view c1) = Db.team_stints (Db.view c) /\
      cursor (Db.view c1) = Some (i + 1)%Z /\
      Db.durable c1 = Db.view c1
  | Players.Limited _ =>
      Db.commits c1 = (Db.commits c ++ [Db.view c1])%list /\
      Db.players (Db.view c1) = Db.players (Db.view c) /\
      Db.team_stints (Db.view c1) = Db.team_stints (Db.view c) /\
      cursor (Db.view c1) = Some i /\
      Db.durable c1 = Db.view c1
  | Players.Uncaught _ => c1 = c
  end.

(** Concrete environments on which the statements are exercised. *)
Module Demo.

(** A run of three calls with two slots per ten seconds: the third call
    has to sleep. *)
Definition three_calls : list RateLimiter.readings :=
  [ {| RateLimiter.now1 := 0; RateLimiter.jitter := 1; RateLimiter.now2 := 0 |};
    {| RateLimiter.now1 := 1; RateLimiter.jitter := 1; RateLimiter.now2 := 1 |};
    {| RateLimiter.now1 := 2; RateLimiter.jitter := 1; RateLimiter.now2 := 12 |} ].

(** The same run started at second 100: every reading lies between 100
    and 200. *)
Definition epoch_calls : list RateLimiter.readings :=
  [ {| RateLimiter.now1 := 100; RateLimiter.jitter := 1; RateLimiter.now2 := 100 |};
    {| RateLimiter.now1 := 101; RateLimiter.jitter := 1; RateLimiter.now2 := 101 |};
    {| RateLimiter.now1 := 102; RateLimiter.jitter := 1; RateLimiter.now2 := 112 |} ].

(** A successful reply of the parse API carrying [html]. *)
Definition parsed (html : string) : Response :=
  {| status_code := 200; retry_after := None;
     content_type := Some "application/json; charset=utf-8";
     text := "{}";
     json_body :=
       Some (JDict [("parse", JDict [("text", JDict [("*", JStr html)])])]) |}.

Definition blocked : Response :=
  {| status_code := 429; retry_after := None; content_type := Some "text/html";
     text := "slow down"; json_body := None |}.

Definition portal : Response :=
  {| status_code := 200; retry_after := None; content_type := Some "text/html";
     text := "<html>portal</html>"; json_body := None |}.

(** The site blocks the page of player "B", serves an empty document for
    player "M" and a page for every other player. *)
Definition site (k : nat) (req : Request) : reply :=
  match Mw.param "page" (params req) with
  | Some "B" => Responds blocked
  | Some "M" => Responds (parsed "")
  | Some t => Responds (parsed ("<h1>" ++ t ++ "</h1>"))
  | None => Responds portal
  end.

Definition history : list Scrape.Stint :=
  [ {| Scrape.team := Some "SK Telecom T1 K"; Scrape.joined := Some "2013-02-06";
       Scrape.left := Some "2014-12-02"; Scrape.note := None;
       Scrape.source_url := None |};
    {| Scrape.team := Some "T1"; Scrape.joined := Some "2014-12-02";
       Scrape.left := None; Scrape.note := None;
       Scrape.source_url := None |} ].

Definition interpret (html url : string)
  : string + (Scrape.Profile * list Scrape.Stint) :=
  inr ({| Scrape.display_name := Some html; Scrape.country := None;
          Scrape.role := None |}, history).

Definition env : Env :=
  {| time_time := fun k => inject_Z (Z.of_nat k);
     random_random := fun _ => 0%Q;
     session_get := site;
     os_linesep := String "010"%char EmptyString;
     sha1_hexdigest := fun s => s;
     find_all_a_href := fun _ =>
       ["/leagueoflegends/C"; "/leagueoflegends/A"; "/leagueoflegends/B"];
     parse_player_page := interpret;
     utc_now_str := fun _ => "2024-01-01 00:00:00";
     utc_today_iso := fun _ => "2024-01-01" |}.

(** The same environment, with a site that blocks every request. *)
Definition env_blocked : Env :=
  {| time_time := time_time env;
     random_random := random_random env;
     session_get := fun _ _ => Responds blocked;
     os_linesep := os_linesep env;
     sha1_hexdigest := sha1_hexdigest env;
     find_all_a_href := find_all_a_href env;
     parse_player_page := parse_player_page env;
     utc_now_str := utc_now_str env;
     utc_today_iso := utc_today_iso env |}.

Definition world : World :=
  {| ticks := 0; draws := 0; sent := 0; limiter := Mw.new_limiter;
     files := ∅; log := [] |}.

(** A payload with a carriage return in it: [a], CR, [b]. *)
Definition cr_payload : string :=
  String "a" (String Cache.CR (String "b" EmptyString)).

(** What reading it back gives: [a], LF, [b]. *)
Definition lf_payload : string :=
  String "a" (String Cache.LF (String "b" EmptyString)).

(** An ongoing stint, as [_extract_infobox_history_stints] builds it. *)
Definition ongoing : Scrape.Stint :=
  {| Scrape.team := Some "T1"; Scrape.joined := Some "2014-12-02";
     Scrape.left := None; Scrape.note := None;
     Scrape.source_url := Some "https://liquipedia.net/leagueoflegends/Faker" |}.

Definition mw : Mw.MediaWikiClient :=
  Mw.init "https://liquipedia.net/leagueoflegends/api.php"
    "https://liquipedia.net/leagueoflegends/" 30 (1#2) 8.

Definition cfg (max_players : Z) : Config.Cfg :=
  {| Config.player_index_page := None; Config.cache_dir := None;
     Config.max_players := Some max_players;
     Config.request_timeout_s := None; Config.throttle_s := None |}.

Definition stint_row (id : Z) (player : string) (team joined left : option string)
  : Db.StintRow :=
  {| Db.id := id; Db.player_title := player; Db.team := team;
     Db.joined := joined; Db.left := left; Db.note := None;
     Db.source_url := None; Db.stint_created_utc := "2024-01-01 00:00:00" |}.

Definition with_stints (rows : list Db.StintRow) : Db.Tables :=
  {| Db.checkpoints := ∅; Db.players := ∅; Db.team_stints := rows;
     Db.stint_seq := Z.of_nat (length rows); Db.player_careers := ∅ |}.

(** The two stints of the specification's example. *)
Definition faker_tables : Db.Tables :=
  with_stints
    [ stint_row 1 "Faker" (Some "SK Telecom T1 K") (Some "2013-02-06") (Some "2014-12-02");
      stint_row 2 "Faker" (Some "T1") (Some "2014-12-02") None ].

(** The limited request of player "B", and the failure on player "M". *)
Definition limited_B : exn := RateLimited (Mw.rate_limited_msg (Mw.parse_params "B")).
Definition empty_M : exn := RuntimeError_empty_html "M".

Definition cache_dir : string := ".cache_html".

(** The world after the failed fetch of [title], from the initial world. *)
Definition after_scrape (title : string) : World :=
  snd (Players.scrape env mw title (Mw.page_url mw title) cache_dir world).

(** A dated stint and one whose start could not be parsed. *)
Definition mixed_tables : Db.Tables :=
  with_stints
    [ stint_row 1 "Faker" (Some "SK Telecom T1 K") (Some "2013-02-06") (Some "2014-12-02");
      stint_row 2 "Faker" (Some "T1") None None ].

End Demo.

(** * Properties *)

(** ** Python helpers *)

Lemma int_str (z : Z) : Py.int (Py.str z) = Some z.
Proof.
  unfold Py.int, Py.str. rewrite NilZero.isi.
  - simpl. f_equal. apply DecimalZ.of_to.
  - destruct z as [|p|p]; simpl; try discriminate.
    intros [= H]. exact (DecimalPos.Unsigned.to_uint_nonnil p H).
  - destruct z as [|p|p]; simpl; try discriminate.
    intros [= H]. exact (DecimalPos.Unsigned.to_uint_nonnil p H).
Qed.

(** ** The rate limiter *)

Section RateLimiterFacts.

Import RateLimiter.
Local Open Scope list_scope.

Variable W : Z.

Lemma drop_expired_split (now : Q) (ts : list Q) :
  exists old,
    ts = old ++ drop_expired W now ts /\
    Forall (fun s => (inject_Z W <= now - s)%Q) old.
Proof.
  induction ts as [|t ts IH]; simpl.
  - exists []. split; [reflexivity | constructor].
  - destruct (Qle_bool (inject_Z W) (now - t)) eqn:Hle.
    + destruct IH as (old & Heq & Hold).
      exists (t :: old). split.
      * simpl. f_equal. exact Heq.
      * constructor; [now apply Qle_bool_iff | exact Hold].
    + exists []. split; [reflexivity | constructor].
Qed.

Lemma drop_expired_length (now : Q) (ts : list Q) :
  (length (drop_expired W now ts) <= length ts)%nat.
Proof.
  induction ts as [|t ts IH]; simpl; [lia|].
  destruct (Qle_bool _ _); simpl; lia.
Qed.

Lemma count_in_window_app (t : Q) (l1 l2 : list Q) :
  count_in_window W t (l1 ++ l2)
  = (count_in_window W t l1 + count_in_window W t l2)%Z.
Proof.
  unfold count_in_window. rewrite List.filter_app, length_app. lia.
Qed.

Lemma count_in_window_expired (t : Q) (old : list Q) :
  Forall (fun s => (inject_Z W <= t - s)%Q) old ->
  count_in_window W t old = 0%Z.
Proof.
  unfold count_in_window.
  induction 1 as [|s old Hs _ IH]; simpl; [reflexivity|].
  unfold in_window at 1.
  apply Qle_bool_iff in Hs. rewrite Hs. simpl. exact IH.
Qed.

Lemma count_in_window_le_length (t : Q) (l : list Q) :
  (count_in_window W t l <= Z.of_nat (length l))%Z.
Proof.
  unfold count_in_window.
  induction l as [|s l IH]; simpl; [lia|].
  destruct (in_window W t s); simpl; lia.
Qed.

Lemma expired_later (t t' : Q) (old : list Q) :
  (t <= t')%Q ->
  Forall (fun s => (inject_Z W <= t - s)%Q) old ->
  Forall (fun s => (inject_Z W <= t' - s)%Q) old.
Proof.
  intros Hle H. eapply Forall_impl; [exact H |].
  intros s Hs. simpl in Hs. lra.
Qed.

(** The invariant of a run: every timestamp recorded so far is either
    still in the deque or at least [W] seconds older than the last clock
    reading, and the deque never holds more than [max_requests] entries. *)
Lemma stamps_window_gen (N : Z) (rs : list readings) :
  forall (ts old : list Q) (last : Q),
    Forall (fun s => (inject_Z W <= last - s)%Q) old ->
    (Z.of_nat (length ts) <= N)%Z \/ ts = [] ->
    clock_ok (mk N W ts) last rs ->
    forall (k : nat) (t : Q),
      stamps (mk N W ts) rs !! k = Some t ->
      (count_in_window W t (old ++ ts ++ take (S k) (stamps (mk N W ts) rs)) <= N)%Z.
Proof.
  induction rs as [|r rs IH]; intros ts old last Hold Hlen Hclock k t Hk.
  - simpl in Hk. discriminate.
  - simpl in Hclock. destruct Hclock as (Hlast & Hj1 & Hj2 & Hclock).
    simpl in Hk |- *.
    unfold wait_for_slot in *. simpl in *.
    destruct (drop_expired_split (now1 r) ts) as (gone & Hts & Hgone).
    set (ts1 := drop_expired W (now1 r) ts) in *.
    assert (Hlen1 : (Z.of_nat (length ts1) <= N)%Z \/ ts1 = []).
    { destruct Hlen as [Hlen | ->]; [left | right; reflexivity].
      pose proof (drop_expired_length (now1 r) ts). fold ts1 in H. lia. }
    assert (Hold1 : Forall (fun s => (inject_Z W <= now1 r - s)%Q) (old ++ gone)).
    { apply Forall_app. split; [| exact Hgone].
      eapply expired_later; [exact Hlast | exact Hold]. }
    destruct (Z.ltb_spec (Z.of_nat (length ts1)) N) as [Hlt | Hge].
    + (* a free slot: the entry reading is recorded *)
      unfold with_timestamps in *. simpl in *.
      assert (Hinv : (Z.of_nat (length (ts1 ++ [now1 r])) <= N)%Z).
      { rewrite length_app. simpl. lia. }
      destruct k as [|k].
      * simpl in Hk. injection Hk as <-.
        rewrite firstn_O.
        rewrite Hts, <- !app_assoc.
        rewrite (app_assoc old gone), count_in_window_app.
        rewrite (count_in_window_expired _ _ Hold1).
        pose proof (count_in_window_le_length (now1 r) (ts1 ++ [now1 r])). lia.
      * simpl in Hk.
        specialize (IH (ts1 ++ [now1 r]) (old ++ gone) (now1 r) Hold1
                      (or_introl Hinv) Hclock k t Hk).
        rewrite Hts.
        replace (old ++ (gone ++ ts1) ++ now1 r :: take (S k) (stamps (mk N W (ts1 ++ [now1 r])) rs))
          with ((old ++ gone) ++ (ts1 ++ [now1 r]) ++ take (S k) (stamps (mk N W (ts1 ++ [now1 r])) rs)).
        { exact IH. }
        rewrite <- !app_assoc. reflexivity.
    + destruct ts1 as [|t0 tl] eqn:Hts1.
      * (* the deque is empty and there is no capacity: IndexError *)
        unfold with_timestamps in *. simpl in *.
        specialize (IH [] (old ++ gone) (now1 r) Hold1 (or_intror eq_refl) Hclock k t Hk).
        rewrite Hts, app_nil_r. simpl in IH. rewrite <- app_assoc in IH. exact IH.
      * (* the deque is full: sleep, then record the second reading *)
        unfold with_timestamps in *. simpl in *.
        destruct Hclock as (Hsleep & Hclock).
        assert (Ht0 : (inject_Z W <= now2 r - t0)%Q).
        { pose proof (Q.le_max_r 1 (inject_Z W - (now1 r - t0) + jitter r)). lra. }
        assert (H12 : (now1 r <= now2 r)%Q).
        { pose proof (Q.le_max_l 1 (inject_Z W - (now1 r - t0) + jitter r)). lra. }
        apply Qle_bool_iff in Ht0. rewrite Ht0 in *.
        destruct (drop_expired_split (now2 r) tl) as (gone2 & Htl & Hgone2).
        set (ts2 := drop_expired W (now2 r) tl) in *.
        assert (Hlen2 : (Z.of_nat (length (ts2 ++ [now2 r])) <= N)%Z).
        { destruct Hlen1 as [Hlen1 | Hnil]; [| discriminate].
          pose proof (drop_expired_length (now2 r) tl). fold ts2 in H.
          rewrite length_app. simpl in *. lia. }
        assert (Hold2 : Forall (fun s => (inject_Z W <= now2 r - s)%Q)
                          (old ++ gone ++ t0 :: gone2)).
        { rewrite app_assoc. apply Forall_app. split.
          - eapply expired_later; [exact H12 | exact Hold1].
          - constructor; [now apply Qle_bool_iff | exact Hgone2]. }
        destruct k as [|k].
        -- simpl in Hk. injection Hk as <-.
           rewrite firstn_O.
           rewrite Hts, Htl.
           replace (old ++ (gone ++ t0 :: gone2 ++ ts2) ++ [now2 r])
             with ((old ++ gone ++ t0 :: gone2) ++ ts2 ++ [now2 r]).
           2:{ rewrite <- !app_assoc. simpl. rewrite <- !app_assoc. reflexivity. }
           rewrite count_in_window_app.
           rewrite (count_in_window_expired _ _ Hold2).
           pose proof (count_in_window_le_length (now2 r) (ts2 ++ [now2 r])). lia.
        -- simpl in Hk.
           specialize (IH (ts2 ++ [now2 r]) (old ++ gone ++ t0 :: gone2) (now2 r) Hold2
                         (or_introl Hlen2) Hclock k t Hk).
           rewrite Hts, Htl.
           replace (old ++ (gone ++ t0 :: gone2 ++ ts2)
                        ++ now2 r :: take (S k) (stamps (mk N W (ts2 ++ [now2 r])) rs))
             with ((old ++ gone ++ t0 :: gone2) ++ (ts2 ++ [now2 r])
                        ++ take (S k) (stamps (mk N W (ts2 ++ [now2 r])) rs)).
           { exact IH. }
           rewrite <- !app_assoc. simpl. rewrite <- !app_assoc. reflexivity.
Qed.

End RateLimiterFacts.

Lemma stamps_length (N W : Z) (rs : list RateLimiter.readings) :
  (0 < N)%Z ->
  forall ts : list Q,
    length (RateLimiter.stamps (RateLimiter.mk N W ts) rs) = length rs.
Proof.
  intros HN. induction rs as [|r rs IH]; intros ts; simpl; [reflexivity|].
  unfold RateLimiter.wait_for_slot. simpl.
  destruct (Z.ltb_spec (Z.of_nat (length (RateLimiter.drop_expired W (RateLimiter.now1 r) ts))) N)
    as [Hlt | Hge]; simpl.
  - f_equal. apply IH.
  - destruct (RateLimiter.drop_expired W (RateLimiter.now1 r) ts) eqn:Hd; simpl in *.
    + lia.
    + f_equal. apply IH.
Qed.

(** C3. Whatever the sequence of [wait_for_slot] calls on a new limiter,
    under a clock that does not run backwards, a [sleep] that lasts at
    least as long as asked, and readings between a positive first reading
    and its double (so that the float differences of the code are the
    exact ones): when a timestamp [t] is recorded, at most [max_requests]
    of the timestamps recorded so far (it included) are less than
    [window_seconds] old at [t]. *)
Theorem C3_rate_limiter_window (N W : Z) (rs : list RateLimiter.readings) (t0 : Q) :
  sterbenz_ok t0 rs ->
  RateLimiter.clock_ok (RateLimiter.init N W) t0 rs ->
  forall (k : nat) (t : Q),
    RateLimiter.stamps (RateLimiter.init N W) rs !! k = Some t ->
    (RateLimiter.count_in_window W t
       (take (S k) (RateLimiter.stamps (RateLimiter.init N W) rs)) <= N)%Z.
Proof.
  intros _ Hclock k t Hk.
  pose proof (stamps_window_gen W N rs [] [] t0 (List.Forall_nil _) (or_intror eq_refl)
                Hclock k t Hk) as H.
  exact H.
Qed.

Lemma C3_rate_limiter_window_witness :
  RateLimiter.stamps (RateLimiter.init 2 10) Demo.epoch_calls = [100%Q; 101%Q; 112%Q] /\
  (RateLimiter.count_in_window 10 112
     (take 3 (RateLimiter.stamps (RateLimiter.init 2 10) Demo.epoch_calls)) <= 2)%Z.
Proof.
  split; [reflexivity |].
  apply (C3_rate_limiter_window 2 10 Demo.epoch_calls 100).
  - split; [reflexivity |]. repeat constructor; discriminate.
  - vm_compute. intuition discriminate.
  - reflexivity.
Defined.

(** ** The retrying fetch client *)

Section MwFacts.

Local Open Scope list_scope.

Variable E : Env.
Variable self : Mw.MediaWikiClient.

Lemma wait_for_slot_sent (w w1 : World) (res : result unit) :
  W.wait_for_slot E w = (res, w1) -> sent w1 = sent w.
Proof.
  unfold W.wait_for_slot.
  destruct (RateLimiter.wait_for_slot _ _) as [[| d | e] l];
    intros [= <- <-]; reflexivity.
Qed.

Lemma sleep_polite_sent (extra : Q) (w : World) :
  sent (Mw._sleep_polite E self extra w) = sent w.
Proof. reflexivity. Qed.

Lemma request_except_again (e : exn) (st : Mw.retry_state) (w : World) :
  exists st',
    Mw.request_except E self e st w = (Mw.Again st', Mw._sleep_polite E self
      (Qmin (Qmax (Mw.backoff st) 10) 60) w).
Proof. eexists. reflexivity. Qed.

(** One pass of [_request]: either the limiter raised and no GET was
    issued, or exactly one GET was issued, and if its reply was a hard
    rate limit the pass let [RateLimited] out right after it. *)
Lemma request_attempt_cases (ps : list (string * string)) (st : Mw.retry_state)
    (w w' : World) (a : Mw.attempt json) :
  Mw.request_attempt E self ps st w = (a, w') ->
  let req := {| url := Mw.api_url self; params := ps |} in
  ((exists st', a = Mw.Again st') /\ sent w' = sent w) \/
  (sent w' = S (sent w) /\
   forall r, session_get E (sent w) req = Responds r ->
     if Mw.is_rate_limited r
     then a = Mw.Propagated (RateLimited (Mw.rate_limited_msg ps)) /\
          List.last (log w') (EvSleep 0) = EvGet req
     else forall e, a <> Mw.Propagated e).
Proof.
  intros H req. unfold Mw.request_attempt in H.
  destruct (W.wait_for_slot E w) as [[[] | e] w1] eqn:Hslot.
  2:{ left. destruct (request_except_again e st w1) as [st' Hex].
      rewrite Hex in H. injection H as <- <-.
      split; [eauto |]. rewrite sleep_polite_sent.
      eapply wait_for_slot_sent; eassumption. }
  right.
  apply wait_for_slot_sent in Hslot.
  unfold W.get in H. rewrite Hslot in H. fold req in H.
  destruct (session_get E (sent w) req) as [d | r] eqn:Hget.
  { destruct (request_except_again (RequestException d) st
                {| ticks := ticks w1; draws := draws w1; sent := S (sent w);
                   limiter := limiter w1; files := files w1;
                   log := log w1 ++ [EvGet req] |}) as [st' Hex].
    rewrite Hex in H. injection H as <- <-.
    split; [reflexivity | intros r [=]]. }
  destruct (Mw.is_rate_limited r) eqn:Hrl.
  { injection H as <- <-. split; [reflexivity |].
    intros r' [= <-]. rewrite Hrl. split; [reflexivity |].
    simpl. apply List.last_last. }
  assert (Hother : forall (a0 : Mw.attempt json) w0,
             (a0, w0) = (a, w') -> (forall e, a0 <> Mw.Propagated e) ->
             sent w0 = S (sent w) ->
             sent w' = S (sent w) /\
             (forall r0, Responds r = Responds r0 ->
                if Mw.is_rate_limited r0
                then a = Mw.Propagated (RateLimited (Mw.rate_limited_msg ps)) /\
                     List.last (log w') (EvSleep 0) = EvGet req
                else forall e, a <> Mw.Propagated e)).
  { intros a0 w0 [= <- <-] Ha Hs. split; [exact Hs |].
    intros r0 [= <-]. rewrite Hrl. exact Ha. }
  destruct ((500 <=? status_code r)%Z && (status_code r <? 600)%Z).
  { eapply Hother; [exact H | discriminate | reflexivity]. }
  destruct ((400 <=? status_code r)%Z && (status_code r <? 600)%Z).
  { eapply Hother; [exact H | discriminate | reflexivity]. }
  destruct (negb (Py.contains "application/json" _)).
  { eapply Hother; [exact H | discriminate | reflexivity]. }
  destruct (json_body r) as [payload |].
  2:{ eapply Hother; [exact H | discriminate | reflexivity]. }
  destruct (Mw.has_key "error" payload).
  { eapply Hother; [exact H | discriminate | reflexivity]. }
  eapply Hother; [exact H | discriminate | reflexivity].
Qed.

Lemma request_loop_not_retried (ps : list (string * string)) (n : nat) :
  forall (st : Mw.retry_state) (w : World),
    (sent w <= sent (snd (Mw.request_loop E self ps n st w)))%nat /\
    not_retried E {| url := Mw.api_url self; params := ps |} w
      (Mw.request_loop E self ps n st w).
Proof.
  induction n as [|n IH]; intros st w.
  - simpl. split; [lia |]. intros k r Hk. simpl in Hk. lia.
  - simpl.
    destruct (Mw.request_attempt E self ps st w) as [a w1] eqn:Hatt.
    pose proof (request_attempt_cases ps st w w1 a Hatt) as Hcases.
    simpl in Hcases.
    destruct Hcases as [[[st' ->] Hsent] | [Hsent Hreply]].
    + destruct (IH st' w1) as [Hle Hnr]. rewrite Hsent in Hle.
      split; [exact Hle |].
      intros k r Hk. apply (Hnr k r). rewrite Hsent. exact Hk.
    + destruct a as [payload | e | st'].
      * simpl. split; [lia |].
        intros k r Hk Hget Hrl. simpl in Hk.
        assert (k = sent w) as -> by lia.
        specialize (Hreply r Hget). rewrite Hrl in Hreply.
        destruct Hreply as [[=] _].
      * simpl. split; [lia |].
        intros k r Hk Hget Hrl. simpl in Hk.
        assert (k = sent w) as -> by lia.
        specialize (Hreply r Hget). rewrite Hrl in Hreply.
        destruct Hreply as [[= ->] Hlast].
        split; [eauto |]. split; [exact Hsent | exact Hlast].
      * destruct (IH st' w1) as [Hle Hnr].
        split; [lia |].
        intros k r Hk Hget Hrl.
        destruct (decide (k = sent w)) as [-> | Hne].
        -- specialize (Hreply r Hget). rewrite Hrl in Hreply.
           destruct Hreply as [[=] _].
        -- apply (Hnr k r); [lia | exact Hget | exact Hrl].
Qed.

(** One pass of [fetch_full_html] never lets an exception out. *)
Lemma full_html_attempt_catches (u : string) (st : Mw.retry_state) (w : World) :
  forall e, fst (Mw.full_html_attempt E self u st w) <> Mw.Propagated e.
Proof.
  intros e. unfold Mw.full_html_attempt.
  destruct (W.wait_for_slot E w) as [[[] | e0] w1]; [| discriminate].
  destruct (W.get E _ w1) as [[d | r] w2]; [discriminate |].
  destruct (_ || _).
  - destruct (W.uniform E 0 10 w2). discriminate.
  - destruct (_ && _); [discriminate |].
    destruct (W.uniform E 0 (3 # 5) w2). discriminate.
Qed.

Lemma full_html_loop_never_rate_limited (u : string) (n : nat) :
  forall (st : Mw.retry_state) (w : World) (msg : string),
    fst (Mw.full_html_loop E self u n st w) <> Raise (RateLimited msg).
Proof.
  induction n as [|n IH]; intros st w msg; simpl; [discriminate |].
  pose proof (full_html_attempt_catches u st w) as Hcatch.
  destruct (Mw.full_html_attempt E self u st w) as [[body | e | st'] w1]; simpl.
  - discriminate.
  - exfalso. exact (Hcatch e eq_refl).
  - apply IH.
Qed.

(** What a pass of [fetch_full_html] does with a reply classified as a
    hard rate limit: it sleeps the cool-down and goes on to the next
    pass with a longer backoff. *)
Lemma full_html_attempt_cools_down (u : string) (st : Mw.retry_state)
    (w w1 : World) (r : Response) :
  W.wait_for_slot E w = (Return tt, w1) ->
  session_get E (sent w1) {| url := u; params := [] |} = Responds r ->
  Mw.is_rate_limited r = true ->
  exists st' w',
    Mw.full_html_attempt E self u st w = (Mw.Again st', w') /\
    Mw.backoff st' = Qmin (Mw.backoff st * (8 # 5)) 180 /\
    sent w' = S (sent w1) /\
    log w' = log w1 ++ [EvGet {| url := u; params := [] |};
                        EvSleep (Qmin (Qmax (Mw.backoff st) 60) 180
                                 + (0 + (10 - 0) * random_random E (draws w1)))%Q].
Proof.
  intros Hslot Hget Hrl. unfold Mw.full_html_attempt.
  rewrite Hslot. unfold W.get. rewrite Hget.
  unfold Mw.is_rate_limited in Hrl. rewrite Hrl.
  simpl. eexists _, _. split; [reflexivity |]. simpl.
  repeat split. rewrite <- app_assoc. reflexivity.
Qed.

End MwFacts.

(** C1 (amended). The structured API call [_request] does not retry a reply
    classified as a hard rate limit (status 429, or the marker in the
    body): it raises [RateLimited] right after that GET, with no sleep and
    no further attempt.  The raw-document fetch [fetch_full_html] handles
    such a reply inside its loop: the pass sleeps a cool-down, lengthens the
    backoff and goes on to the next attempt, and the call never raises
    [RateLimited]. *)
Theorem C1_rate_limit_handling (E : Env) (self : Mw.MediaWikiClient) :
  (forall (ps : list (string * string)) (w : World),
     not_retried E {| url := Mw.api_url self; params := ps |} w
       (Mw._request E self ps w)) /\
  (forall (title : string) (w : World) (msg : string),
     fst (Mw.fetch_full_html E self title w) <> Raise (RateLimited msg)) /\
  (forall (u : string) (st : Mw.retry_state) (w w1 : World) (r : Response),
     W.wait_for_slot E w = (Return tt, w1) ->
     session_get E (sent w1) {| url := u; params := [] |} = Responds r ->
     Mw.is_rate_limited r = true ->
     exists st' w',
       Mw.full_html_attempt E self u st w = (Mw.Again st', w') /\
       Mw.backoff st' = Qmin (Mw.backoff st * (8 # 5)) 180 /\
       sent w' = S (sent w1) /\
       log w' = (log w1 ++ [EvGet {| url := u; params := [] |};
                            EvSleep (Qmin (Qmax (Mw.backoff st) 60) 180
                                     + (0 + (10 - 0) * random_random E (draws w1)))%Q])%list).
Proof.
  split; [| split].
  - intros ps w. unfold Mw._request.
    apply (request_loop_not_retried E self ps).
  - intros title w msg. unfold Mw.fetch_full_html.
    apply full_html_loop_never_rate_limited.
  - intros u st w w1 r. apply full_html_attempt_cools_down.
Qed.

Lemma C1_rate_limit_handling_witness :
  (exists msg,
     fst (Mw._request Demo.env Demo.mw (Mw.parse_params "B") Demo.world)
     = Raise (RateLimited msg)) /\
  sent (snd (Mw._request Demo.env Demo.mw (Mw.parse_params "B") Demo.world)) = 1%nat /\
  List.last (log (snd (Mw._request Demo.env Demo.mw (Mw.parse_params "B") Demo.world)))
    (EvSleep 0)
  = EvGet {| url := Mw.api_url Demo.mw; params := Mw.parse_params "B" |}.
Proof.
  apply (proj1 (C1_rate_limit_handling Demo.env Demo.mw)
           (Mw.parse_params "B") Demo.world 0%nat Demo.blocked).
  - vm_compute. lia.
  - reflexivity.
  - reflexivity.
Defined.

(** C1 as stated fails for the raw-document fetch: against a site that
    answers every request with status 429, [fetch_full_html] retries. *)
Lemma C1_full_html_retries :
  ~ not_retried Demo.env_blocked
      {| url := Mw.page_url Demo.mw "Portal:Players"; params := [] |} Demo.world
      (Mw.fetch_full_html Demo.env_blocked Demo.mw "Portal:Players" Demo.world).
Proof.
  intros H.
  destruct (H 0%nat Demo.blocked) as [[msg Hmsg] _].
  - vm_compute. lia.
  - reflexivity.
  - reflexivity.
  - vm_compute in Hmsg. discriminate Hmsg.
Qed.

(** ** The file cache *)

Section CacheFacts.

Variable E : Env.

Lemma contains_cons_false (c x : ascii) (s : string) :
  Py.contains (String c EmptyString) (String x s) = false ->
  x <> c /\ Py.contains (String c EmptyString) s = false.
Proof.
  simpl. destruct (ascii_dec c x) as [-> | Hne].
  - destruct s; discriminate.
  - intros H. split; [congruence | exact H].
Qed.

(** With the line separator of POSIX or of Windows, a text without carriage
    returns is read back as written. *)
Lemma read_write_text (linesep v : string) :
  linesep = String Cache.LF EmptyString \/
  linesep = String Cache.CR (String Cache.LF EmptyString) ->
  Py.contains (String Cache.CR EmptyString) v = false ->
  Cache.read_text (Cache.write_text linesep v) = v.
Proof.
  intros Hsep. induction v as [|x v IH]; intros Hcr; [reflexivity |].
  apply contains_cons_false in Hcr. destruct Hcr as [Hx Hv].
  specialize (IH Hv). simpl.
  destruct (Ascii.eqb_spec x Cache.LF) as [-> | Hlf].
  - destruct Hsep as [-> | ->]; cbv [String.append]; simpl; rewrite IH; reflexivity.
  - simpl. destruct (Ascii.eqb_spec x Cache.CR) as [-> | _]; [congruence |].
    rewrite IH. reflexivity.
Qed.

(** What [cache_get] returns depends on the files alone: not on the clock,
    nor on anything else in the world. *)
Lemma cache_get_files_only (cache_dir key : string) (w w' : World) :
  files w = files w' ->
  Cache.cache_get E cache_dir key w = Cache.cache_get E cache_dir key w'.
Proof. unfold Cache.cache_get. intros ->. reflexivity. Qed.

(** [cache_set] then [cache_get] of the same key gives the payload back, for
    a payload without carriage returns. *)
Lemma cache_set_get (cache_dir key value : string) (w : World) :
  os_linesep E = String Cache.LF EmptyString \/
  os_linesep E = String Cache.CR (String Cache.LF EmptyString) ->
  Py.contains (String Cache.CR EmptyString) value = false ->
  Cache.cache_get E cache_dir key (Cache.cache_set E cache_dir key value w) = Some value.
Proof.
  intros Hsep Hcr. unfold Cache.cache_get, Cache.cache_set. simpl.
  rewrite lookup_insert_eq. simpl. f_equal.
  apply read_write_text; assumption.
Qed.

(** [needle in hay] for a one-character needle. *)
Lemma contains_char_cons (c x : ascii) (s : string) :
  Py.contains (String c EmptyString) (String x s)
  = Ascii.eqb x c || Py.contains (String c EmptyString) s.
Proof.
  simpl. destruct (ascii_dec c x) as [<- | Hne].
  - rewrite Ascii.eqb_refl. destruct s; reflexivity.
  - destruct (Ascii.eqb_spec x c); [congruence | reflexivity].
Qed.

Lemma contains_cr_cons (x : ascii) (s : string) :
  Py.contains (String Cache.CR EmptyString) (String x s)
  = Ascii.eqb x Cache.CR || Py.contains (String Cache.CR EmptyString) s.
Proof. apply contains_char_cons. Qed.

Lemma read_text_cons (c : ascii) (rest : string) :
  Cache.read_text (String c rest)
  = if Ascii.eqb c Cache.CR then
      match rest with
      | String c' rest' =>
          if Ascii.eqb c' Cache.LF then String Cache.LF (Cache.read_text rest')
          else String Cache.LF (Cache.read_text rest)
      | EmptyString => String Cache.LF EmptyString
      end
    else String c (Cache.read_text rest).
Proof. reflexivity. Qed.

(** Whatever the file holds, what is read from it has no carriage return. *)
Lemma read_text_no_cr (raw : string) :
  Py.contains (String Cache.CR EmptyString) (Cache.read_text raw) = false /\
  forall c, Py.contains (String Cache.CR EmptyString) (Cache.read_text (String c raw)) = false.
Proof.
  induction raw as [|x raw [IH1 IH2]].
  - split; [reflexivity |]. intros c. rewrite read_text_cons.
    destruct (Ascii.eqb_spec c Cache.CR) as [-> | Hne]; [reflexivity |].
    rewrite contains_cr_cons. apply Ascii.eqb_neq in Hne. rewrite Hne. reflexivity.
  - split; [apply IH2 |]. intros c. rewrite read_text_cons.
    destruct (Ascii.eqb_spec c Cache.CR) as [-> | Hne].
    + destruct (Ascii.eqb x Cache.LF); rewrite contains_cr_cons; simpl;
        [exact IH1 | apply IH2].
    + rewrite contains_cr_cons. apply Ascii.eqb_neq in Hne. rewrite Hne. simpl.
      apply IH2.
Qed.

(** A payload with a carriage return never comes back as it was stored. *)
Lemma cache_set_get_cr (cache_dir key value : string) (w : World) :
  Py.contains (String Cache.CR EmptyString) value = true ->
  Cache.cache_get E cache_dir key (Cache.cache_set E cache_dir key value w) <> Some value.
Proof.
  intros Hcr. unfold Cache.cache_get, Cache.cache_set. simpl.
  rewrite lookup_insert_eq. simpl. intros [= Heq].
  pose proof (proj1 (read_text_no_cr (Cache.write_text (os_linesep E) value))) as Hno.
  rewrite Heq, Hcr in Hno. discriminate Hno.
Qed.

End CacheFacts.

(** C8 (the code falls short). [cache_set] followed by [cache_get] of the
    same key does not give back a payload that holds a carriage return: the
    file is written and read in text mode with universal newlines, so a
    carriage return comes back as a line feed.  This holds for every such
    payload, in every environment; the payload [a], CR, [b] comes back as
    [a], LF, [b]. *)
Theorem C8_cache_carriage_return :
  (forall (E : Env) (cache_dir key value : string) (w : World),
     Py.contains (String Cache.CR EmptyString) value = true ->
     Cache.cache_get E cache_dir key (Cache.cache_set E cache_dir key value w)
     <> Some value) /\
  Cache.cache_get Demo.env ".cache_html" "PLAYER::Faker"
    (Cache.cache_set Demo.env ".cache_html" "PLAYER::Faker" Demo.cr_payload Demo.world)
  = Some Demo.lf_payload /\
  Demo.lf_payload <> Demo.cr_payload.
Proof.
  split; [exact cache_set_get_cr |].
  split; [reflexivity | discriminate].
Qed.

(** ** Storage *)

Section DbFacts.

Local Open Scope list_scope.

Lemma unique_eq_refl_some (x : string) : Db.unique_eq (Some x) (Some x) = true.
Proof. simpl. apply String.eqb_refl. Qed.

(** A tuple with a NULL in it collides with no stored row. *)
Lemma collides_null (title : string) (s : Scrape.Stint) (r : Db.StintRow) :
  Scrape.team s = None \/ Scrape.joined s = None \/
  Scrape.left s = None \/ Scrape.note s = None ->
  Db.collides title s r = false.
Proof.
  unfold Db.collides, Db.unique_eq.
  intros [-> | [-> | [-> | ->]]];
    destruct (String.eqb _ title), (Db.team r), (Db.joined r), (Db.left r), (Db.note r);
    simpl; try reflexivity;
    repeat match goal with
           | |- context [match ?o with Some _ => _ | None => _ end] => destruct o
           | |- context [String.eqb ?a ?b] => destruct (String.eqb a b)
           end; reflexivity.
Qed.

(** Hence [INSERT OR IGNORE] always stores it. *)
Lemma insert_null_stint_appends (title now : string) (s : Scrape.Stint) (t : Db.Tables) :
  Scrape.team s = None \/ Scrape.joined s = None \/
  Scrape.left s = None \/ Scrape.note s = None ->
  length (Db.team_stints (Db.insert_or_ignore_stint title s now t))
  = S (length (Db.team_stints t)).
Proof.
  intros Hnull. unfold Db.insert_or_ignore_stint.
  replace (existsb (Db.collides title s) (Db.team_stints t)) with false.
  - simpl. rewrite length_app. simpl. lia.
  - symmetry. apply not_true_is_false. intros Hex.
    apply existsb_exists in Hex. destruct Hex as (r & _ & Hr).
    rewrite (collides_null title s r Hnull) in Hr. discriminate.
Qed.

(** A tuple without NULLs is stored once: the second insert is absorbed. *)
Lemma insert_full_stint_twice (title now now' : string) (s : Scrape.Stint) (t : Db.Tables) :
  is_Some (Scrape.team s) -> is_Some (Scrape.joined s) ->
  is_Some (Scrape.left s) -> is_Some (Scrape.note s) ->
  Db.team_stints
    (Db.insert_or_ignore_stint title s now' (Db.insert_or_ignore_stint title s now t))
  = Db.team_stints (Db.insert_or_ignore_stint title s now t).
Proof.
  intros [a Ha] [b Hb] [c Hc] [d Hd].
  unfold Db.insert_or_ignore_stint.
  destruct (existsb (Db.collides title s) (Db.team_stints t)) eqn:Hex.
  - simpl. rewrite Hex. reflexivity.
  - simpl. rewrite existsb_app, Hex. simpl.
    unfold Db.collides. simpl.
    rewrite Ha, Hb, Hc, Hd. simpl.
    rewrite !String.eqb_refl. reflexivity.
Qed.

(** Inserted twice, a tuple with a NULL in it leaves two rows with the
    same key. *)
Lemma insert_null_stint_twice (title now now' : string) (s : Scrape.Stint) (t : Db.Tables) :
  Scrape.team s = None \/ Scrape.joined s = None \/
  Scrape.left s = None \/ Scrape.note s = None ->
  exists r1 r2,
    Db.team_stints
      (Db.insert_or_ignore_stint title s now' (Db.insert_or_ignore_stint title s now t))
    = Db.team_stints t ++ [r1; r2] /\
    Db.key_of r1 = Db.key_of_stint title s /\
    Db.key_of r2 = Db.key_of_stint title s.
Proof.
  intros Hnull.
  assert (Hfree : forall t', existsb (Db.collides title s) (Db.team_stints t') = false).
  { intros t'. apply not_true_is_false. intros Hex.
    apply existsb_exists in Hex. destruct Hex as (r & _ & Hr).
    rewrite (collides_null title s r Hnull) in Hr. discriminate. }
  unfold Db.insert_or_ignore_stint. rewrite !Hfree. simpl.
  eexists _, _. rewrite <- app_assoc. simpl.
  split; [reflexivity |]. split; reflexivity.
Qed.

End DbFacts.

(** C4 (the code falls short). Inserting the same stint twice stores two
    rows with the same (player, team, joined, left, note) whenever one of
    team, joined, left, note is NULL: the UNIQUE constraint holds NULLs
    distinct, so [INSERT OR IGNORE] ignores nothing.  The page interpreter
    sets [note] to NULL on every stint; the ongoing stint of the example
    ends up stored twice. *)
Theorem C4_ongoing_stint_stored_twice :
  (forall (title now now' : string) (s : Scrape.Stint) (t : Db.Tables),
     Scrape.team s = None \/ Scrape.joined s = None \/
     Scrape.left s = None \/ Scrape.note s = None ->
     exists r1 r2,
       Db.team_stints
         (Db.insert_or_ignore_stint title s now' (Db.insert_or_ignore_stint title s now t))
       = (Db.team_stints t ++ [r1; r2])%list /\
       Db.key_of r1 = Db.key_of_stint title s /\
       Db.key_of r2 = Db.key_of_stint title s) /\
  let once := Db.insert_or_ignore_stint "Faker" Demo.ongoing "2024-01-01 00:00:00" Db.empty in
  let twice := Db.insert_or_ignore_stint "Faker" Demo.ongoing "2024-01-02 00:00:00" once in
  length (Db.team_stints once) = 1%nat /\
  length (Db.team_stints twice) = 2%nat /\
  Db.key_of <$> Db.team_stints twice
  = [Db.key_of_stint "Faker" Demo.ongoing; Db.key_of_stint "Faker" Demo.ongoing].
Proof.
  split; [exact insert_null_stint_twice |].
  repeat split.
Qed.

(** ** Discovery *)

Section DiscoverFacts.

Import Discover.

#[local] Instance str_le_total : Total str_le.
Proof. intros a b. unfold str_le. apply String.leb_total. Qed.

Lemma compare_lt_trans (a b c : string) :
  String.compare a b = Lt -> String.compare b c = Lt -> String.compare a c = Lt.
Proof.
  intros Hab Hbc.
  apply OrderedTypeEx.String_as_OT.cmp_lt.
  apply OrderedTypeEx.String_as_OT.lt_trans with b;
    apply OrderedTypeEx.String_as_OT.cmp_lt; assumption.
Qed.

#[local] Instance str_le_trans : Transitive str_le.
Proof.
  intros a b c. unfold str_le, String.leb.
  destruct (String.compare a b) eqn:Hab; try discriminate; intros _;
    destruct (String.compare b c) eqn:Hbc; try discriminate; intros _.
  - apply String.compare_eq_iff in Hab. subst. rewrite Hbc. reflexivity.
  - apply String.compare_eq_iff in Hab. subst. rewrite Hbc. reflexivity.
  - apply String.compare_eq_iff in Hbc. subst. rewrite Hab. reflexivity.
  - rewrite (compare_lt_trans a b c Hab Hbc). reflexivity.
Qed.

Lemma str_le_neq_lt (a b : string) : str_le a b -> a <> b -> str_lt a b.
Proof.
  unfold str_le, str_lt, String.leb, String.ltb.
  destruct (String.compare a b) eqn:Hab; try discriminate; intros _ Hne.
  - apply String.compare_eq_iff in Hab. contradiction.
  - reflexivity.
Qed.

Lemma visit_title_of (titles : gset string) (href : string) :
  visit titles href
  = match title_of_href href with
    | Some t => {[ t ]} ∪ titles
    | None => titles
    end.
Proof.
  unfold visit, title_of_href.
  destruct (re_match href) as [g |]; [| reflexivity].
  simpl. destruct (is_player_title _); reflexivity.
Qed.

Lemma elem_of_fold_visit (hrefs : list string) :
  forall (acc : gset string) (t : string),
    t ∈ fold_left visit hrefs acc <->
    t ∈ acc \/ exists href, href ∈ hrefs /\ title_of_href href = Some t.
Proof.
  induction hrefs as [|h hrefs IH]; intros acc t; simpl.
  - split; [auto |]. intros [H | (href & Hin & _)]; [exact H |].
    inversion Hin.
  - rewrite IH, visit_title_of. split.
    + intros [Hacc | (href & Hin & Ht)].
      * destruct (title_of_href h) as [t' |] eqn:Hh.
        -- apply elem_of_union in Hacc. destruct Hacc as [Heq | Hacc].
           ++ apply elem_of_singleton in Heq. subst t'.
              right. exists h. split; [left | exact Hh].
           ++ left. exact Hacc.
        -- left. exact Hacc.
      * right. exists href. split; [right; exact Hin | exact Ht].
    + intros [Hacc | (href & Hin & Ht)].
      * left. destruct (title_of_href h); [| exact Hacc].
        apply elem_of_union. right. exact Hacc.
      * apply elem_of_cons in Hin. destruct Hin as [-> | Hin].
        -- left. rewrite Ht. apply elem_of_union. left.
           apply elem_of_singleton. reflexivity.
        -- right. exists href. split; assumption.
Qed.

Lemma elem_of_collect (hrefs : list string) (t : string) :
  t ∈ collect hrefs <-> exists href, href ∈ hrefs /\ title_of_href href = Some t.
Proof.
  unfold collect. rewrite elem_of_fold_visit. split.
  - intros [H | H]; [| exact H]. apply not_elem_of_empty in H. contradiction.
  - intros H. right. exact H.
Qed.

(** The discovered set depends on the set of matching links only. *)
Lemma collect_same_links (hrefs hrefs' : list string) :
  (forall h, is_Some (title_of_href h) -> h ∈ hrefs <-> h ∈ hrefs') ->
  collect hrefs = collect hrefs'.
Proof.
  intros Hsame. apply set_eq. intros t. rewrite !elem_of_collect.
  split; intros (h & Hin & Ht); exists h;
    (split; [apply (Hsame h); [rewrite Ht; eauto | exact Hin] | exact Ht]).
Qed.

Lemma title_of_href_acceptable (href t : string) :
  title_of_href href = Some t -> acceptable t.
Proof.
  unfold title_of_href.
  destruct (re_match href) as [g |]; [| discriminate].
  simpl. destruct (is_player_title _) eqn:Hok; [| discriminate].
  intros [= <-]. unfold is_player_title in Hok.
  apply andb_true_iff in Hok. destruct Hok as [Hok Hpre].
  apply andb_true_iff in Hok. destruct Hok as [Hcolon Hslash].
  apply negb_true_iff in Hcolon, Hslash, Hpre.
  unfold acceptable. split; [exact Hcolon | split; [exact Hslash |]].
  unfold Py.startswith_any, non_player_prefixes in *. simpl in Hpre.
  repeat (apply orb_false_iff in Hpre; destruct Hpre as [? Hpre]).
  repeat constructor; assumption.
Qed.

Lemma sorted_NoDup (titles : gset string) : NoDup (sorted titles).
Proof.
  unfold sorted. rewrite merge_sort_Permutation. apply NoDup_elements.
Qed.

Lemma elem_of_sorted (titles : gset string) (t : string) :
  t ∈ sorted titles <-> t ∈ titles.
Proof.
  unfold sorted. rewrite merge_sort_Permutation. apply elem_of_elements.
Qed.

Lemma StronglySorted_strict (l : list string) :
  StronglySorted str_le l -> NoDup l -> StronglySorted str_lt l.
Proof.
  induction 1 as [| x l Hl IH Hx]; intros Hnd; [constructor |].
  apply NoDup_cons in Hnd. destruct Hnd as [Hnotin Hnd].
  constructor; [apply IH; exact Hnd |].
  apply Forall_forall. intros y Hy.
  apply str_le_neq_lt.
  - rewrite Forall_forall in Hx. apply Hx. exact Hy.
  - intros ->. apply Hnotin. exact Hy.
Qed.

Lemma sorted_strictly (titles : gset string) : StronglySorted str_lt (sorted titles).
Proof.
  apply StronglySorted_strict; [| apply sorted_NoDup].
  unfold sorted. apply (StronglySorted_merge_sort str_le).
Qed.

End DiscoverFacts.

(** C10. For every document, [discover_player_titles_from_html] returns a
    list without duplicates, in strictly ascending order, whose titles hold
    neither ':' nor '/' and do not start, once lowered, with portal, help,
    special or category; and the list depends only on the set of links of
    the document that contribute a title, not on their order or number of
    appearances. *)
Theorem C10_discover_sorted_distinct_filtered (E : Env) (html : string) :
  NoDup (Discover.discover_player_titles_from_html E html) /\
  StronglySorted Discover.str_lt (Discover.discover_player_titles_from_html E html) /\
  Forall acceptable (Discover.discover_player_titles_from_html E html) /\
  (forall html' : string,
     (forall h, is_Some (title_of_href h) ->
                h ∈ find_all_a_href E html' <-> h ∈ find_all_a_href E html) ->
     Discover.discover_player_titles_from_html E html'
     = Discover.discover_player_titles_from_html E html).
Proof.
  unfold Discover.discover_player_titles_from_html, Discover.titles_of_hrefs.
  split; [apply sorted_NoDup |].
  split; [apply sorted_strictly |].
  split.
  - apply Forall_forall. intros t Ht.
    apply elem_of_sorted, elem_of_collect in Ht.
    destruct Ht as (href & _ & Ht).
    exact (title_of_href_acceptable href t Ht).
  - intros html' Hsame. f_equal. apply collect_same_links. exact Hsame.
Qed.

(** ** Career aggregation *)

Section CareersFacts.

Import Careers.

Variable today : string.

Lemma str_le_refl (a : string) : Discover.str_le a a.
Proof. destruct (String.leb_total a a); assumption. Qed.

Lemma text_min_cases (a b : string) :
  (text_min a b = a /\ Discover.str_le a b) \/ (text_min a b = b /\ Discover.str_le b a).
Proof.
  unfold text_min, Discover.str_le.
  destruct (String.leb a b) eqn:Hab; [left | right]; split; try reflexivity.
  destruct (String.leb_total a b) as [H | H]; [congruence | exact H].
Qed.

Lemma text_max_cases (a b : string) :
  (text_max a b = b /\ Discover.str_le a b) \/ (text_max a b = a /\ Discover.str_le b a).
Proof.
  unfold text_max, Discover.str_le.
  destruct (String.leb a b) eqn:Hab; [left | right]; split; try reflexivity.
  destruct (String.leb_total a b) as [H | H]; [congruence | exact H].
Qed.

Lemma feed_lookup (player : string) (groups : gmap string group) (r : Db.StintRow) :
  feed today groups r !! player
  = if dated_for player r then merge_row today (groups !! player) r
    else groups !! player.
Proof.
  unfold feed, dated_for, merge_row.
  destruct (Db.joined r) as [j |] eqn:Hj; simpl.
  2:{ rewrite andb_false_r. reflexivity. }
  rewrite andb_true_r.
  destruct (String.eqb_spec (Db.player_title r) player) as [-> | Hne].
  - destruct (groups !! player) as [g |]; rewrite lookup_insert_eq; reflexivity.
  - destruct (groups !! Db.player_title r) as [g |];
      rewrite lookup_insert_ne by exact Hne; reflexivity.
Qed.

Lemma aggregate_lookup (player : string) (rows : list Db.StintRow) :
  forall acc : gmap string group,
    fold_left (feed today) rows acc !! player
    = fold_left (merge_row today) (List.filter (dated_for player) rows) (acc !! player).
Proof.
  induction rows as [|r rows IH]; intros acc; simpl; [reflexivity |].
  rewrite IH, feed_lookup.
  destruct (dated_for player r); reflexivity.
Qed.

(** What the fold over the dated rows of one player computes. *)
Lemma fold_merge_spec (rows : list Db.StintRow) :
  Forall (fun r => is_Some (Db.joined r)) rows ->
  rows <> [] ->
  exists g,
    fold_left (merge_row today) rows None = Some g /\
    g_count g = Z.of_nat (length rows) /\
    earliest_joined (g_start g) rows /\
    latest_left today (g_end g) rows.
Proof.
  induction rows as [|r rows IH] using rev_ind; intros Hdated Hne; [congruence |].
  apply Forall_app in Hdated. destruct Hdated as [Hrows Hr].
  apply List.Forall_inv in Hr. destruct Hr as [j Hj].
  rewrite fold_left_app. simpl.
  destruct rows as [|r0 rows0] eqn:Hrows_eq.
  - (* the first row of the group *)
    simpl. unfold merge_row. rewrite Hj. simpl. eexists. split; [reflexivity |].
    simpl. split; [reflexivity |]. split; split.
    + exists r. split; [apply list_elem_of_singleton; reflexivity | exact Hj].
    + intros r' j' Hin Hj'. apply list_elem_of_singleton in Hin. subst r'.
      rewrite Hj in Hj'. injection Hj' as <-. apply str_le_refl.
    + exists r. split; [apply list_elem_of_singleton; reflexivity | reflexivity].
    + intros r' Hin. apply list_elem_of_singleton in Hin. subst r'. apply str_le_refl.
  - rewrite <- Hrows_eq in *.
    destruct IH as (g & Hg & Hcount & [[rs [Hrs_in Hrs]] Hmin] & [[re [Hre_in Hre]] Hmax]);
      [exact Hrows | subst rows; discriminate |].
    rewrite Hg. unfold merge_row. rewrite Hj. simpl.
    eexists. split; [reflexivity |]. simpl.
    split; [rewrite Hcount, length_app; simpl; lia |].
    split; split.
    + destruct (text_min_cases (g_start g) j) as [[-> _] | [-> _]].
      * exists rs. split; [apply elem_of_app; left; exact Hrs_in | exact Hrs].
      * exists r. split; [| exact Hj].
        apply elem_of_app. right. apply list_elem_of_singleton. reflexivity.
    + intros r' j' Hin Hj'. apply elem_of_app in Hin. destruct Hin as [Hin | Hin].
      * specialize (Hmin r' j' Hin Hj').
        destruct (text_min_cases (g_start g) j) as [[-> _] | [-> Hle]]; [exact Hmin |].
        eapply str_le_trans; eassumption.
      * apply list_elem_of_singleton in Hin. subst r'.
        rewrite Hj in Hj'. injection Hj' as <-.
        destruct (text_min_cases (g_start g) j) as [[-> Hle] | [-> _]];
          [exact Hle | apply str_le_refl].
    + destruct (text_max_cases (g_end g) (default today (Db.left r))) as [[-> _] | [-> _]].
      * exists r. split; [| reflexivity].
        apply elem_of_app. right. apply list_elem_of_singleton. reflexivity.
      * exists re. split; [apply elem_of_app; left; exact Hre_in | exact Hre].
    + intros r' Hin. apply elem_of_app in Hin. destruct Hin as [Hin | Hin].
      * specialize (Hmax r' Hin).
        destruct (text_max_cases (g_end g) (default today (Db.left r)))
          as [[-> Hle] | [-> _]]; [| exact Hmax].
        eapply str_le_trans; eassumption.
      * apply list_elem_of_singleton in Hin. subst r'.
        destruct (text_max_cases (g_end g) (default today (Db.left r)))
          as [[-> _] | [-> Hle]]; [apply str_le_refl | exact Hle].
Qed.

Lemma dated_stints_filter (t : Db.Tables) (player : string) :
  dated_stints t player = List.filter (dated_for player) (Db.team_stints t).
Proof. reflexivity. Qed.

Lemma dated_stints_dated (t : Db.Tables) (player : string) :
  Forall (fun r => is_Some (Db.joined r)) (dated_stints t player).
Proof.
  apply Forall_forall. intros r Hin.
  apply list_elem_of_In, filter_In in Hin. destruct Hin as [_ Hr].
  apply andb_true_iff in Hr. destruct Hr as [_ Hr].
  apply bool_decide_eq_true in Hr. exact Hr.
Qed.

End CareersFacts.

Lemma careers_run_view (E : Env) (c : Db.Conn) (w : World) :
  Db.view (fst (Careers.run E c w))
  = Careers.insert_careers (utc_today_iso E (time_time E (ticks w)))
      (utc_now_str E (time_time E (S (ticks w))))
      (Careers.delete_careers (Db.view c)).
Proof. reflexivity. Qed.

Lemma careers_lookup (today now_utc player : string) (t : Db.Tables) :
  Db.player_careers (Careers.insert_careers today now_utc (Careers.delete_careers t))
    !! player
  = Careers.career_row now_utc
      <$> fold_left (merge_row today) (Careers.dated_stints t player) None.
Proof.
  unfold Careers.insert_careers. simpl.
  rewrite (right_id_L ∅ (∪)), lookup_fmap.
  unfold Careers.aggregate. rewrite aggregate_lookup, lookup_empty.
  reflexivity.
Qed.

(** C7 (amended). [run] commits a [player_careers] table rebuilt from
    nothing.  A player gets a row exactly when some stored stint of theirs
    has a [joined] date, and the row is computed from those stints alone
    (stints with a NULL [joined] are left out): [career_start] is their
    earliest [joined], [career_end] their latest [left] with a NULL [left]
    read as today's date, [career_days] the day span between the two, and
    [stints_count] their number.  For the two stints 2013-02-06 to
    2014-12-02 and 2014-12-02 to NULL the row has start 2013-02-06, count 2,
    and end today whenever today is not before 2014-12-02. *)
Theorem C7_career_rebuild (E : Env) (c : Db.Conn) (w : World) (player : string) :
  let today := utc_today_iso E (time_time E (ticks w)) in
  let now_utc := utc_now_str E (time_time E (S (ticks w))) in
  let rows := Careers.dated_stints (Db.view c) player in
  let after := Db.view (fst (Careers.run E c w)) in
  Db.durable (fst (Careers.run E c w)) = after /\
  (rows = [] -> Db.player_careers after !! player = None) /\
  (rows <> [] ->
   exists row start end_,
     Db.player_careers after !! player = Some row /\
     Db.career_start row = Some start /\ earliest_joined start rows /\
     Db.career_end row = Some end_ /\ latest_left today end_ rows /\
     Db.career_days row = Careers.days_between start end_ /\
     Db.stints_count row = Z.of_nat (length rows)) /\
  (Db.team_stints (Db.view c) = Db.team_stints Demo.faker_tables ->
   Discover.str_le "2014-12-02" today ->
   Db.player_careers after !! "Faker"
   = Some {| Db.career_start := Some "2013-02-06";
             Db.career_end := Some today;
             Db.career_days := Careers.days_between "2013-02-06" today;
             Db.stints_count := 2;
             Db.career_updated_utc := now_utc |}).
Proof.
  intros today now_utc rows after.
  split; [reflexivity |].
  unfold after. rewrite careers_run_view. fold today now_utc.
  split; [| split].
  - intros Hrows. rewrite careers_lookup. fold rows. rewrite Hrows. reflexivity.
  - intros Hrows. rewrite careers_lookup. fold rows.
    destruct (fold_merge_spec today rows (dated_stints_dated (Db.view c) player) Hrows)
      as (g & Hg & Hcount & Hmin & Hmax).
    rewrite Hg. simpl.
    exists (Careers.career_row now_utc g), (Careers.g_start g), (Careers.g_end g).
    repeat split; try assumption; try apply Hmin; try apply Hmax.
  - intros Hfaker Htoday. rewrite careers_lookup.
    unfold Careers.dated_stints. rewrite Hfaker. simpl.
    unfold Careers.career_row, Careers.text_max. simpl.
    unfold Discover.str_le in Htoday. rewrite Htoday. reflexivity.
Qed.

Lemma C7_career_rebuild_witness :
  exists row start end_,
    Db.player_careers
      (Db.view (fst (Careers.run Demo.env (Db.connect Demo.faker_tables) Demo.world)))
      !! "Faker" = Some row /\
    Db.career_start row = Some start /\
    earliest_joined start (Careers.dated_stints Demo.faker_tables "Faker") /\
    Db.career_end row = Some end_ /\
    latest_left "2024-01-01" end_ (Careers.dated_stints Demo.faker_tables "Faker") /\
    Db.career_days row = Careers.days_between start end_ /\
    Db.stints_count row = 2%Z.
Proof.
  apply (proj1 (proj2 (proj2
           (C7_career_rebuild Demo.env (Db.connect Demo.faker_tables) Demo.world "Faker")))).
  vm_compute. discriminate.
Defined.

(** The example of the specification, aggregated on 2024-01-01. *)
Example career_of_faker :
  Db.player_careers
    (Db.view (fst (Careers.run Demo.env (Db.connect Demo.faker_tables) Demo.world)))
    !! "Faker"
  = Some {| Db.career_start := Some "2013-02-06";
            Db.career_end := Some "2024-01-01";
            Db.career_days := Some 3981%Z;
            Db.stints_count := 2;
            Db.career_updated_utc := "2024-01-01 00:00:00" |}.
Proof. vm_compute. reflexivity. Qed.

(** C7 as stated fails on the count: a stint whose [joined] is NULL is one
    of the player's stints and is not counted. *)
Lemma C7_undated_stint_not_counted :
  let after :=
    Db.view (fst (Careers.run Demo.env (Db.connect Demo.mixed_tables) Demo.world)) in
  Careers.dated_stints Demo.mixed_tables "Faker" <> [] /\
  Db.stints_count <$> Db.player_careers after !! "Faker" = Some 1%Z /\
  Db.stints_count <$> Db.player_careers after !! "Faker"
  <> Some (Z.of_nat (length (Careers.stints_of Demo.mixed_tables "Faker"))).
Proof.
  split; [vm_compute; discriminate |].
  split; [vm_compute; reflexivity |].
  vm_compute. discriminate.
Qed.

(** ** The player stage *)

Section PlayersFacts.

Local Open Scope list_scope.

Variable E : Env.
Variable mw : Mw.MediaWikiClient.
Variable cache_dir : string.

Lemma str_nonempty (z : Z) : Py.str z <> EmptyString.
Proof.
  intros H. pose proof (int_str z) as Hz. rewrite H in Hz. discriminate Hz.
Qed.

Lemma str_inj (a b : Z) : Py.str a = Py.str b -> a = b.
Proof.
  intros H. pose proof (int_str a) as Ha. rewrite H, int_str in Ha. congruence.
Qed.

Lemma get_checkpoint_set (c : Db.Conn) (key value : string) (w : World) :
  Db.get_checkpoint (fst (Db.set_checkpoint E c key value w)) key = Some value.
Proof.
  unfold Db.set_checkpoint, Db.get_checkpoint. simpl.
  rewrite lookup_insert_eq. reflexivity.
Qed.

(** [set_checkpoint] writes the checkpoint row and nothing else, commits,
    and takes one clock reading. *)
Lemma set_checkpoint_spec (c : Db.Conn) (key value : string) (w : World) :
  let c' := fst (Db.set_checkpoint E c key value w) in
  let w' := snd (Db.set_checkpoint E c key value w) in
  Db.players (Db.view c') = Db.players (Db.view c) /\
  Db.team_stints (Db.view c') = Db.team_stints (Db.view c) /\
  Db.durable c' = Db.view c' /\
  Db.commits c' = Db.commits c ++ [Db.view c'] /\
  sent w' = sent w /\ log w' = log w /\ files w' = files w.
Proof. repeat split. Qed.

Lemma cursor_set_checkpoint (c : Db.Conn) (k : Z) (w : World) :
  cursor (Db.view (fst (Db.set_checkpoint E c Players.done_key (Py.str k) w))) = Some k.
Proof.
  unfold cursor, Db.set_checkpoint. simpl.
  rewrite lookup_insert_eq. simpl.
  pose proof (str_nonempty k) as Hne.
  destruct (Py.str k) eqn:Hs; [congruence |].
  simpl. rewrite <- Hs. apply int_str.
Qed.

Lemma grows_refl (t : Db.Tables) : grows t t.
Proof. split; auto. Qed.

Lemma grows_trans (t1 t2 t3 : Db.Tables) : grows t1 t2 -> grows t2 t3 -> grows t1 t3.
Proof. intros [H1 H2] [H3 H4]. split; auto. Qed.

Lemma stored_in_grows (t t' : Db.Tables) (title : string) (stints : list Scrape.Stint) :
  grows t t' -> stored_in t title stints -> stored_in t' title stints.
Proof.
  intros [Hp Hs] [Hplayer Hstints]. split; [auto |].
  intros s Hin. destruct (Hstints s Hin) as (r & Hr & Hkey).
  exists r. split; [apply Hs; exact Hr | exact Hkey].
Qed.

Lemma grows_set_checkpoint (c : Db.Conn) (key value : string) (w : World) :
  grows (Db.view c) (Db.view (fst (Db.set_checkpoint E c key value w))).
Proof. split; auto. Qed.

Lemma grows_upsert_player (title url now : string) (p : Scrape.Profile) (t : Db.Tables) :
  grows t (Db.upsert_player title url p now t).
Proof.
  split; [| auto]. intros title' H. simpl.
  destruct (decide (title = title')) as [-> | Hne].
  - rewrite lookup_insert_eq. eauto.
  - rewrite lookup_insert_ne by exact Hne. exact H.
Qed.

Lemma grows_insert_stint (title now : string) (s : Scrape.Stint) (t : Db.Tables) :
  grows t (Db.insert_or_ignore_stint title s now t).
Proof.
  unfold Db.insert_or_ignore_stint.
  destruct (existsb _ _); [split; auto |].
  split; [auto |]. intros r Hr. simpl. apply elem_of_app. left. exact Hr.
Qed.

Lemma unique_eq_true (a b : option string) : Db.unique_eq a b = true -> a = b.
Proof.
  destruct a, b; simpl; try discriminate.
  intros H. apply String.eqb_eq in H. congruence.
Qed.

Lemma collides_key (title : string) (s : Scrape.Stint) (r : Db.StintRow) :
  Db.collides title s r = true -> Db.key_of r = Db.key_of_stint title s.
Proof.
  unfold Db.collides. intros H.
  repeat (apply andb_true_iff in H; destruct H as [H ?]).
  apply String.eqb_eq in H.
  unfold Db.key_of, Db.key_of_stint.
  repeat match goal with
         | Hu : Db.unique_eq _ _ = true |- _ => apply unique_eq_true in Hu; rewrite Hu; clear Hu
         end.
  rewrite H. reflexivity.
Qed.

(** After [INSERT OR IGNORE], a row with the tuple's key is in the table. *)
Lemma insert_stint_present (title now : string) (s : Scrape.Stint) (t : Db.Tables) :
  exists r, r ∈ Db.team_stints (Db.insert_or_ignore_stint title s now t) /\
            Db.key_of r = Db.key_of_stint title s.
Proof.
  unfold Db.insert_or_ignore_stint.
  destruct (existsb (Db.collides title s) (Db.team_stints t)) eqn:Hex.
  - apply existsb_exists in Hex. destruct Hex as (r & Hin & Hr).
    exists r. split; [apply list_elem_of_In; exact Hin | apply collides_key; exact Hr].
  - eexists. split.
    + simpl. apply elem_of_app. right. apply list_elem_of_singleton. reflexivity.
    + reflexivity.
Qed.

Lemma insert_all_spec (title now : string) (stints : list Scrape.Stint) :
  forall c : Db.Conn,
    grows (Db.view c) (Db.view (insert_all title now stints c)) /\
    Db.checkpoints (Db.view (insert_all title now stints c)) = Db.checkpoints (Db.view c) /\
    Db.commits (insert_all title now stints c) = Db.commits c /\
    Db.durable (insert_all title now stints c) = Db.durable c /\
    (forall s, s ∈ stints ->
       exists r, r ∈ Db.team_stints (Db.view (insert_all title now stints c)) /\
                 Db.key_of r = Db.key_of_stint title s).
Proof.
  induction stints as [|s0 stints IH]; intros c.
  - simpl. repeat split; auto. intros s Hin. inversion Hin.
  - simpl.
    destruct (IH (Db.execute (Db.insert_or_ignore_stint title s0 now) c))
      as (Hgrow & Hcp & Hcommits & Hdur & Hkeys).
    fold (insert_all title now stints (Db.execute (Db.insert_or_ignore_stint title s0 now) c)).
    split; [| split; [| split; [| split]]].
    + eapply grows_trans; [| exact Hgrow]. apply grows_insert_stint.
    + rewrite Hcp. simpl. unfold Db.insert_or_ignore_stint.
      destruct (existsb _ _); reflexivity.
    + rewrite Hcommits. reflexivity.
    + rewrite Hdur. reflexivity.
    + intros s Hin. apply elem_of_cons in Hin. destruct Hin as [-> | Hin].
      * destruct (insert_stint_present title now s0 (Db.view c)) as (r & Hr & Hkey).
        exists r. split; [| exact Hkey].
        destruct Hgrow as [_ Hrows]. apply Hrows. exact Hr.
      * apply Hkeys. exact Hin.
Qed.

(** [store] leaves the item's rows in the view, touches no checkpoint and
    commits nothing. *)
Lemma store_spec (title url now : string) (p : Scrape.Profile)
    (stints : list Scrape.Stint) (c : Db.Conn) :
  let c' := Players.store title url p stints now c in
  grows (Db.view c) (Db.view c') /\
  Db.checkpoints (Db.view c') = Db.checkpoints (Db.view c) /\
  Db.commits c' = Db.commits c /\
  Db.durable c' = Db.durable c /\
  stored_in (Db.view c') title stints.
Proof.
  unfold Players.store.
  set (c0 := Db.execute (Db.upsert_player title url p now) c).
  fold (insert_all title now stints c0).
  destruct (insert_all_spec title now stints c0) as (Hgrow & Hcp & Hcommits & Hdur & Hkeys).
  simpl. split; [| split; [| split; [| split]]].
  - eapply grows_trans; [| exact Hgrow]. apply grows_upsert_player.
  - rewrite Hcp. reflexivity.
  - rewrite Hcommits. reflexivity.
  - rewrite Hdur. reflexivity.
  - split; [| exact Hkeys].
    destruct Hgrow as [Hplayers _]. apply Hplayers.
    unfold c0. simpl. rewrite lookup_insert_eq. eauto.
Qed.

End PlayersFacts.

Section PlayersStage.

Local Open Scope list_scope.

Variable E : Env.
Variable mw : Mw.MediaWikiClient.
Variable cache_dir : string.

Lemma cursor_checkpoints (t t' : Db.Tables) :
  Db.checkpoints t' = Db.checkpoints t -> cursor t' = cursor t.
Proof. unfold cursor. intros ->. reflexivity. Qed.

Lemma step_pass_spec (titles : list string) (i : Z) (w : World) (c : Db.Conn) :
  pass_spec i c
    (fst (fst (Players.step E mw cache_dir titles i w c)))
    (snd (Players.step E mw cache_dir titles i w c)).
Proof.
  unfold Players.step.
  destruct (Py.getitem titles i) as [title | e]; [| reflexivity].
  destruct (Players.scrape E mw title (Mw.page_url mw title) cache_dir w)
    as [[[profile stints] | e] w1].
  - (* stored *)
    simpl.
    set (now := utc_now_str E (time_time E (ticks w1))).
    set (c1 := Players.store title (Mw.page_url mw title) profile stints now c).
    destruct (store_spec title (Mw.page_url mw title) now profile stints c)
      as (Hgrow & Hcp & Hcommits & _ & Hstored).
    fold c1 in Hgrow, Hcp, Hcommits, Hstored.
    exists (Db.view c1). simpl.
    split; [rewrite Hcommits, <- app_assoc; reflexivity |].
    split; [apply cursor_checkpoints; exact Hcp |].
    split; [exact Hstored |].
    split; [exact Hgrow |].
    split; [split; auto |].
    split; [| reflexivity].
    apply (cursor_set_checkpoint E (Db.commit c1) (i + 1) (W.tick w1)).
  - destruct (is_RateLimited e); simpl.
    + repeat split. apply (cursor_set_checkpoint E c i w1).
    + repeat split. apply (cursor_set_checkpoint E c (i + 1) w1).
Qed.

Lemma consistent_cons (i : Z) (v : Players.verdict) (vs : list Players.verdict)
    (t : Db.Tables) :
  match v with
  | Players.Stored title _ stints => stored_in t title stints
  | Players.Skipped _ => True
  | _ => False
  end ->
  consistent (i + 1) vs t ->
  consistent i (v :: vs) t.
Proof.
  intros Hv Hvs k j Hk Hj.
  destruct (decide (j = i)) as [-> | Hne].
  - replace (Z.to_nat (i - i)) with 0%nat by lia. simpl. exact Hv.
  - replace (Z.to_nat (j - i)) with (S (Z.to_nat (j - (i + 1)))) by lia. simpl.
    apply (Hvs k j Hk). lia.
Qed.

Lemma consistent_at_cursor (i : Z) (vs : list Players.verdict) (t : Db.Tables) :
  cursor t = Some i -> consistent i vs t.
Proof. intros Hc k j Hk Hj. rewrite Hc in Hk. injection Hk as <-. lia. Qed.

Lemma last_cons {A : Type} (l : list A) :
  forall x d : A, List.last (x :: l) d = List.last l x.
Proof.
  induction l as [|y l IH]; intros x d; [reflexivity |].
  change (List.last (x :: y :: l) d) with (List.last (y :: l) d).
  rewrite (IH y d), (IH y x). reflexivity.
Qed.

(** The invariant of the loop: every state it makes durable has the rows
    that were in the view when it started, and is consistent with the
    verdicts of its passes; and what a crash would leave afterwards is the
    last of these states (or, when the loop committed nothing, what was
    durable before). *)
Lemma loop_consistent (titles : list string) (n : nat) :
  forall (i : Z) (w : World) (c : Db.Conn),
    cursor (Db.view c) = Some i ->
    exists news,
      Db.commits (snd (Players.loop E mw cache_dir titles n i w c)) = Db.commits c ++ news /\
      Db.crash (snd (Players.loop E mw cache_dir titles n i w c))
      = List.last news (Db.durable c) /\
      Forall (fun d => grows (Db.view c) d /\
                       consistent i (Players.journal E mw cache_dir titles n i w c) d) news.
Proof.
  induction n as [|n IH]; intros i w c Hcur.
  - exists []. simpl. rewrite app_nil_r. repeat split. constructor.
  - simpl.
    pose proof (step_pass_spec titles i w c) as Hpass.
    destruct (Players.step E mw cache_dir titles i w c) as [[v w1] c1].
    simpl in Hpass.
    destruct v as [title p stints | e | e | e]; simpl in Hpass.
    + destruct Hpass as (d1 & Hcommits & Hcur1 & Hstored & Hg1 & Hg2 & Hcur2 & Hdur).
      destruct (IH (i + 1)%Z w1 c1 Hcur2) as (news & Hnews & Hcrash & Hall).
      exists (d1 :: Db.view c1 :: news). split; [| split].
      * rewrite Hnews, Hcommits, <- app_assoc. reflexivity.
      * rewrite Hcrash, !last_cons. unfold Db.crash in *. rewrite Hdur. reflexivity.
      * constructor; [| constructor].
        -- split; [exact Hg1 |].
           apply consistent_at_cursor. rewrite Hcur1. exact Hcur.
        -- split; [eapply grows_trans; eassumption |].
           apply consistent_cons.
           ++ eapply stored_in_grows; eassumption.
           ++ apply consistent_at_cursor. exact Hcur2.
        -- eapply Forall_impl; [exact Hall |].
           intros d [Hgd Hcd]. simpl. split.
           ++ eapply grows_trans; [| exact Hgd]. eapply grows_trans; eassumption.
           ++ apply consistent_cons; [| exact Hcd].
              eapply stored_in_grows; [exact Hgd |].
              eapply stored_in_grows; eassumption.
    + destruct Hpass as (Hcommits & Hp & Hs & Hcur2 & Hdur).
      assert (Hg : grows (Db.view c) (Db.view c1)).
      { split; [rewrite Hp | rewrite Hs]; auto. }
      destruct (IH (i + 1)%Z w1 c1 Hcur2) as (news & Hnews & Hcrash & Hall).
      exists (Db.view c1 :: news). split; [| split].
      * rewrite Hnews, Hcommits, <- app_assoc. reflexivity.
      * rewrite Hcrash, last_cons. unfold Db.crash in *. rewrite Hdur. reflexivity.
      * constructor.
        -- split; [exact Hg |].
           apply consistent_cons; [exact I |].
           apply consistent_at_cursor. exact Hcur2.
        -- eapply Forall_impl; [exact Hall |].
           intros d [Hgd Hcd]. simpl. split.
           ++ eapply grows_trans; eassumption.
           ++ apply consistent_cons; [exact I | exact Hcd].
    + destruct Hpass as (Hcommits & Hp & Hs & Hcur2 & Hdur).
      exists [Db.view c1]. simpl. split; [exact Hcommits |].
      split; [exact Hdur |].
      constructor; [| constructor]. split.
      * split; [rewrite Hp | rewrite Hs]; auto.
      * apply consistent_at_cursor. exact Hcur2.
    + subst c1. exists []. simpl. rewrite app_nil_r. repeat split. constructor.
Qed.

(** [stage] starts the loop at the cursor of the view, when it parses. *)
(** The verdict of a pass is the one its [try] statement dictates. *)
Lemma step_verdict (titles : list string) (i : Z) (w : World) (c : Db.Conn) :
  fst (fst (Players.step E mw cache_dir titles i w c))
  = verdict_of E mw cache_dir titles i w.
Proof.
  unfold Players.step, verdict_of.
  destruct (Py.getitem titles i) as [title | e]; [| reflexivity].
  destruct (Players.scrape E mw title (Mw.page_url mw title) cache_dir w)
    as [[[profile stints] | e] w1]; [reflexivity |].
  destruct (is_RateLimited e); reflexivity.
Qed.

Lemma journal_faithful (titles : list string) (n : nat) :
  forall (i : Z) (w : World) (c : Db.Conn) (k : nat) (v : Players.verdict),
    Players.journal E mw cache_dir titles n i w c !! k = Some v ->
    exists wk,
      Players.starts E mw cache_dir titles n i w c !! k = Some wk /\
      v = verdict_of E mw cache_dir titles (i + Z.of_nat k) wk.
Proof.
  induction n as [|n IH]; intros i w c k v; simpl; [discriminate |].
  pose proof (step_verdict titles i w c) as Hv.
  destruct (Players.step E mw cache_dir titles i w c) as [[v0 w1] c1].
  simpl in Hv.
  assert (Hhere : Some v0 = Some v ->
            exists wk, Some w = Some wk /\
                       v = verdict_of E mw cache_dir titles (i + Z.of_nat 0) wk).
  { intros [= <-]. exists w. split; [reflexivity |]. rewrite Z.add_0_r. exact Hv. }
  assert (Hlater : forall k',
            Players.journal E mw cache_dir titles n (i + 1) w1 c1 !! k' = Some v ->
            exists wk,
              Players.starts E mw cache_dir titles n (i + 1) w1 c1 !! k' = Some wk /\
              v = verdict_of E mw cache_dir titles (i + Z.of_nat (S k')) wk).
  { intros k' Hk'. destruct (IH (i + 1)%Z w1 c1 k' v Hk') as (wk & Hw & Hvk).
    exists wk. split; [exact Hw |]. rewrite Hvk. f_equal. lia. }
  destruct v0; destruct k as [|k']; simpl;
    first [exact Hhere | apply Hlater | destruct k'; discriminate].
Qed.

Lemma consistent_settled (titles : list string) (n : nat) (i : Z) (w : World)
    (c : Db.Conn) (d : Db.Tables) :
  consistent i (Players.journal E mw cache_dir titles n i w c) d ->
  settled E mw cache_dir titles i (Players.starts E mw cache_dir titles n i w c) d.
Proof.
  intros Hcons k j Hk Hj. specialize (Hcons k j Hk Hj).
  destruct (Players.journal E mw cache_dir titles n i w c !! Z.to_nat (j - i))
    as [v |] eqn:Hjournal; [| contradiction].
  destruct (journal_faithful titles n i w c _ v Hjournal) as (wj & Hw & Hv).
  exists wj. split; [exact Hw |].
  intros title p stints w1 Hget Hscrape.
  replace (i + Z.of_nat (Z.to_nat (j - i)))%Z with j in Hv by lia.
  unfold verdict_of in Hv. rewrite Hget, Hscrape in Hv. subst v. exact Hcons.
Qed.

Lemma stage_resumes_at_cursor (titles : list string) (w : World) (c : Db.Conn) :
  Players.stage E mw cache_dir titles w c
  = match cursor (Db.view c) with
    | None => (Players.Crashed ValueError, w, c)
    | Some start =>
        Players.loop E mw cache_dir titles
          (Z.to_nat (Z.of_nat (length titles) - start)) start w c
    end.
Proof. reflexivity. Qed.

End PlayersStage.

Section PlayersClaims.

Local Open Scope list_scope.

Variable E : Env.
Variable mw : Mw.MediaWikiClient.
Variable cache_dir : string.

(** C2. When obtaining the content of the item at index [i] raises
    [RateLimited], the stage writes the checkpoint [str(i)], commits it and
    returns: nothing else happens in that run (no further request, no sleep,
    no row written), and the cursor a later run reads is [i], not [i + 1]. *)
Theorem C2_rate_limit_keeps_cursor (titles : list string) (n : nat) (i : Z)
    (title : string) (e : exn) (w w1 : World) (c : Db.Conn) :
  Py.getitem titles i = Return title ->
  Players.scrape E mw title (Mw.page_url mw title) cache_dir w = (Raise e, w1) ->
  is_RateLimited e = true ->
  let c' := fst (Db.set_checkpoint E c Players.done_key (Py.str i) w1) in
  let w' := snd (Db.set_checkpoint E c Players.done_key (Py.str i) w1) in
  Players.loop E mw cache_dir titles (S n) i w c = (Players.Aborted, w', c') /\
  Db.get_checkpoint c' Players.done_key = Some (Py.str i) /\
  cursor (Db.durable c') = Some i /\
  Py.str i <> Py.str (i + 1) /\
  sent w' = sent w1 /\ log w' = log w1 /\
  Db.players (Db.view c') = Db.players (Db.view c) /\
  Db.team_stints (Db.view c') = Db.team_stints (Db.view c).
Proof.
  intros Htitle Hscrape Hrl c' w'.
  split.
  { simpl. unfold Players.step. rewrite Htitle, Hscrape, Hrl. reflexivity. }
  split; [apply get_checkpoint_set |].
  split; [apply (cursor_set_checkpoint E c i w1) |].
  split; [intros H; apply str_inj in H; lia |].
  repeat split.
Qed.


(** C5. A pass whose fetch and interpretation succeed stores the item and
    commits twice: first the item's rows, with the cursor still at [i],
    then the cursor [i + 1].  Hence every state the loop makes durable is
    consistent: each index below its cursor had its pass, and if that pass
    processed the item successfully, the item's player and stint rows are
    in that state (the other passes below the cursor are those an
    exception skipped).  These are the states a crash can leave: after the
    loop it is the last of them. *)
Theorem C5_checkpoint_after_commit (titles : list string) (n : nat) (i : Z)
    (w : World) (c : Db.Conn) :
  cursor (Db.view c) = Some i ->
  (forall title p stints w1 c1,
     Players.step E mw cache_dir titles i w c = (Players.Stored title p stints, w1, c1) ->
     exists d1 d2,
       Db.commits c1 = Db.commits c ++ [d1; d2] /\
       cursor d1 = Some i /\ stored_in d1 title stints /\
       cursor d2 = Some (i + 1)%Z /\ stored_in d2 title stints /\
       Db.durable c1 = d2) /\
  (forall title p stints w1,
     Py.getitem titles i = Return title ->
     Players.scrape E mw title (Mw.page_url mw title) cache_dir w
     = (Return (p, stints), w1) ->
     exists w' c1 d1 d2,
       Players.step E mw cache_dir titles i w c = (Players.Stored title p stints, w', c1) /\
       Db.commits c1 = Db.commits c ++ [d1; d2] /\
       cursor d1 = Some i /\ stored_in d1 title stints /\
       cursor d2 = Some (i + 1)%Z /\ stored_in d2 title stints /\
       Db.durable c1 = d2) /\
  (exists news,
     Db.commits (snd (Players.loop E mw cache_dir titles n i w c)) = Db.commits c ++ news /\
     Db.crash (snd (Players.loop E mw cache_dir titles n i w c))
     = List.last news (Db.durable c) /\
     Forall (consistent i (Players.journal E mw cache_dir titles n i w c)) news /\
     Forall (settled E mw cache_dir titles i
               (Players.starts E mw cache_dir titles n i w c)) news).
Proof.
  intros Hcur.
  assert (Hstored : forall title p stints w1 c1,
            Players.step E mw cache_dir titles i w c
            = (Players.Stored title p stints, w1, c1) ->
            exists d1 d2,
              Db.commits c1 = Db.commits c ++ [d1; d2] /\
              cursor d1 = Some i /\ stored_in d1 title stints /\
              cursor d2 = Some (i + 1)%Z /\ stored_in d2 title stints /\
              Db.durable c1 = d2).
  { intros title p stints w1 c1 Hstep.
    pose proof (step_pass_spec E mw cache_dir titles i w c) as Hpass.
    rewrite Hstep in Hpass. simpl in Hpass.
    destruct Hpass as (d1 & Hcommits & Hcur1 & Hstored & _ & Hg & Hcur2 & Hdur).
    exists d1, (Db.view c1).
    split; [exact Hcommits |].
    split; [rewrite Hcur1; exact Hcur |].
    split; [exact Hstored |].
    split; [exact Hcur2 |].
    split; [eapply stored_in_grows; eassumption | exact Hdur]. }
  split; [exact Hstored |]. split.
  - intros title p stints w1 Hget Hscrape.
    pose proof (step_verdict E mw cache_dir titles i w c) as Hv.
    unfold verdict_of in Hv. rewrite Hget, Hscrape in Hv.
    destruct (Players.step E mw cache_dir titles i w c) as [[v w'] c1] eqn:Hstep.
    simpl in Hv. subst v.
    destruct (Hstored title p stints w' c1 eq_refl) as (d1 & d2 & H).
    exists w', c1, d1, d2. split; [reflexivity | exact H].
  - destruct (loop_consistent E mw cache_dir titles n i w c Hcur)
      as (news & Hnews & Hcrash & Hall).
    exists news. split; [exact Hnews |]. split; [exact Hcrash |]. split.
    + eapply Forall_impl; [exact Hall |]. intros d [_ Hd]. exact Hd.
    + eapply Forall_impl; [exact Hall |]. intros d [_ Hd].
      apply consistent_settled. exact Hd.
Qed.

End PlayersClaims.

Lemma C2_rate_limit_keeps_cursor_witness :
  Players.scrape Demo.env Demo.mw "B" (Mw.page_url Demo.mw "B") Demo.cache_dir Demo.world
  = (Raise Demo.limited_B, Demo.after_scrape "B") /\
  fst (fst (Players.loop Demo.env Demo.mw Demo.cache_dir ["A"; "B"] 1 1 Demo.world
              (Db.connect Db.empty))) = Players.Aborted /\
  Db.get_checkpoint
    (snd (Players.loop Demo.env Demo.mw Demo.cache_dir ["A"; "B"] 1 1 Demo.world
            (Db.connect Db.empty))) Players.done_key = Some "1".
Proof.
  assert (Hs : Players.scrape Demo.env Demo.mw "B" (Mw.page_url Demo.mw "B")
                 Demo.cache_dir Demo.world
               = (Raise Demo.limited_B, Demo.after_scrape "B"))
    by (vm_compute; reflexivity).
  destruct (C2_rate_limit_keeps_cursor Demo.env Demo.mw Demo.cache_dir ["A"; "B"] 0 1 "B"
              Demo.limited_B Demo.world (Demo.after_scrape "B") (Db.connect Db.empty)
              eq_refl Hs eq_refl) as (Hloop & Hcp & _).
  split; [exact Hs |]. rewrite Hloop. split; [reflexivity | exact Hcp].
Defined.


Lemma C5_checkpoint_after_commit_witness :
  (exists w' c1 d1 d2,
     Players.step Demo.env Demo.mw Demo.cache_dir ["A"; "M"; "B"] 0 Demo.world
       (Db.connect Db.empty)
     = (Players.Stored "A" {| Scrape.display_name := Some "<h1>A</h1>";
                              Scrape.country := None; Scrape.role := None |}
          Demo.history, w', c1) /\
     Db.commits c1 = [d1; d2] /\
     cursor d1 = Some 0%Z /\ stored_in d1 "A" Demo.history /\
     cursor d2 = Some 1%Z /\ stored_in d2 "A" Demo.history /\
     Db.durable c1 = d2) /\
  exists news,
    Db.commits (snd (Players.loop Demo.env Demo.mw Demo.cache_dir ["A"; "M"; "B"] 3 0
                       Demo.world (Db.connect Db.empty))) = news /\
    Db.crash (snd (Players.loop Demo.env Demo.mw Demo.cache_dir ["A"; "M"; "B"] 3 0
                     Demo.world (Db.connect Db.empty)))
    = List.last news Db.empty /\
    Forall (consistent 0 (Players.journal Demo.env Demo.mw Demo.cache_dir ["A"; "M"; "B"] 3 0
                            Demo.world (Db.connect Db.empty))) news /\
    Forall (settled Demo.env Demo.mw Demo.cache_dir ["A"; "M"; "B"] 0
              (Players.starts Demo.env Demo.mw Demo.cache_dir ["A"; "M"; "B"] 3 0
                 Demo.world (Db.connect Db.empty))) news.
Proof.
  destruct (C5_checkpoint_after_commit Demo.env Demo.mw Demo.cache_dir
              ["A"; "M"; "B"] 3 0 Demo.world (Db.connect Db.empty) eq_refl)
    as (_ & Hpass & Hloop).
  split; [| exact Hloop].
  apply (Hpass "A" {| Scrape.display_name := Some "<h1>A</h1>";
                      Scrape.country := None; Scrape.role := None |}
           Demo.history
           (snd (Players.scrape Demo.env Demo.mw "A" (Mw.page_url Demo.mw "A")
                   Demo.cache_dir Demo.world))).
  - reflexivity.
  - vm_compute. reflexivity.
Defined.

(** ** Truncation to [max_players] *)

Section Truncation.

Local Open Scope list_scope.

Variable E : Env.
Variable mw : Mw.MediaWikiClient.

Lemma getitem_elem {A : Type} (l : list A) (i : Z) (x : A) :
  Py.getitem l i = Return x -> x ∈ l.
Proof.
  unfold Py.getitem.
  destruct (_ <? 0)%Z; [discriminate |].
  destruct (l !! _) as [y |] eqn:Hy; [| discriminate].
  intros [= <-]. eapply list_elem_of_lookup_2. exact Hy.
Qed.

Lemma insert_stint_players (title now : string) (s : Scrape.Stint) (t : Db.Tables) :
  Db.players (Db.insert_or_ignore_stint title s now t) = Db.players t.
Proof. unfold Db.insert_or_ignore_stint. destruct (existsb _ _); reflexivity. Qed.

Lemma store_players_dom (title url now : string) (p : Scrape.Profile)
    (stints : list Scrape.Stint) (c : Db.Conn) :
  dom (Db.players (Db.view (Players.store title url p stints now c)))
  = {[ title ]} ∪ dom (Db.players (Db.view c)).
Proof.
  unfold Players.store.
  set (c0 := Db.execute (Db.upsert_player title url p now) c).
  assert (Hc0 : dom (Db.players (Db.view c0)) = {[ title ]} ∪ dom (Db.players (Db.view c))).
  { unfold c0. simpl. apply dom_insert_L. }
  rewrite <- Hc0. clear Hc0. generalize c0. clear c0.
  induction stints as [|s stints IH]; intros c0; simpl; [reflexivity |].
  rewrite IH. simpl. rewrite insert_stint_players. reflexivity.
Qed.

(** A pass adds at most the player of a work item. *)
Lemma step_players_dom (cache_dir : string) (titles : list string) (i : Z)
    (w : World) (c : Db.Conn) :
  dom (Db.players (Db.view (snd (Players.step E mw cache_dir titles i w c))))
  ⊆ dom (Db.players (Db.view c)) ∪ list_to_set titles.
Proof.
  unfold Players.step.
  destruct (Py.getitem titles i) as [title | e] eqn:Htitle; [| simpl; set_solver].
  apply getitem_elem in Htitle.
  destruct (Players.scrape E mw title (Mw.page_url mw title) cache_dir w)
    as [[[profile stints] | e] w1].
  - simpl. rewrite store_players_dom.
    assert (title ∈ (list_to_set titles : gset string)) by (apply elem_of_list_to_set; exact Htitle).
    set_solver.
  - destruct (is_RateLimited e); simpl; set_solver.
Qed.

Lemma loop_players_dom (cache_dir : string) (titles : list string) (n : nat) :
  forall (i : Z) (w : World) (c : Db.Conn),
    dom (Db.players (Db.view (snd (Players.loop E mw cache_dir titles n i w c))))
    ⊆ dom (Db.players (Db.view c)) ∪ list_to_set titles.
Proof.
  induction n as [|n IH]; intros i w c; simpl; [set_solver |].
  pose proof (step_players_dom cache_dir titles i w c) as Hstep.
  destruct (Players.step E mw cache_dir titles i w c) as [[v w1] c1].
  simpl in Hstep.
  destruct v; simpl; try exact Hstep;
    (etransitivity; [apply IH |]; set_solver).
Qed.

Lemma stage_players_dom (cache_dir : string) (titles : list string)
    (w : World) (c : Db.Conn) :
  dom (Db.players (Db.view (snd (Players.stage E mw cache_dir titles w c))))
  ⊆ dom (Db.players (Db.view c)) ∪ list_to_set titles.
Proof.
  unfold Players.stage. destruct (Py.int _); [apply loop_players_dom | simpl; set_solver].
Qed.

(** C9. With [max_players] greater than 0 the stage works on the first
    [max_players] discovered titles only: the run is the resume-and-loop on
    that prefix, and every player it adds is one of them.  With
    [max_players] equal to 0 it works on the whole discovered list; 0 is
    what [load_config] fills in, and what [run] assumes, for an absent
    key. *)
Theorem C9_max_players_truncates (c : Db.Conn) (cfg : Config.Cfg) (w w1 : World)
    (index_html : string) :
  let index_page := default "Portal:Players" (Config.player_index_page cfg) in
  let dir := default ".cache_html" (Config.cache_dir cfg) in
  let m := default 0%Z (Config.max_players cfg) in
  let discovered := Discover.discover_player_titles_from_html E index_html in
  Players._fetch_index_html E mw index_page dir w = (Return index_html, w1) ->
  ((0 < m)%Z ->
   Players.run E c mw cfg w = Players.stage E mw dir (take (Z.to_nat m) discovered) w1 c /\
   (Z.of_nat (length (take (Z.to_nat m) discovered)) <= m)%Z /\
   dom (Db.players (Db.view (snd (Players.run E c mw cfg w))))
   ⊆ dom (Db.players (Db.view c)) ∪ list_to_set (take (Z.to_nat m) discovered)) /\
  (m = 0%Z -> Players.run E c mw cfg w = Players.stage E mw dir discovered w1 c) /\
  (forall file : Config.Cfg,
     Config.max_players file = None ->
     Config.max_players (Config.load_config file) = Some 0%Z) /\
  (Config.max_players cfg = None -> m = 0%Z).
Proof.
  intros index_page dir m discovered Hindex.
  assert (Hrun : Players.run E c mw cfg w
                 = Players.stage E mw dir (Players.work_items m discovered) w1 c).
  { unfold Players.run. fold index_page dir m. rewrite Hindex. reflexivity. }
  split; [| split; [| split]].
  - intros Hm.
    assert (Hwork : Players.work_items m discovered = take (Z.to_nat m) discovered).
    { unfold Players.work_items. destruct (Z.ltb_spec 0 m); [reflexivity | lia]. }
    rewrite Hrun, Hwork. split; [reflexivity |]. split.
    + rewrite length_take. lia.
    + apply stage_players_dom.
  - intros Hm. rewrite Hrun, Hm. reflexivity.
  - intros file Hfile. simpl. rewrite Hfile. reflexivity.
  - intros Hnone. unfold m. rewrite Hnone. reflexivity.
Qed.

End Truncation.

Lemma C9_max_players_truncates_witness :
  Discover.discover_player_titles_from_html Demo.env "<html>portal</html>" = ["A"; "B"; "C"] /\
  Players.run Demo.env (Db.connect Db.empty) Demo.mw (Demo.cfg 2) Demo.world
  = Players.stage Demo.env Demo.mw ".cache_html" ["A"; "B"]
      (snd (Players._fetch_index_html Demo.env Demo.mw "Portal:Players" ".cache_html"
              Demo.world))
      (Db.connect Db.empty).
Proof.
  split; [vm_compute; reflexivity |].
  apply (proj1 (proj1 (C9_max_players_truncates Demo.env Demo.mw (Db.connect Db.empty)
                         (Demo.cfg 2) Demo.world
                         (snd (Players._fetch_index_html Demo.env Demo.mw "Portal:Players"
                                 ".cache_html" Demo.world))
                         "<html>portal</html>" ltac:(vm_compute; reflexivity))
                  ltac:(reflexivity))).
Defined.

(** ** The end-to-end scenarios of the specification *)

(** Discovery yields A, B, C; [max_players] 2 keeps A and B; the fetch of B
    is rate limited: the run stops with checkpoint 1, A stored, B not. *)
Example scenario_rate_limited_on_B :
  let r := Players.run Demo.env (Db.connect Db.empty) Demo.mw (Demo.cfg 2) Demo.world in
  fst (fst r) = Players.Aborted /\
  Db.get_checkpoint (snd r) Players.done_key = Some "1" /\
  dom (Db.players (Db.durable (snd r))) = {[ "A" ]}.
Proof. vm_compute. repeat split. Qed.

(** The page of M cannot be interpreted (empty document) and B is rate
    limited: M is skipped, the loop goes on to B and stops there with
    checkpoint 1; no player is stored. *)
Example scenario_malformed_then_limited :
  let r := Players.loop Demo.env Demo.mw Demo.cache_dir ["M"; "B"] 2 0 Demo.world
             (Db.connect Db.empty) in
  Players.journal Demo.env Demo.mw Demo.cache_dir ["M"; "B"] 2 0 Demo.world
    (Db.connect Db.empty)
  = [Players.Skipped Demo.empty_M; Players.Limited Demo.limited_B] /\
  fst (fst r) = Players.Aborted /\
  Db.get_checkpoint (snd r) Players.done_key = Some "1" /\
  Db.players (Db.durable (snd r)) = ∅.
Proof. vm_compute. repeat split. Qed.

(** * Further properties *)

(** ** More on the rate limiter *)

Section RateLimiterMore.

Import RateLimiter.
Local Open Scope list_scope.

Variables N W : Z.

Lemma wait_for_slot_params (ts : list Q) (r : readings) :
  exists ts', snd (wait_for_slot (mk N W ts) r) = mk N W ts'.
Proof.
  unfold wait_for_slot. simpl.
  destruct (_ <? _)%Z; [eexists; reflexivity |].
  destruct (drop_expired W (now1 r) ts); eexists; reflexivity.
Qed.

(** One call keeps the deque within capacity, under a clock that behaves. *)
Lemma wait_for_slot_bounded (ts : list Q) (r : readings) (last : Q) :
  (Z.of_nat (length ts) <= N)%Z \/ ts = [] ->
  clock_ok (mk N W ts) last [r] ->
  (Z.of_nat (length (timestamps (snd (wait_for_slot (mk N W ts) r)))) <= N)%Z \/
  timestamps (snd (wait_for_slot (mk N W ts) r)) = [].
Proof.
  intros Hlen Hclock. simpl in Hclock.
  destruct Hclock as (_ & Hj & _ & Hclock).
  unfold wait_for_slot in *. simpl in *.
  pose proof (drop_expired_length W (now1 r) ts) as Hdrop.
  set (ts1 := drop_expired W (now1 r) ts) in *.
  destruct (Z.ltb_spec (Z.of_nat (length ts1)) N) as [Hlt | Hge]; simpl.
  - left. rewrite length_app. simpl. lia.
  - destruct ts1 as [|t0 tl] eqn:Hts1; simpl in *; [right; reflexivity |].
    destruct Hclock as [Hsleep _].
    assert (Ht0 : (inject_Z W <= now2 r - t0)%Q).
    { pose proof (Q.le_max_r 1 (inject_Z W - (now1 r - t0) + jitter r)). lra. }
    apply Qle_bool_iff in Ht0. rewrite Ht0.
    pose proof (drop_expired_length W (now2 r) tl) as Hdrop2.
    left. rewrite length_app. simpl.
    destruct Hlen as [Hlen | ->]; [lia | simpl in Hdrop; lia].
Qed.

Lemma clock_ok_head (ts : list Q) (last : Q) (r : readings) (rs : list readings) :
  clock_ok (mk N W ts) last (r :: rs) -> clock_ok (mk N W ts) last [r].
Proof.
  simpl. intros (H1 & H2 & H3 & H4). repeat split; try assumption.
  destruct (wait_for_slot (mk N W ts) r) as [[| d | e] self']; try exact I.
  destruct H4 as [H4 _]. split; [exact H4 | exact I].
Qed.

Lemma clock_ok_tail (ts : list Q) (last : Q) (r : readings) (rs : list readings) :
  clock_ok (mk N W ts) last (r :: rs) ->
  exists last', (last <= last')%Q /\
                clock_ok (snd (wait_for_slot (mk N W ts) r)) last' rs /\
                (forall t, stamp_of r (fst (wait_for_slot (mk N W ts) r)) = Some t -> t = last').
Proof.
  simpl. intros (H1 & H2 & _ & H4).
  destruct (wait_for_slot (mk N W ts) r) as [[| d | e] self'] eqn:Hw; simpl.
  - exists (now1 r). repeat split; [lra | exact H4 | intros t [= <-]; reflexivity].
  - destruct H4 as [Hs H4]. exists (now2 r). repeat split; [| exact H4 | intros t [= <-]; reflexivity].
    unfold wait_for_slot in Hw. simpl in Hw.
    destruct (_ <? _)%Z; [discriminate |].
    destruct (drop_expired W (now1 r) ts) as [|t0 tl]; [discriminate |].
    injection Hw as <- _.
    pose proof (Q.le_max_l 1 (inject_Z W - (now1 r - t0) + jitter r)). lra.
  - exists (now1 r). repeat split; [lra | exact H4 | intros t [=]].
Qed.

Lemma after_bounded (rs : list readings) :
  forall (ts : list Q) (last : Q),
    (Z.of_nat (length ts) <= N)%Z \/ ts = [] ->
    clock_ok (mk N W ts) last rs ->
    (Z.of_nat (length (timestamps (after (mk N W ts) rs))) <= N)%Z \/
    timestamps (after (mk N W ts) rs) = [].
Proof.
  induction rs as [|r rs IH]; intros ts last Hlen Hclock; [exact Hlen |].
  simpl.
  pose proof (wait_for_slot_bounded ts r last Hlen (clock_ok_head ts last r rs Hclock)) as Hb.
  destruct (clock_ok_tail ts last r rs Hclock) as (last' & _ & Htail & _).
  destruct (wait_for_slot_params ts r) as [ts' Hts'].
  rewrite Hts' in *. simpl in Hb.
  exact (IH ts' last' Hb Htail).
Qed.

Lemma stamps_from_last (rs : list readings) :
  forall (ts : list Q) (last : Q),
    clock_ok (mk N W ts) last rs ->
    Forall (fun t => (last <= t)%Q) (stamps (mk N W ts) rs) /\
    StronglySorted Qle (stamps (mk N W ts) rs).
Proof.
  induction rs as [|r rs IH]; intros ts last Hclock; [split; constructor |].
  destruct (clock_ok_tail ts last r rs Hclock) as (last' & Hle & Htail & Hstamp).
  destruct (wait_for_slot_params ts r) as [ts' Hts'].
  simpl. destruct (wait_for_slot (mk N W ts) r) as [s self'] eqn:Hw.
  simpl in Hts', Htail, Hstamp. subst self'.
  destruct (IH ts' last' Htail) as [Hall Hsorted].
  assert (Hall' : Forall (fun t => (last <= t)%Q) (stamps (mk N W ts') rs)).
  { eapply Forall_impl; [exact Hall |]. intros t Ht. simpl in Ht. lra. }
  destruct (stamp_of r s) as [t |] eqn:Hs; [| split; assumption].
  specialize (Hstamp t eq_refl). subst t.
  split; constructor; assumption.
Qed.

End RateLimiterMore.

(** X1. Under a clock that behaves, the deque of a limiter created empty
    never holds more than [max_requests] timestamps, whatever the calls. *)
Theorem X1_limiter_deque_bounded (N W : Z) (rs : list RateLimiter.readings) (t0 : Q) :
  RateLimiter.clock_ok (RateLimiter.init N W) t0 rs ->
  (Z.of_nat (length (RateLimiter.timestamps (RateLimiter.after (RateLimiter.init N W) rs)))
   <= Z.max N 0)%Z.
Proof.
  intros Hclock. unfold RateLimiter.init in *.
  destruct (after_bounded N W rs [] t0 (or_intror eq_refl) Hclock) as [H | H].
  - lia.
  - rewrite H. simpl. lia.
Qed.

Lemma X1_limiter_deque_bounded_witness :
  (Z.of_nat (length (RateLimiter.timestamps
                       (RateLimiter.after (RateLimiter.init 2 10) Demo.three_calls)))
   <= Z.max 2 0)%Z.
Proof.
  apply (X1_limiter_deque_bounded 2 10 Demo.three_calls 0).
  vm_compute. intuition discriminate.
Defined.

(** X2. Under a clock that behaves, the timestamps are recorded in
    non-decreasing order, none before the reading the run started from. *)
Theorem X2_limiter_stamps_sorted (N W : Z) (rs : list RateLimiter.readings) (t0 : Q) :
  RateLimiter.clock_ok (RateLimiter.init N W) t0 rs ->
  StronglySorted Qle (RateLimiter.stamps (RateLimiter.init N W) rs) /\
  Forall (fun t => (t0 <= t)%Q) (RateLimiter.stamps (RateLimiter.init N W) rs).
Proof.
  intros Hclock.
  destruct (stamps_from_last N W rs [] t0 Hclock) as [Hall Hsorted].
  split; assumption.
Qed.

Lemma X2_limiter_stamps_sorted_witness :
  StronglySorted Qle (RateLimiter.stamps (RateLimiter.init 2 10) Demo.three_calls) /\
  Forall (fun t => (0 <= t)%Q) (RateLimiter.stamps (RateLimiter.init 2 10) Demo.three_calls).
Proof.
  apply (X2_limiter_stamps_sorted 2 10 Demo.three_calls 0).
  vm_compute. intuition discriminate.
Defined.

Lemma slots_never_fail (N W : Z) (rs : list RateLimiter.readings) :
  (0 < N)%Z ->
  forall ts : list Q,
    Forall (fun s => forall e, s <> RateLimiter.Failed e)
      (RateLimiter.slots (RateLimiter.mk N W ts) rs).
Proof.
  intros HN. induction rs as [|r rs IH]; intros ts; simpl; [constructor |].
  destruct (wait_for_slot_params N W ts r) as [ts' Hts']. rewrite Hts'.
  constructor; [| apply IH].
  unfold RateLimiter.wait_for_slot. simpl.
  destruct (Z.ltb_spec (Z.of_nat (length (RateLimiter.drop_expired W (RateLimiter.now1 r) ts))) N)
    as [Hlt | Hge]; simpl; [discriminate |].
  destruct (RateLimiter.drop_expired W (RateLimiter.now1 r) ts); simpl in *; [lia | discriminate].
Qed.

Lemma slots_always_fail (N W : Z) (rs : list RateLimiter.readings) :
  (N <= 0)%Z ->
  Forall (eq (RateLimiter.Failed IndexError))
    (RateLimiter.slots (RateLimiter.mk N W []) rs) /\
  RateLimiter.stamps (RateLimiter.mk N W []) rs = [] /\
  RateLimiter.after (RateLimiter.mk N W []) rs = RateLimiter.mk N W [].
Proof.
  intros HN.
  assert (Hw : forall r, RateLimiter.wait_for_slot (RateLimiter.mk N W []) r
                         = (RateLimiter.Failed IndexError, RateLimiter.mk N W [])).
  { intros r. unfold RateLimiter.wait_for_slot. simpl.
    change (Z.of_nat 0) with 0%Z.
    destruct (Z.ltb_spec 0 N); [lia | reflexivity]. }
  induction rs as [|r rs (IH1 & IH2 & IH3)]; simpl.
  - repeat split. constructor.
  - rewrite Hw. simpl. repeat split; [constructor; [reflexivity | exact IH1] | exact IH2 | exact IH3].
Qed.

(** X3. With a capacity of at least one, [wait_for_slot] never raises and
    every call records one timestamp; with a capacity of zero or less, every
    call on a limiter created empty raises [IndexError] and records
    nothing. *)
Theorem X3_limiter_capacity (N W : Z) (rs : list RateLimiter.readings) :
  ((0 < N)%Z ->
   forall ts : list Q,
     Forall (fun s => forall e, s <> RateLimiter.Failed e)
       (RateLimiter.slots (RateLimiter.mk N W ts) rs) /\
     length (RateLimiter.stamps (RateLimiter.mk N W ts) rs) = length rs) /\
  ((N <= 0)%Z ->
   Forall (eq (RateLimiter.Failed IndexError))
     (RateLimiter.slots (RateLimiter.init N W) rs) /\
   RateLimiter.stamps (RateLimiter.init N W) rs = [] /\
   RateLimiter.timestamps (RateLimiter.after (RateLimiter.init N W) rs) = []).
Proof.
  split.
  - intros HN ts. split; [apply slots_never_fail; exact HN | apply stamps_length; exact HN].
  - intros HN. unfold RateLimiter.init.
    destruct (slots_always_fail N W rs HN) as (H1 & H2 & H3).
    rewrite H3. repeat split; assumption.
Qed.

Lemma drop_expired_subset (W : Z) (now : Q) (ts : list Q) (t : Q) :
  t ∈ RateLimiter.drop_expired W now ts -> t ∈ ts.
Proof.
  destruct (drop_expired_split W now ts) as (old & Heq & _).
  intros Hin. rewrite Heq. apply elem_of_app. right. exact Hin.
Qed.

(** X4. When [wait_for_slot] sleeps, the deque was full of unexpired
    timestamps, the sleep is at least one second, and, if no timestamp in the
    deque is later than the clock and the jitter is at most 3, it is at most
    the window plus 3 seconds (or one second, if that is more). *)
Theorem X4_limiter_sleep_bounds (self self' : RateLimiter.HourlyRateLimiter)
    (r : RateLimiter.readings) (d : Q) :
  RateLimiter.wait_for_slot self r = (RateLimiter.Slept d, self') ->
  (RateLimiter.max_requests self
   <= Z.of_nat (length (RateLimiter.drop_expired (RateLimiter.window_seconds self)
                          (RateLimiter.now1 r) (RateLimiter.timestamps self))))%Z /\
  (1 <= d)%Q /\
  (Forall (fun t => (t <= RateLimiter.now1 r)%Q) (RateLimiter.timestamps self) ->
   (RateLimiter.jitter r <= 3)%Q ->
   (d <= Qmax 1 (inject_Z (RateLimiter.window_seconds self) + 3))%Q).
Proof.
  unfold RateLimiter.wait_for_slot.
  destruct (Z.ltb_spec
              (Z.of_nat (length (RateLimiter.drop_expired (RateLimiter.window_seconds self)
                                   (RateLimiter.now1 r) (RateLimiter.timestamps self))))
              (RateLimiter.max_requests self)) as [Hlt | Hge]; [discriminate |].
  destruct (RateLimiter.drop_expired (RateLimiter.window_seconds self)
              (RateLimiter.now1 r) (RateLimiter.timestamps self)) as [|t0 tl] eqn:Hd;
    [discriminate |].
  intros [= <- _].
  split; [exact Hge |]. split; [apply Q.le_max_l |].
  intros Hpast Hj.
  assert (Ht0 : (t0 <= RateLimiter.now1 r)%Q).
  { rewrite Forall_forall in Hpast. apply Hpast.
    apply (drop_expired_subset (RateLimiter.window_seconds self) (RateLimiter.now1 r)).
    rewrite Hd. left. }
  apply Q.max_lub.
  - apply Q.le_max_l.
  - eapply Qle_trans; [| apply Q.le_max_r]. lra.
Qed.

Lemma X4_limiter_sleep_bounds_witness :
  (1 <= 9)%Q /\ (9 <= Qmax 1 (inject_Z 10 + 3))%Q.
Proof.
  destruct (X4_limiter_sleep_bounds (RateLimiter.mk 2 10 [0%Q; 1%Q])
              (RateLimiter.mk 2 10 [12%Q])
              {| RateLimiter.now1 := 2; RateLimiter.jitter := 1; RateLimiter.now2 := 12 |}
              9 eq_refl) as (_ & H1 & H2).
  split; [exact H1 |].
  apply H2.
  - repeat constructor; vm_compute; discriminate.
  - vm_compute; discriminate.
Defined.

(** ** More on the fetch client *)

Section MwMore.

Local Open Scope list_scope.

Variable E : Env.
Variable self : Mw.MediaWikiClient.

(** The backoff stays between the base delay and the largest ceiling. *)
Definition backoff_in_range (st : Mw.retry_state) : Prop :=
  (10 <= Mw.backoff st)%Q /\ (Mw.backoff st <= 180)%Q.

(** What a successful pass of [_request] tells about the reply it got. *)
Definition accepted_reply (r : Response) (payload : json) : Prop :=
  json_body r = Some payload /\
  Mw.is_rate_limited r = false /\
  ((status_code r < 400)%Z \/ (600 <= status_code r)%Z) /\
  Py.contains "application/json" (Py.lower (default "" (content_type r))) = true /\
  Mw.has_key "error" payload = false.

Lemma request_attempt_propagates (ps : list (string * string)) (st : Mw.retry_state)
    (w : World) (e : exn) :
  fst (Mw.request_attempt E self ps st w) = Mw.Propagated e ->
  e = RateLimited (Mw.rate_limited_msg ps).
Proof.
  unfold Mw.request_attempt, Mw.request_except.
  destruct (W.wait_for_slot E w) as [[[] | e0] w1]; [| discriminate].
  destruct (W.get E _ w1) as [[d | r] w2]; [discriminate |].
  destruct (Mw.is_rate_limited r); [simpl; congruence |].
  destruct (_ && _); [discriminate |].
  destruct (_ && _); [discriminate |].
  destruct (negb _); [discriminate |].
  destruct (json_body r); [| discriminate].
  destruct (Mw.has_key _ _); discriminate.
Qed.

Lemma request_loop_errors (ps : list (string * string)) (n : nat) :
  forall (st : Mw.retry_state) (w : World) (e : exn),
    fst (Mw.request_loop E self ps n st w) = Raise e ->
    e = RateLimited (Mw.rate_limited_msg ps) \/
    exists st', e = RuntimeError_request_failed (Mw.last_status st') (Mw.last_retry_after st')
                      (Mw.last_preview st') (Mw.last_exc st') ps.
Proof.
  induction n as [|n IH]; intros st w e; simpl.
  - intros [= <-]. right. exists st. reflexivity.
  - pose proof (request_attempt_propagates ps st w) as Hprop.
    destruct (Mw.request_attempt E self ps st w) as [[p | e0 | st'] w1]; simpl in *.
    + discriminate.
    + intros [= <-]. left. apply Hprop. reflexivity.
    + apply IH.
Qed.

Lemma full_html_loop_errors (u : string) (n : nat) :
  forall (st : Mw.retry_state) (w : World) (e : exn),
    fst (Mw.full_html_loop E self u n st w) = Raise e ->
    exists last, e = RuntimeError_html_fetch_failed u last.
Proof.
  induction n as [|n IH]; intros st w e; simpl.
  - intros [= <-]. eauto.
  - pose proof (full_html_attempt_catches E self u st w) as Hcatch.
    destruct (Mw.full_html_attempt E self u st w) as [[b | e0 | st'] w1]; simpl in *.
    + discriminate.
    + exfalso. exact (Hcatch e0 eq_refl).
    + apply IH.
Qed.

Lemma full_html_attempt_sent (u : string) (st : Mw.retry_state) (w : World) :
  (sent w <= sent (snd (Mw.full_html_attempt E self u st w)) <= S (sent w))%nat.
Proof.
  unfold Mw.full_html_attempt, Mw.full_html_except.
  destruct (W.wait_for_slot E w) as [[[] | e0] w1] eqn:Hslot;
    apply wait_for_slot_sent in Hslot; simpl; [| lia].
  unfold W.get. destruct (session_get E (sent w1) _) as [d | r]; simpl; [lia |].
  destruct (_ || _); simpl; [lia |].
  destruct (_ && _); simpl; lia.
Qed.

Lemma request_loop_sent (ps : list (string * string)) (n : nat) :
  forall (st : Mw.retry_state) (w : World),
    (sent w <= sent (snd (Mw.request_loop E self ps n st w)) <= sent w + n)%nat.
Proof.
  induction n as [|n IH]; intros st w; simpl; [lia |].
  destruct (Mw.request_attempt E self ps st w) as [a w1] eqn:Hatt.
  pose proof (request_attempt_cases E self ps st w w1 a Hatt) as Hcases. simpl in Hcases.
  assert (Hs : (sent w <= sent w1 <= S (sent w))%nat)
    by (destruct Hcases as [[_ ->] | [-> _]]; lia).
  destruct a as [p | e | st']; simpl; try lia.
  specialize (IH st' w1). lia.
Qed.

Lemma full_html_loop_sent (u : string) (n : nat) :
  forall (st : Mw.retry_state) (w : World),
    (sent w <= sent (snd (Mw.full_html_loop E self u n st w)) <= sent w + n)%nat.
Proof.
  induction n as [|n IH]; intros st w; simpl; [lia |].
  pose proof (full_html_attempt_sent u st w) as Hs.
  destruct (Mw.full_html_attempt E self u st w) as [[b | e | st'] w1]; simpl in *; try lia.
  specialize (IH st' w1). lia.
Qed.

Lemma request_attempt_backoff (ps : list (string * string)) (st st' : Mw.retry_state)
    (w : World) :
  fst (Mw.request_attempt E self ps st w) = Mw.Again st' ->
  backoff_in_range st -> backoff_in_range st'.
Proof.
  unfold backoff_in_range. intros H [Hlo Hhi].
  assert (Hex : (10 <= Qmin (Mw.backoff st * (8 # 5)) 180)%Q /\
                (Qmin (Mw.backoff st * (8 # 5)) 180 <= 180)%Q).
  { split; [apply Q.min_glb; lra | apply Q.le_min_r]. }
  assert (H5 : (10 <= Qmin (Mw.backoff st * (8 # 5)) 120)%Q /\
               (Qmin (Mw.backoff st * (8 # 5)) 120 <= 180)%Q).
  { split; [apply Q.min_glb; lra |].
    eapply Qle_trans; [apply Q.le_min_r | lra]. }
  unfold Mw.request_attempt, Mw.request_except in H.
  destruct (W.wait_for_slot E w) as [[[] | e0] w1]; [| injection H as <-; exact Hex].
  destruct (W.get E _ w1) as [[d | r] w2]; [injection H as <-; exact Hex |].
  destruct (Mw.is_rate_limited r); [discriminate |].
  destruct (_ && _); [injection H as <-; exact H5 |].
  destruct (_ && _); [injection H as <-; exact Hex |].
  destruct (negb _); [injection H as <-; exact Hex |].
  destruct (json_body r); [| injection H as <-; exact Hex].
  destruct (Mw.has_key _ _); [injection H as <-; exact Hex | discriminate].
Qed.

Lemma full_html_attempt_backoff (u : string) (st st' : Mw.retry_state) (w : World) :
  fst (Mw.full_html_attempt E self u st w) = Mw.Again st' ->
  backoff_in_range st -> backoff_in_range st'.
Proof.
  unfold backoff_in_range. intros H [Hlo Hhi].
  assert (Hex : (10 <= Qmin (Mw.backoff st * (8 # 5)) 180)%Q /\
                (Qmin (Mw.backoff st * (8 # 5)) 180 <= 180)%Q).
  { split; [apply Q.min_glb; lra | apply Q.le_min_r]. }
  unfold Mw.full_html_attempt, Mw.full_html_except in H.
  destruct (W.wait_for_slot E w) as [[[] | e0] w1]; [| injection H as <-; exact Hex].
  destruct (W.get E _ w1) as [[d | r] w2]; [injection H as <-; exact Hex |].
  destruct (_ || _).
  - destruct (W.uniform E 0 10 w2). injection H as <-. exact Hex.
  - destruct (_ && _); [injection H as <-; exact Hex |].
    destruct (W.uniform E 0 (3 # 5) w2). discriminate.
Qed.

(** A pass of [_request] that returns issued one GET, and the reply to it
    was acceptable. *)
Lemma request_attempt_returned (ps : list (string * string)) (st : Mw.retry_state)
    (w w' : World) (payload : json) :
  Mw.request_attempt E self ps st w = (Mw.Returned payload, w') ->
  sent w' = S (sent w) /\
  exists r, session_get E (sent w) {| url := Mw.api_url self; params := ps |} = Responds r /\
            accepted_reply r payload.
Proof.
  unfold Mw.request_attempt, Mw.request_except, accepted_reply.
  destruct (W.wait_for_slot E w) as [[[] | e0] w1] eqn:Hslot; [| discriminate].
  apply wait_for_slot_sent in Hslot.
  unfold W.get. rewrite Hslot.
  destruct (session_get E (sent w) _) as [d | r] eqn:Hget; [discriminate |].
  destruct (Mw.is_rate_limited r) eqn:Hrl; [discriminate |].
  destruct ((500 <=? status_code r)%Z && (status_code r <? 600)%Z) eqn:H5; [discriminate |].
  destruct ((400 <=? status_code r)%Z && (status_code r <? 600)%Z) eqn:H4; [discriminate |].
  destruct (negb _) eqn:Hct; [discriminate |].
  destruct (json_body r) as [p |] eqn:Hjson; [| discriminate].
  destruct (Mw.has_key "error" p) eqn:Herr; [discriminate |].
  intros [= <- <-]. split; [reflexivity |].
  exists r. split; [reflexivity |].
  repeat split; try assumption; try reflexivity.
  - apply andb_false_iff in H4. destruct H4 as [H4 | H4]; [left | right]; lia.
  - apply negb_false_iff in Hct. exact Hct.
Qed.

Lemma request_loop_returned (ps : list (string * string)) (n : nat) :
  forall (st : Mw.retry_state) (w w' : World) (payload : json),
    Mw.request_loop E self ps n st w = (Return payload, w') ->
    (sent w < sent w')%nat /\
    exists r, session_get E (pred (sent w')) {| url := Mw.api_url self; params := ps |}
              = Responds r /\
              accepted_reply r payload.
Proof.
  induction n as [|n IH]; intros st w w' payload; simpl; [discriminate |].
  destruct (Mw.request_attempt E self ps st w) as [a w1] eqn:Hatt.
  destruct a as [p | e | st'].
  - intros [= <- <-].
    destruct (request_attempt_returned ps st w w1 p Hatt) as (Hs & r & Hget & Hacc).
    split; [lia |]. exists r. rewrite Hs. simpl. split; assumption.
  - discriminate.
  - intros Hloop.
    destruct (IH st' w1 w' payload Hloop) as (Hlt & r & Hget & Hacc).
    pose proof (request_attempt_cases E self ps st w w1 _ Hatt) as Hcases. simpl in Hcases.
    split; [destruct Hcases as [[_ Hs] | [Hs _]]; lia |].
    exists r. split; assumption.
Qed.

Lemma fetch_html_truthy (title : string) (w : World) (v : json) :
  fst (Mw.fetch_html E self title w) = Return v -> Mw.falsy v = false.
Proof.
  unfold Mw.fetch_html.
  destruct (Mw._request E self (Mw.parse_params title) w) as [[payload | e] w1]; [| discriminate].
  destruct (Mw.dict_get "parse" _ payload) as [p | e]; [| discriminate].
  destruct (Mw.dict_get "text" _ p) as [t | e]; [| discriminate].
  destruct (Mw.dict_get "*" _ t) as [html | e]; [| discriminate].
  destruct (Mw.falsy html) eqn:Hf; [discriminate |].
  intros [= <-]. exact Hf.
Qed.

End MwMore.

(** [time.sleep(d)] takes the duration [d]: it raises [ValueError] on a
    negative one and [OverflowError] beyond about 9.2e9 seconds. *)
Definition sleep_accepts (d : Q) : Prop := (0 <= d <= 9000000000)%Q.

(** X5. With a [throttle_s] from 0 to 1e9 seconds (and [random.random()]
    in [0, 1]), the sleeps of the two [except] handlers, the only
    statements of the retry loops outside a [try], ask for durations
    [time.sleep] accepts.  [_request] then lets only two exceptions out:
    [RateLimited], or the [RuntimeError] raised once no attempt is left;
    whatever else goes wrong in an attempt is kept as [last_exc].
    [fetch_full_html] lets only its own final [RuntimeError] out. *)
Theorem X5_fetch_error_taxonomy (E : Env) (self : Mw.MediaWikiClient) :
  (0 <= Mw.throttle_s self <= 1000000000)%Q ->
  (forall k, (0 <= random_random E k <= 1)%Q) ->
  (forall (e : exn) (st : Mw.retry_state) (w : World),
     exists d, log (snd (Mw.request_except E self e st w)) = (log w ++ [EvSleep d])%list /\
               sleep_accepts d) /\
  (forall (e : exn) (st : Mw.retry_state) (w : World),
     exists d, log (snd (Mw.full_html_except e st w)) = (log w ++ [EvSleep d])%list /\
               sleep_accepts d) /\
  (forall (ps : list (string * string)) (w : World) (e : exn),
     fst (Mw._request E self ps w) = Raise e ->
     e = RateLimited (Mw.rate_limited_msg ps) \/
     exists status retry_after preview last,
       e = RuntimeError_request_failed status retry_after preview last ps) /\
  (forall (title : string) (w : World) (e : exn),
     fst (Mw.fetch_full_html E self title w) = Raise e ->
     exists u last, e = RuntimeError_html_fetch_failed u last).
Proof.
  intros [Hlo Hhi] Hrand.
  split; [| split; [| split]].
  - intros e st w. eexists. split; [reflexivity |].
    unfold sleep_accepts.
    pose proof (Hrand (draws w)) as [Hr0 Hr1].
    pose proof (Q.le_min_r (Qmax (Mw.backoff st) 10) 60) as Hmin.
    assert (10 <= Qmin (Qmax (Mw.backoff st) 10) 60)%Q as Hmax.
    { apply Q.min_glb; [apply Q.le_max_r | discriminate]. }
    split; lra.
  - intros e st w. eexists. split; [reflexivity |].
    unfold sleep_accepts.
    pose proof (Q.le_min_r (Qmax (Mw.backoff st) 30) 120) as Hmin.
    assert (30 <= Qmin (Qmax (Mw.backoff st) 30) 120)%Q as Hmax.
    { apply Q.min_glb; [apply Q.le_max_r | discriminate]. }
    split; lra.
  - intros ps w e H.
    destruct (request_loop_errors E self ps _ _ w e H) as [-> | [st' ->]]; [left; reflexivity |].
    right. eauto 10.
  - intros title w e H. unfold Mw.fetch_full_html in H.
    destruct (full_html_loop_errors E self _ _ _ w e H) as [last ->]. eauto.
Qed.

Lemma X5_fetch_error_taxonomy_witness :
  Demo.limited_B = RateLimited (Mw.rate_limited_msg (Mw.parse_params "B")) \/
  exists status retry_after preview last,
    Demo.limited_B
    = RuntimeError_request_failed status retry_after preview last (Mw.parse_params "B").
Proof.
  assert (Hthrottle : (0 <= Mw.throttle_s Demo.mw <= 1000000000)%Q)
    by (split; discriminate).
  assert (Hrandom : forall k, (0 <= random_random Demo.env k <= 1)%Q)
    by (intros k; split; discriminate).
  apply (proj1 (proj2 (proj2 (X5_fetch_error_taxonomy Demo.env Demo.mw Hthrottle Hrandom)))
           (Mw.parse_params "B") Demo.world).
  vm_compute. reflexivity.
Defined.

(** X6. A call of [_request] or of [fetch_full_html] issues at most
    [max_retries] GETs, none at all when [max_retries] is zero or less. *)
Theorem X6_attempts_bounded (E : Env) (self : Mw.MediaWikiClient) (w : World) :
  (forall ps : list (string * string),
     (sent w <= sent (snd (Mw._request E self ps w))
      <= sent w + Z.to_nat (Mw.max_retries self))%nat) /\
  (forall title : string,
     (sent w <= sent (snd (Mw.fetch_full_html E self title w))
      <= sent w + Z.to_nat (Mw.max_retries self))%nat).
Proof.
  split.
  - intros ps. apply request_loop_sent.
  - intros title. apply full_html_loop_sent.
Qed.

(** X7. The backoff of both retry loops starts at 10 seconds and stays
    between 10 and 180 seconds from one attempt to the next. *)
Theorem X7_backoff_in_range (E : Env) (self : Mw.MediaWikiClient) :
  backoff_in_range Mw.retry_init /\
  (forall ps st st' w,
     fst (Mw.request_attempt E self ps st w) = Mw.Again st' ->
     backoff_in_range st -> backoff_in_range st') /\
  (forall u st st' w,
     fst (Mw.full_html_attempt E self u st w) = Mw.Again st' ->
     backoff_in_range st -> backoff_in_range st').
Proof.
  split; [split; simpl; lra |].
  split.
  - intros ps st st' w. apply request_attempt_backoff.
  - intros u st st' w. apply full_html_attempt_backoff.
Qed.

(** X8. When [_request] returns a payload, it is the decoded body of the
    reply to the last GET it issued, and that reply was not rate limited,
    had no 4xx or 5xx status, declared a JSON content type, and carried no
    "error" key. *)
Theorem X8_request_success (E : Env) (self : Mw.MediaWikiClient)
    (ps : list (string * string)) (w w' : World) (payload : json) :
  Mw._request E self ps w = (Return payload, w') ->
  (sent w < sent w')%nat /\
  exists r,
    session_get E (pred (sent w')) {| url := Mw.api_url self; params := ps |} = Responds r /\
    json_body r = Some payload /\
    Mw.is_rate_limited r = false /\
    ((status_code r < 400)%Z \/ (600 <= status_code r)%Z) /\
    Py.contains "application/json" (Py.lower (default "" (content_type r))) = true /\
    Mw.has_key "error" payload = false.
Proof.
  intros H. apply (request_loop_returned E self ps _ _ w w' payload H).
Qed.

Lemma X8_request_success_witness :
  exists r,
    session_get Demo.env 0 {| url := Mw.api_url Demo.mw; params := Mw.parse_params "A" |}
    = Responds r /\
    json_body r
    = Some (JDict [("parse", JDict [("text", JDict [("*", JStr "<h1>A</h1>")])])]) /\
    Mw.is_rate_limited r = false.
Proof.
  destruct (X8_request_success Demo.env Demo.mw (Mw.parse_params "A") Demo.world
              (snd (Mw._request Demo.env Demo.mw (Mw.parse_params "A") Demo.world))
              (JDict [("parse", JDict [("text", JDict [("*", JStr "<h1>A</h1>")])])])
              ltac:(vm_compute; reflexivity))
    as (_ & r & Hget & Hjson & Hrl & _).
  exists r. split; [exact Hget |]. split; [exact Hjson | exact Hrl].
Defined.

(** X9. The stage never hands an empty document to the page interpreter:
    whether it comes from the cache or from the parse API, the text
    [_fetch_player_overview_html] returns is not empty, and what [fetch_html]
    returns is never falsy. *)
Theorem X9_document_never_empty (E : Env) (mw : Mw.MediaWikiClient)
    (title cache_dir html : string) (w w1 : World) :
  Players._fetch_player_overview_html E mw title cache_dir w = (Return html, w1) ->
  html <> "" /\
  (forall v, fst (Mw.fetch_html E mw title w) = Return v -> Mw.falsy v = false).
Proof.
  intros H. split; [| apply fetch_html_truthy].
  unfold Players._fetch_player_overview_html in H.
  assert (Hnet : match Mw.fetch_html E mw title w with
                 | (Raise e, w1') => (Raise e, w1')
                 | (Return (JStr html'), w1') =>
                     (Return html', Cache.cache_set E cache_dir ("PLAYER::" ++ title) html' w1')
                 | (Return _, w1') =>
                     (Raise TypeError,
                      W.set_files (<[Cache.cache_path E cache_dir ("PLAYER::" ++ title) := ""]>
                                     (files w1')) w1')
                 end = (Return html, w1) -> html <> "").
  { pose proof (fetch_html_truthy E mw title w) as Htruthy.
    destruct (Mw.fetch_html E mw title w) as [[v | e] w1']; [| discriminate].
    specialize (Htruthy v eq_refl).
    destruct v; try discriminate. intros [= <- _]. intros ->. discriminate Htruthy. }
  destruct (Cache.cache_get E cache_dir ("PLAYER::" ++ title) w) as [[| c s] |];
    [apply Hnet; exact H | | apply Hnet; exact H].
  injection H as <- _. discriminate.
Qed.

Lemma X9_document_never_empty_witness :
  "<h1>A</h1>" <> "".
Proof.
  apply (proj1 (X9_document_never_empty Demo.env Demo.mw "A" Demo.cache_dir "<h1>A</h1>"
                  Demo.world
                  (snd (Players._fetch_player_overview_html Demo.env Demo.mw "A"
                          Demo.cache_dir Demo.world))
                  ltac:(vm_compute; reflexivity))).
Defined.

(** ** URLs and links *)

Fixpoint repeat_char (c : ascii) (k : nat) : string :=
  match k with
  | O => EmptyString
  | S k' => String c (repeat_char c k')
  end.

Lemma rstrip_char_spec (c : ascii) (s : string) :
  Cache.ends_with_char c (Py.rstrip_char c s) = false /\
  exists k, s = Py.rstrip_char c s ++ repeat_char c k.
Proof.
  induction s as [|x s [IHend [k IHk]]].
  - split; [reflexivity | exists 0%nat; reflexivity].
  - simpl. destruct (Py.rstrip_char c s) as [|y r] eqn:Hr.
    + destruct (Ascii.eqb_spec x c) as [-> | Hne].
      * split; [reflexivity |]. exists (S k). simpl. rewrite IHk at 1. reflexivity.
      * split.
        -- simpl. apply Ascii.eqb_neq. exact Hne.
        -- exists k. cbv [String.append]. rewrite IHk at 1. reflexivity.
    + split.
      * exact IHend.
      * exists k. rewrite IHk at 1. reflexivity.
Qed.

Lemma replace_char_absent (a b : ascii) (s : string) :
  a <> b -> Py.contains (String a EmptyString) (Py.replace_char a b s) = false.
Proof.
  intros Hne. induction s as [|x s IH]; [reflexivity |].
  cbn [Py.replace_char]. rewrite contains_char_cons, IH, orb_false_r.
  destruct (Ascii.eqb_spec x a) as [-> | Hx]; apply Ascii.eqb_neq; congruence.
Qed.

Lemma replace_char_other (a b c : ascii) (s : string) :
  c <> a -> c <> b ->
  Py.contains (String c EmptyString) (Py.replace_char a b s)
  = Py.contains (String c EmptyString) s.
Proof.
  intros Ha Hb. induction s as [|x s IH]; [reflexivity |].
  cbn [Py.replace_char]. rewrite !contains_char_cons, IH. f_equal.
  destruct (Ascii.eqb_spec x a) as [-> | Hx]; [| reflexivity].
  transitivity false; [apply Ascii.eqb_neq; congruence | symmetry; apply Ascii.eqb_neq; congruence].
Qed.

Lemma replace_char_length (a b : ascii) (s : string) :
  String.length (Py.replace_char a b s) = String.length s.
Proof. induction s as [|x s IH]; simpl; [reflexivity | rewrite IH; reflexivity]. Qed.

Lemma replace_char_back (a b : ascii) (s : string) :
  Py.contains (String b EmptyString) s = false ->
  Py.replace_char b a (Py.replace_char a b s) = s.
Proof.
  induction s as [|x s IH]; [reflexivity |].
  rewrite contains_char_cons. intros H. apply orb_false_iff in H. destruct H as [Hx Hs].
  cbn [Py.replace_char]. rewrite (IH Hs). f_equal.
  destruct (Ascii.eqb_spec x a) as [-> | Hxa].
  - rewrite Ascii.eqb_refl. reflexivity.
  - rewrite Hx. reflexivity.
Qed.

Lemma strip_prefix_app (p s g : string) :
  Discover.strip_prefix p s = Some g -> s = p ++ g.
Proof.
  revert s. induction p as [|c p IH]; intros s; simpl.
  - intros [= ->]. reflexivity.
  - destruct s as [|d s]; [discriminate |].
    destruct (Ascii.eqb_spec c d) as [-> | _]; [| discriminate].
    intros H. cbv [String.append]. fold String.append. rewrite (IH s H). reflexivity.
Qed.

Lemma replace_char_get (a b : ascii) (s : string) :
  forall n : nat,
    String.get n (Py.replace_char a b s)
    = (fun c => if Ascii.eqb c a then b else c) <$> String.get n s.
Proof.
  induction s as [|x s IH]; intros n; [reflexivity |].
  cbn [Py.replace_char]. destruct n as [|n]; simpl; [reflexivity | apply IH].
Qed.

(** X10. A client built by [__init__] has a [wiki_base] without trailing
    slash (only trailing slashes of the argument are removed), and
    [page_url] joins it by one slash to the title with every space turned
    into an underscore: the part after the slash has the length of the
    title, an underscore wherever the title has a space, and the title's
    own character everywhere else. *)
Theorem X10_page_url_shape (api_url base title : string) (timeout_s : Z) (throttle_s : Q)
    (max_retries : Z) :
  let mw := Mw.init api_url base timeout_s throttle_s max_retries in
  Cache.ends_with_char "/" (Mw.wiki_base mw) = false /\
  (exists k, base = Mw.wiki_base mw ++ repeat_char "/" k) /\
  exists part,
    Mw.page_url mw title = Mw.wiki_base mw ++ "/" ++ part /\
    Py.contains " " part = false /\
    String.length part = String.length title /\
    forall n : nat,
      String.get n part
      = match String.get n title with
        | Some c => Some (if Ascii.eqb c " " then "_"%char else c)
        | None => None
        end.
Proof.
  intros mw. destruct (rstrip_char_spec "/" base) as [Hend Hk].
  split; [exact Hend |]. split; [exact Hk |].
  exists (Py.replace_char " " "_" title).
  split; [reflexivity |]. split; [| split].
  - apply replace_char_absent. discriminate.
  - apply replace_char_length.
  - intros n. rewrite replace_char_get. destruct (String.get n title); reflexivity.
Qed.

(** X11. A link that contributes a title has the form
    [/leagueoflegends/g]; the title is [g] with underscores turned into
    spaces; and, when [g] has no space in it, the URL the stage builds for
    the title ends with [g] again. *)
Theorem X11_href_title_url (mw : Mw.MediaWikiClient) (href t : string) :
  title_of_href href = Some t ->
  exists g,
    href = "/leagueoflegends/" ++ g /\
    t = Py.replace_char "_" " " g /\
    (Py.contains " " g = false -> Mw.page_url mw t = Mw.wiki_base mw ++ "/" ++ g).
Proof.
  unfold title_of_href, Discover.re_match.
  destruct (Discover.strip_prefix "/leagueoflegends/" href) as [rest |] eqn:Hp; [| discriminate].
  destruct (_ || _); [discriminate |].
  simpl. destruct (Discover.is_player_title _); [| discriminate].
  intros [= <-]. exists rest.
  split; [apply strip_prefix_app; exact Hp |]. split; [reflexivity |].
  intros Hsp. unfold Mw.page_url. rewrite replace_char_back by exact Hsp. reflexivity.
Qed.

Lemma X11_href_title_url_witness :
  exists g,
    "/leagueoflegends/Lee_Sang-hyeok" = "/leagueoflegends/" ++ g /\
    "Lee Sang-hyeok" = Py.replace_char "_" " " g /\
    (Py.contains " " g = false ->
     Mw.page_url Demo.mw "Lee Sang-hyeok" = Mw.wiki_base Demo.mw ++ "/" ++ g).
Proof.
  apply (X11_href_title_url Demo.mw "/leagueoflegends/Lee_Sang-hyeok" "Lee Sang-hyeok").
  vm_compute. reflexivity.
Defined.

(** X12. A title is discovered exactly when some link of the document
    contributes it: the link matches the pattern, and its group, with
    underscores turned into spaces, passes the three filters. *)
Theorem X12_discover_membership (E : Env) (html t : string) :
  t ∈ Discover.discover_player_titles_from_html E html <->
  exists href g,
    href ∈ find_all_a_href E html /\
    Discover.re_match href = Some g /\
    t = Py.replace_char "_" " " g /\
    Discover.is_player_title t = true.
Proof.
  unfold Discover.discover_player_titles_from_html, Discover.titles_of_hrefs.
  rewrite elem_of_sorted, elem_of_collect. unfold title_of_href.
  split.
  - intros (href & Hin & Ht).
    destruct (Discover.re_match href) as [g |] eqn:Hg; [| discriminate].
    simpl in Ht. destruct (Discover.is_player_title _) eqn:Hok; [| discriminate].
    injection Ht as <-. exists href, g. repeat split; assumption.
  - intros (href & g & Hin & Hg & -> & Hok).
    exists href. split; [exact Hin |]. rewrite Hg. simpl. rewrite Hok. reflexivity.
Qed.

(** X13. No discovered title is empty, and none holds an underscore, a
    '#' or a '?'. *)
Theorem X13_discover_title_characters (E : Env) (html : string) :
  Forall (fun t => t <> "" /\
                   Py.contains "_" t = false /\
                   Py.contains "#" t = false /\
                   Py.contains "?" t = false)
    (Discover.discover_player_titles_from_html E html).
Proof.
  apply Forall_forall. intros t Ht.
  unfold Discover.discover_player_titles_from_html, Discover.titles_of_hrefs in Ht.
  rewrite elem_of_sorted, elem_of_collect in Ht.
  destruct Ht as (href & _ & Ht).
  unfold title_of_href, Discover.re_match in Ht.
  destruct (Discover.strip_prefix "/leagueoflegends/" href) as [g |]; [| discriminate].
  destruct (String.eqb g "" || Py.contains "#" g || Py.contains "?" g) eqn:Hg; [discriminate |].
  apply orb_false_iff in Hg. destruct Hg as [Hg Hq].
  apply orb_false_iff in Hg. destruct Hg as [Hne Hh].
  simpl in Ht. destruct (Discover.is_player_title _); [| discriminate].
  injection Ht as <-.
  split; [| split; [| split]].
  - destruct g; [discriminate Hne | discriminate].
  - apply replace_char_absent. discriminate.
  - rewrite (replace_char_other "_" " " "#") by discriminate. exact Hh.
  - rewrite (replace_char_other "_" " " "?") by discriminate. exact Hq.
Qed.

(** ** The page cache in front of the client *)

(** X14. A document fetched once is not fetched again: after
    [_fetch_player_overview_html] returned [html] (without carriage return,
    on a platform whose line separator is LF or CR LF), a later call for
    the same title, in any world holding the same files, returns [html] and
    leaves the world as it is: no GET, no sleep, no write. *)
Theorem X14_player_fetch_memoized (E : Env) (mw : Mw.MediaWikiClient)
    (title cache_dir html : string) (w w1 w2 : World) :
  os_linesep E = String Cache.LF EmptyString \/
  os_linesep E = String Cache.CR (String Cache.LF EmptyString) ->
  Py.contains (String Cache.CR EmptyString) html = false ->
  Players._fetch_player_overview_html E mw title cache_dir w = (Return html, w1) ->
  files w2 = files w1 ->
  Players._fetch_player_overview_html E mw title cache_dir w2 = (Return html, w2).
Proof.
  intros Hsep Hcr H Hfiles.
  assert (Hhit : Cache.cache_get E cache_dir ("PLAYER::" ++ title) w1 = Some html /\
                 html <> "").
  { unfold Players._fetch_player_overview_html in H.
    assert (Hnet : match Mw.fetch_html E mw title w with
                   | (Raise e, w1') => (Raise e, w1')
                   | (Return (JStr html'), w1') =>
                       (Return html',
                        Cache.cache_set E cache_dir ("PLAYER::" ++ title) html' w1')
                   | (Return _, w1') =>
                       (Raise TypeError,
                        W.set_files
                          (<[Cache.cache_path E cache_dir ("PLAYER::" ++ title) := ""]>
                             (files w1')) w1')
                   end = (Return html, w1) ->
                   Cache.cache_get E cache_dir ("PLAYER::" ++ title) w1 = Some html /\
                   html <> "").
    { pose proof (fetch_html_truthy E mw title w) as Htruthy.
      destruct (Mw.fetch_html E mw title w) as [[v | e] w1']; [| discriminate].
      specialize (Htruthy v eq_refl).
      destruct v; try discriminate. intros [= <- <-]. split.
      - apply cache_set_get; assumption.
      - intros ->. discriminate Htruthy. }
    destruct (Cache.cache_get E cache_dir ("PLAYER::" ++ title) w) as [[| c s] |] eqn:Hget;
      [apply Hnet; exact H | | apply Hnet; exact H].
    injection H as <- <-. split; [exact Hget | discriminate]. }
  destruct Hhit as [Hget Hne].
  unfold Players._fetch_player_overview_html.
  rewrite (cache_get_files_only E cache_dir _ w2 w1 Hfiles), Hget.
  destruct html; [contradiction | reflexivity].
Qed.

Lemma X14_player_fetch_memoized_witness :
  Players._fetch_player_overview_html Demo.env Demo.mw "A" Demo.cache_dir
    (snd (Players._fetch_player_overview_html Demo.env Demo.mw "A" Demo.cache_dir Demo.world))
  = (Return "<h1>A</h1>",
     snd (Players._fetch_player_overview_html Demo.env Demo.mw "A" Demo.cache_dir Demo.world)).
Proof.
  apply (X14_player_fetch_memoized Demo.env Demo.mw "A" Demo.cache_dir "<h1>A</h1>"
           Demo.world
           (snd (Players._fetch_player_overview_html Demo.env Demo.mw "A" Demo.cache_dir
                   Demo.world))).
  - left. reflexivity.
  - vm_compute. reflexivity.
  - vm_compute. reflexivity.
  - reflexivity.
Defined.

(** X15. [MediaWikiClient.fetch_html_cached], given the cache module's
    [cache_get] and [cache_set], does what the stage's own
    [_fetch_player_overview_html] does: the same result (a raise for a raise,
    the same text for a text) and the same world after. *)
Theorem X15_fetch_html_cached_agrees (E : Env) (mw : Mw.MediaWikiClient)
    (title cache_dir : string) (w : World) :
  MwCached.fetch_html_cached E mw title
    (Some (Cache.cache_get E)) (Some (MwCached.cache_set_any E)) cache_dir w
  = match Players._fetch_player_overview_html E mw title cache_dir w with
    | (Return html, w1) => (Return (JStr html), w1)
    | (Raise e, w1) => (Raise e, w1)
    end.
Proof.
  unfold MwCached.fetch_html_cached, Players._fetch_player_overview_html.
  destruct (Cache.cache_get E cache_dir ("PLAYER::" ++ title) w) as [[| c s] |];
    try reflexivity;
    destruct (Mw.fetch_html E mw title w) as [[v | e] w1]; try reflexivity;
    destruct v; reflexivity.
Qed.

(** ** Invariants of the database through the stages *)

(** [P] holds of what the connection sees and of what is on disk, [Q] of
    every state the connection made durable. *)
Definition holds2 (P Q : Db.Tables -> Prop) (c : Db.Conn) : Prop :=
  P (Db.view c) /\ P (Db.durable c) /\ Forall Q (Db.commits c).




Section Invariants.

Local Open Scope list_scope.

Variable E : Env.
Variables P Q : Db.Tables -> Prop.

Hypothesis PQ : forall t, P t -> Q t.

Hypothesis P_checkpoint : forall key value now t, P t -> P (Db.upsert_checkpoint key value now t).
Hypothesis P_player : forall title url p now t, P t -> P (Db.upsert_player title url p now t).
Hypothesis P_stint : forall title s now t, P t -> P (Db.insert_or_ignore_stint title s now t).

Lemma holds_execute (f : Db.Tables -> Db.Tables) (c : Db.Conn) :
  (forall t, P t -> P (f t)) -> holds2 P Q c -> holds2 P Q (Db.execute f c).
Proof. intros Hf (Hv & Hd & Hc). repeat split; simpl; auto. Qed.

Lemma holds_commit (c : Db.Conn) : holds2 P Q c -> holds2 P Q (Db.commit c).
Proof.
  intros (Hv & Hd & Hc). repeat split; simpl; auto.
  apply Forall_app. split; [exact Hc |]. constructor; [apply PQ; exact Hv | constructor].
Qed.

Lemma holds_set_checkpoint (c : Db.Conn) (key value : string) (w : World) :
  holds2 P Q c -> holds2 P Q (fst (Db.set_checkpoint E c key value w)).
Proof.
  intros H. unfold Db.set_checkpoint. simpl.
  apply holds_commit, holds_execute; [| exact H]. intros t. apply P_checkpoint.
Qed.

Lemma holds_store (title url now : string) (p : Scrape.Profile)
    (stints : list Scrape.Stint) (c : Db.Conn) :
  holds2 P Q c -> holds2 P Q (Players.store title url p stints now c).
Proof.
  intros H. unfold Players.store.
  assert (H0 : holds2 P Q (Db.execute (Db.upsert_player title url p now) c))
    by (apply holds_execute; [intros t; apply P_player | exact H]).
  revert H0. generalize (Db.execute (Db.upsert_player title url p now) c).
  induction stints as [|s stints IH]; intros c0 H0; simpl; [exact H0 |].
  apply IH. apply holds_execute; [intros t; apply P_stint | exact H0].
Qed.

Lemma holds_step (mw : Mw.MediaWikiClient) (cache_dir : string) (titles : list string)
    (i : Z) (w : World) (c : Db.Conn) :
  holds2 P Q c -> holds2 P Q (snd (Players.step E mw cache_dir titles i w c)).
Proof.
  intros H. unfold Players.step.
  destruct (Py.getitem titles i) as [title | e]; [| exact H].
  destruct (Players.scrape E mw title (Mw.page_url mw title) cache_dir w)
    as [[[profile stints] | e] w1].
  - simpl.
    apply (holds_set_checkpoint _ Players.done_key (Py.str (i + 1)) (W.tick w1)).
    apply holds_commit, holds_store, H.
  - destruct (is_RateLimited e).
    + apply (holds_set_checkpoint c Players.done_key (Py.str i) w1), H.
    + apply (holds_set_checkpoint c Players.done_key (Py.str (i + 1)) w1), H.
Qed.

Lemma holds_loop (mw : Mw.MediaWikiClient) (cache_dir : string) (titles : list string)
    (n : nat) :
  forall (i : Z) (w : World) (c : Db.Conn),
    holds2 P Q c -> holds2 P Q (snd (Players.loop E mw cache_dir titles n i w c)).
Proof.
  induction n as [|n IH]; intros i w c H; simpl; [exact H |].
  pose proof (holds_step mw cache_dir titles i w c H) as Hstep.
  destruct (Players.step E mw cache_dir titles i w c) as [[v w1] c1].
  simpl in Hstep. destruct v; simpl; auto.
Qed.



Hypothesis P_delete : forall t, P t -> P (Careers.delete_careers t).
Hypothesis P_insert : forall today now t, P t -> P (Careers.insert_careers today now t).



End Invariants.

Section KeyFacts.

Local Open Scope list_scope.





End KeyFacts.






(** ** The cursor of the player stage *)

Section CursorFacts.

Local Open Scope list_scope.

Variable E : Env.
Variable mw : Mw.MediaWikiClient.
Variable cache_dir : string.

Lemma getitem_in_range {A : Type} (l : list A) (i : Z) :
  (- Z.of_nat (length l) <= i < Z.of_nat (length l))%Z ->
  exists x, Py.getitem l i = Return x.
Proof.
  intros Hi. unfold Py.getitem.
  set (j := if (i <? 0)%Z then (i + Z.of_nat (length l))%Z else i).
  assert (0 <= j < Z.of_nat (length l))%Z as Hj
    by (unfold j; destruct (Z.ltb_spec i 0); lia).
  destruct (Z.ltb_spec j 0) as [Hneg | _]; [lia |].
  destruct (lookup_lt_is_Some_2 l (Z.to_nat j)) as [x Hx]; [lia |].
  rewrite Hx. eauto.
Qed.

Lemma getitem_below {A : Type} (l : list A) (i : Z) :
  (i < - Z.of_nat (length l))%Z -> Py.getitem l i = Raise IndexError.
Proof.
  intros Hi. unfold Py.getitem.
  destruct (Z.ltb_spec i 0) as [_ | Hpos]; [| lia].
  destruct (Z.ltb_spec (i + Z.of_nat (length l)) 0) as [_ | Hpos]; [reflexivity | lia].
Qed.

Lemma step_uncaught (titles : list string) (i : Z) (w : World) (c : Db.Conn) (e : exn) :
  Py.getitem titles i = Raise e ->
  Players.step E mw cache_dir titles i w c = (Players.Uncaught e, w, c).
Proof. intros H. unfold Players.step. rewrite H. reflexivity. Qed.

Lemma step_cases (titles : list string) (i : Z) (w : World) (c : Db.Conn) :
  match Players.step E mw cache_dir titles i w c with
  | (Players.Stored title _ _, _, c1) =>
      Py.getitem titles i = Return title /\ cursor (Db.view c1) = Some (i + 1)%Z
  | (Players.Skipped _, _, c1) => cursor (Db.view c1) = Some (i + 1)%Z
  | (Players.Limited _, _, c1) => cursor (Db.view c1) = Some i
  | (Players.Uncaught e, w1, c1) => Py.getitem titles i = Raise e /\ w1 = w /\ c1 = c
  end.
Proof.
  unfold Players.step.
  destruct (Py.getitem titles i) as [title | e]; [| auto].
  destruct (Players.scrape E mw title (Mw.page_url mw title) cache_dir w)
    as [[[profile stints] | e] w1].
  - simpl. split; [reflexivity |].
    apply (cursor_set_checkpoint E
             (Db.commit (Players.store title (Mw.page_url mw title) profile stints
                           (utc_now_str E (time_time E (ticks w1))) c))
             (i + 1) (W.tick w1)).
  - destruct (is_RateLimited e); simpl.
    + apply (cursor_set_checkpoint E c i w1).
    + apply (cursor_set_checkpoint E c (i + 1) w1).
Qed.

(** Where the loop leaves the cursor, by outcome. *)
Lemma loop_outcome (titles : list string) (n : nat) :
  forall (i : Z) (w : World) (c : Db.Conn),
    cursor (Db.view c) = Some i ->
    match Players.loop E mw cache_dir titles n i w c with
    | (Players.Done, _, c') => cursor (Db.view c') = Some (i + Z.of_nat n)%Z
    | (Players.Aborted, _, c') =>
        exists k, (k < n)%nat /\ cursor (Db.view c') = Some (i + Z.of_nat k)%Z
    | (Players.Crashed e, _, _) =>
        exists k, (k < n)%nat /\ Py.getitem titles (i + Z.of_nat k) = Raise e
    end.
Proof.
  induction n as [|n IH]; intros i w c Hcur; simpl.
  - rewrite Z.add_0_r. exact Hcur.
  - pose proof (step_cases titles i w c) as Hstep.
    destruct (Players.step E mw cache_dir titles i w c) as [[v w1] c1].
    assert (Hnext : cursor (Db.view c1) = Some (i + 1)%Z ->
              match Players.loop E mw cache_dir titles n (i + 1) w1 c1 with
              | (Players.Done, _, c') => cursor (Db.view c') = Some (i + Z.of_nat (S n))%Z
              | (Players.Aborted, _, c') =>
                  exists k, (k < S n)%nat /\ cursor (Db.view c') = Some (i + Z.of_nat k)%Z
              | (Players.Crashed e, _, _) =>
                  exists k, (k < S n)%nat /\ Py.getitem titles (i + Z.of_nat k) = Raise e
              end).
    { intros Hc1. specialize (IH (i + 1)%Z w1 c1 Hc1).
      destruct (Players.loop E mw cache_dir titles n (i + 1) w1 c1) as [[o w2] c2].
      destruct o.
      - rewrite IH. f_equal. lia.
      - destruct IH as (k & Hk & Hc). exists (S k). split; [lia |].
        rewrite Hc. f_equal. lia.
      - destruct IH as (k & Hk & Hg). exists (S k). split; [lia |].
        rewrite <- Hg. f_equal. lia. }
    destruct v; simpl.
    + apply Hnext. apply Hstep.
    + apply Hnext. exact Hstep.
    + exists 0%nat. split; [lia |]. rewrite Z.add_0_r. exact Hstep.
    + exists 0%nat. split; [lia |]. rewrite Z.add_0_r. apply Hstep.
Qed.

(** The stage started on a usable cursor that is not below [-len(titles)]
    does not crash. *)
Lemma stage_no_crash (titles : list string) (w : World) (c : Db.Conn) (start : Z) (e : exn) :
  cursor (Db.view c) = Some start ->
  (- Z.of_nat (length titles) <= start)%Z ->
  fst (fst (Players.stage E mw cache_dir titles w c)) <> Players.Crashed e.
Proof.
  intros Hcur Hstart Hcrash.
  rewrite stage_resumes_at_cursor, Hcur in Hcrash.
  pose proof (loop_outcome titles (Z.to_nat (Z.of_nat (length titles) - start))
                start w c Hcur) as Hout.
  destruct (Players.loop E mw cache_dir titles _ start w c) as [[o w1] c1].
  simpl in Hcrash. subst o.
  destruct Hout as (k & Hk & Hget).
  destruct (getitem_in_range titles (start + Z.of_nat k)) as [x Hx]; [lia |].
  congruence.
Qed.

Lemma stage_crash_below (titles : list string) (w : World) (c : Db.Conn) (start : Z) :
  cursor (Db.view c) = Some start ->
  (start < - Z.of_nat (length titles))%Z ->
  Players.stage E mw cache_dir titles w c = (Players.Crashed IndexError, w, c).
Proof.
  intros Hcur Hstart. rewrite stage_resumes_at_cursor, Hcur.
  destruct (Z.to_nat (Z.of_nat (length titles) - start)) as [|n] eqn:Hn; [lia |].
  simpl. rewrite (step_uncaught titles start w c IndexError); [reflexivity |].
  apply getitem_below. exact Hstart.
Qed.

Lemma stage_crash_cases (titles : list string) (w w' : World) (c c' : Db.Conn) (e : exn) :
  Players.stage E mw cache_dir titles w c = (Players.Crashed e, w', c') ->
  w' = w /\ c' = c /\
  ((cursor (Db.view c) = None /\ e = ValueError) \/
   (exists start, cursor (Db.view c) = Some start /\
                  (start < - Z.of_nat (length titles))%Z /\ e = IndexError)).
Proof.
  intros H.
  destruct (cursor (Db.view c)) as [start |] eqn:Hcur.
  - destruct (Z_lt_le_dec start (- Z.of_nat (length titles))) as [Hlt | Hge].
    + rewrite (stage_crash_below titles w c start Hcur Hlt) in H.
      injection H as <- <- <-. repeat split. right. exists start. auto.
    + exfalso. apply (stage_no_crash titles w c start e Hcur Hge). rewrite H. reflexivity.
  - rewrite stage_resumes_at_cursor, Hcur in H. injection H as <- <- <-.
    repeat split. left. auto.
Qed.

Lemma fetch_index_errors (index_page : string) (w : World) (e : exn) :
  fst (Players._fetch_index_html E mw index_page cache_dir w) = Raise e ->
  exists u last, e = RuntimeError_html_fetch_failed u last.
Proof.
  unfold Players._fetch_index_html.
  assert (Hnet : fst (match Mw.fetch_full_html E mw index_page w with
                      | (Raise e0, w1) => (Raise e0, w1)
                      | (Return html, w1) =>
                          (Return html,
                           Cache.cache_set E cache_dir ("INDEX::" ++ index_page) html w1)
                      end) = Raise e ->
                 exists u last, e = RuntimeError_html_fetch_failed u last).
  { pose proof (full_html_loop_errors E mw
                  (if Py.startswith index_page "http" then index_page
                   else Mw.page_url mw index_page)
                  (Z.to_nat (Mw.max_retries mw)) Mw.retry_init w) as Herr.
    fold (Mw.fetch_full_html E mw index_page w) in Herr.
    destruct (Mw.fetch_full_html E mw index_page w) as [[html | e0] w1]; [discriminate |].
    intros [= <-]. destruct (Herr e0 eq_refl) as [last ->]. eauto. }
  destruct (Cache.cache_get E cache_dir ("INDEX::" ++ index_page) w) as [[| ch s] |];
    [exact Hnet | discriminate | exact Hnet].
Qed.

End CursorFacts.

(** X18. With a checkpoint that reads as the integer [start], the
    resume-and-loop part of the stage crashes exactly when [start] is below
    [-len(titles)]: the first [titles[i]] then raises [IndexError], and the
    world and the connection are left as they were.  An index from
    [-len(titles)] to [-1] is accepted and counts from the end of the
    list. *)
Theorem X18_stage_crashes (E : Env) (mw : Mw.MediaWikiClient) (cache_dir : string)
    (titles : list string) (w : World) (c : Db.Conn) (start : Z) :
  cursor (Db.view c) = Some start ->
  ((start < - Z.of_nat (length titles))%Z ->
   Players.stage E mw cache_dir titles w c = (Players.Crashed IndexError, w, c)) /\
  ((- Z.of_nat (length titles) <= start)%Z ->
   forall e, fst (fst (Players.stage E mw cache_dir titles w c)) <> Players.Crashed e).
Proof.
  intros Hcur. split.
  - intros Hlt. apply (stage_crash_below E mw cache_dir titles w c start Hcur Hlt).
  - intros Hge e. apply (stage_no_crash E mw cache_dir titles w c start e Hcur Hge).
Qed.

Lemma X18_stage_crashes_witness :
  Players.stage Demo.env Demo.mw Demo.cache_dir ["A"; "C"] Demo.world
    (Db.execute (Db.upsert_checkpoint Players.done_key "-3" "") (Db.connect Db.empty))
  = (Players.Crashed IndexError, Demo.world,
     Db.execute (Db.upsert_checkpoint Players.done_key "-3" "") (Db.connect Db.empty)).
Proof.
  apply (X18_stage_crashes Demo.env Demo.mw Demo.cache_dir ["A"; "C"] Demo.world
           (Db.execute (Db.upsert_checkpoint Players.done_key "-3" "") (Db.connect Db.empty))
           (-3)).
  - vm_compute. reflexivity.
  - simpl. lia.
Defined.

(** X19. When [run] of the player stage, started on a checkpoint that
    reads as the integer [start], is left by an exception, nothing was
    written through the connection: either the exception left
    [_fetch_index_html], before the checkpoint was read, or the index was
    fetched and the exception is the [IndexError] of the first
    [titles[i]], for a [start] below [-len(titles)]. *)
Theorem X19_run_crash_taxonomy (E : Env) (c c1 : Db.Conn) (mw : Mw.MediaWikiClient)
    (cfg : Config.Cfg) (w w1 : World) (e : exn) (start : Z) :
  cursor (Db.view c) = Some start ->
  Players.run E c mw cfg w = (Players.Crashed e, w1, c1) ->
  let index_page := default "Portal:Players" (Config.player_index_page cfg) in
  let cache_dir := default ".cache_html" (Config.cache_dir cfg) in
  c1 = c /\
  (Players._fetch_index_html E mw index_page cache_dir w = (Raise e, w1) \/
   exists index_html w0,
     Players._fetch_index_html E mw index_page cache_dir w = (Return index_html, w0) /\
     w1 = w0 /\ e = IndexError /\
     (start < - Z.of_nat (length (Players.work_items (default 0%Z (Config.max_players cfg))
                                    (Discover.discover_player_titles_from_html E index_html))))%Z).
Proof.
  intros Hcur Hrun index_page cache_dir. unfold Players.run in Hrun.
  fold index_page cache_dir in Hrun.
  destruct (Players._fetch_index_html E mw index_page cache_dir w) as [[html | e0] w0].
  - apply stage_crash_cases in Hrun. destruct Hrun as (-> & -> & Hcases).
    split; [reflexivity |]. right. exists html, w0. split; [reflexivity |].
    split; [reflexivity |].
    destruct Hcases as [[Hc _] | (start' & Hc & Hlt & ->)]; [congruence |].
    split; [reflexivity |]. assert (start' = start) by congruence. subst start'. exact Hlt.
  - injection Hrun as <- <- <-. split; [reflexivity |]. left. reflexivity.
Qed.

Lemma X19_run_crash_taxonomy_witness :
  fst (fst (Players.run Demo.env
              (Db.execute (Db.upsert_checkpoint Players.done_key "-5" "") (Db.connect Db.empty))
              Demo.mw (Demo.cfg 0) Demo.world)) = Players.Crashed IndexError /\
  snd (Players.run Demo.env
         (Db.execute (Db.upsert_checkpoint Players.done_key "-5" "") (Db.connect Db.empty))
         Demo.mw (Demo.cfg 0) Demo.world)
  = Db.execute (Db.upsert_checkpoint Players.done_key "-5" "") (Db.connect Db.empty).
Proof.
  split; [vm_compute; reflexivity |].
  apply (X19_run_crash_taxonomy Demo.env
           (Db.execute (Db.upsert_checkpoint Players.done_key "-5" "") (Db.connect Db.empty))
           (snd (Players.run Demo.env
                   (Db.execute (Db.upsert_checkpoint Players.done_key "-5" "")
                      (Db.connect Db.empty))
                   Demo.mw (Demo.cfg 0) Demo.world))
           Demo.mw (Demo.cfg 0) Demo.world
           (snd (fst (Players.run Demo.env
                        (Db.execute (Db.upsert_checkpoint Players.done_key "-5" "")
                           (Db.connect Db.empty))
                        Demo.mw (Demo.cfg 0) Demo.world)))
           IndexError (-5)).
  - vm_compute. reflexivity.
  - vm_compute. reflexivity.
Defined.

(** X20. Where the stage stops is where the next run starts.  After a run
    that went through the list the cursor is [len(titles)] (or the old
    cursor, if that was beyond), and a further run does nothing; after a
    run cut short by a rate limit the cursor is the index of the item that
    was being fetched, from the old cursor on and below [len(titles)], and
    a further run starts its loop there. *)
Theorem X20_stage_resume (E : Env) (mw : Mw.MediaWikiClient) (cache_dir : string)
    (titles : list string) (w w' : World) (c c' : Db.Conn) (o : Players.outcome)
    (start : Z) :
  cursor (Db.view c) = Some start ->
  Players.stage E mw cache_dir titles w c = (o, w', c') ->
  match o with
  | Players.Done =>
      cursor (Db.view c') = Some (Z.max start (Z.of_nat (length titles))) /\
      forall w2, Players.stage E mw cache_dir titles w2 c' = (Players.Done, w2, c')
  | Players.Aborted =>
      exists k, (start <= k < Z.of_nat (length titles))%Z /\
                cursor (Db.view c') = Some k /\
                forall w2,
                  Players.stage E mw cache_dir titles w2 c'
                  = Players.loop E mw cache_dir titles
                      (Z.to_nat (Z.of_nat (length titles) - k)) k w2 c'
  | Players.Crashed _ => w' = w /\ c' = c
  end.
Proof.
  intros Hcur Hstage.
  destruct o as [| | e].
  - rewrite stage_resumes_at_cursor, Hcur in Hstage.
    pose proof (loop_outcome E mw cache_dir titles
                  (Z.to_nat (Z.of_nat (length titles) - start)) start w c Hcur) as Hout.
    rewrite Hstage in Hout.
    assert (Hc' : cursor (Db.view c') = Some (Z.max start (Z.of_nat (length titles))))
      by (rewrite Hout; f_equal; lia).
    split; [exact Hc' |]. intros w2.
    rewrite stage_resumes_at_cursor, Hc'.
    replace (Z.to_nat _) with 0%nat by lia. reflexivity.
  - rewrite stage_resumes_at_cursor, Hcur in Hstage.
    pose proof (loop_outcome E mw cache_dir titles
                  (Z.to_nat (Z.of_nat (length titles) - start)) start w c Hcur) as Hout.
    rewrite Hstage in Hout. destruct Hout as (k & Hk & Hc').
    exists (start + Z.of_nat k)%Z. split; [lia |]. split; [exact Hc' |].
    intros w2. rewrite stage_resumes_at_cursor, Hc'. reflexivity.
  - apply stage_crash_cases in Hstage. destruct Hstage as (-> & -> & _). auto.
Qed.

Lemma X20_stage_resume_witness :
  exists k, (0 <= k < 2)%Z /\
    cursor (Db.view (snd (Players.stage Demo.env Demo.mw Demo.cache_dir ["A"; "B"]
                            Demo.world (Db.connect Db.empty)))) = Some k.
Proof.
  destruct (X20_stage_resume Demo.env Demo.mw Demo.cache_dir ["A"; "B"] Demo.world
              (snd (fst (Players.stage Demo.env Demo.mw Demo.cache_dir ["A"; "B"]
                           Demo.world (Db.connect Db.empty))))
              (Db.connect Db.empty)
              (snd (Players.stage Demo.env Demo.mw Demo.cache_dir ["A"; "B"]
                      Demo.world (Db.connect Db.empty)))
              Players.Aborted 0 ltac:(vm_compute; reflexivity) ltac:(vm_compute; reflexivity))
    as (k & Hk & Hc & _).
  exists k. split; [exact Hk | exact Hc].
Defined.

(** ** What the loop has stored when it ends *)

Section StoredFacts.

Local Open Scope list_scope.

Variable E : Env.
Variable mw : Mw.MediaWikiClient.
Variable cache_dir : string.

Lemma grows_upsert_checkpoint (key value now : string) (t : Db.Tables) :
  grows t (Db.upsert_checkpoint key value now t).
Proof. split; auto. Qed.

(** Nothing the loop does removes a player or a stint row. *)
Lemma loop_grows (titles : list string) (n : nat) (i : Z) (w : World) (c : Db.Conn) :
  Db.durable c = Db.view c ->
  grows (Db.view c) (Db.view (snd (Players.loop E mw cache_dir titles n i w c))) /\
  grows (Db.view c) (Db.durable (snd (Players.loop E mw cache_dir titles n i w c))).
Proof.
  intros Hdur.
  destruct (holds_loop E (grows (Db.view c)) (fun _ => True)) with
    (mw := mw) (cache_dir := cache_dir) (titles := titles) (n := n) (i := i) (w := w) (c := c)
    as (Hv & Hd & _).
  - auto.
  - intros key value now t Ht. eapply grows_trans; [exact Ht |].
    apply grows_upsert_checkpoint.
  - intros title url p now t Ht. eapply grows_trans; [exact Ht |].
    apply grows_upsert_player.
  - intros title s now t Ht. eapply grows_trans; [exact Ht |].
    apply grows_insert_stint.
  - split; [apply grows_refl |]. split; [rewrite Hdur; apply grows_refl |].
    apply Forall_forall. auto.
  - split; assumption.
Qed.

End StoredFacts.

(** X21. The passes are made in list order, and what a pass stored stays:
    if the [k]-th pass of the loop started at index [i] stored a page, it
    was the page of [titles[i + k]], and when the loop ends, however it
    ends, the player row and a row for each of the page's stints are in the
    tables, both as seen and as on disk. *)
Theorem X21_stored_items_remain (E : Env) (mw : Mw.MediaWikiClient) (cache_dir : string)
    (titles : list string) (n : nat) (i : Z) (w : World) (c : Db.Conn)
    (k : nat) (title : string) (p : Scrape.Profile) (stints : list Scrape.Stint) :
  Players.journal E mw cache_dir titles n i w c !! k
  = Some (Players.Stored title p stints) ->
  Py.getitem titles (i + Z.of_nat k) = Return title /\
  stored_in (Db.view (snd (Players.loop E mw cache_dir titles n i w c))) title stints /\
  stored_in (Db.durable (snd (Players.loop E mw cache_dir titles n i w c))) title stints.
Proof.
  revert i w c k title p stints.
  induction n as [|n IH]; intros i w c k title p stints; simpl; [discriminate |].
  pose proof (step_cases E mw cache_dir titles i w c) as Hcases.
  pose proof (step_pass_spec E mw cache_dir titles i w c) as Hspec.
  destruct (Players.step E mw cache_dir titles i w c) as [[v w1] c1].
  simpl in Hspec.
  assert (Hlater : forall k',
            Players.journal E mw cache_dir titles n (i + 1) w1 c1 !! k'
            = Some (Players.Stored title p stints) ->
            Py.getitem titles (i + Z.of_nat (S k')) = Return title /\
            stored_in (Db.view (snd (Players.loop E mw cache_dir titles n (i + 1) w1 c1)))
              title stints /\
            stored_in (Db.durable (snd (Players.loop E mw cache_dir titles n (i + 1) w1 c1)))
              title stints).
  { intros k' Hk'. destruct (IH (i + 1)%Z w1 c1 k' title p stints Hk') as (Hg & Hv & Hd).
    split; [| split; assumption].
    rewrite <- Hg. f_equal. lia. }
  destruct v as [title0 p0 stints0 | e | e | e]; simpl.
  - destruct k as [|k']; simpl; [| apply Hlater].
    intros [= -> -> ->].
    destruct Hcases as [Hget _].
    destruct Hspec as (d1 & _ & _ & Hstored & _ & Hgrow & _ & Hdur).
    destruct (loop_grows E mw cache_dir titles n (i + 1) w1 c1 Hdur) as [Hv Hd].
    rewrite Z.add_0_r. split; [exact Hget |].
    split; eapply stored_in_grows; try eassumption;
      eapply stored_in_grows; eassumption.
  - destruct k as [|k']; simpl; [discriminate | apply Hlater].
  - destruct k as [|k']; simpl; [discriminate | destruct k'; discriminate].
  - destruct k as [|k']; simpl; [discriminate | destruct k'; discriminate].
Qed.

Lemma X21_stored_items_remain_witness :
  Py.getitem ["M"; "A"; "B"] (0 + Z.of_nat 1) = Return "A" /\
  stored_in (Db.view (snd (Players.loop Demo.env Demo.mw Demo.cache_dir ["M"; "A"; "B"] 3 0
                             Demo.world (Db.connect Db.empty)))) "A" Demo.history /\
  stored_in (Db.durable (snd (Players.loop Demo.env Demo.mw Demo.cache_dir ["M"; "A"; "B"] 3 0
                                Demo.world (Db.connect Db.empty)))) "A" Demo.history.
Proof.
  apply (X21_stored_items_remain Demo.env Demo.mw Demo.cache_dir ["M"; "A"; "B"] 3 0
           Demo.world (Db.connect Db.empty) 1 "A"
           {| Scrape.display_name := Some "<h1>A</h1>"; Scrape.country := None;
              Scrape.role := None |} Demo.history).
  vm_compute. reflexivity.
Defined.

(** ** [main]: the two stages in sequence *)

Lemma careers_after (E : Env) (c : Db.Conn) (w : World) :
  Db.durable (fst (Careers.run E c w)) = Db.view (fst (Careers.run E c w)) /\
  Db.team_stints (Db.view (fst (Careers.run E c w))) = Db.team_stints (Db.view c) /\
  Db.players (Db.view (fst (Careers.run E c w))) = Db.players (Db.view c) /\
  Db.checkpoints (Db.view (fst (Careers.run E c w))) = Db.checkpoints (Db.view c) /\
  Db.player_careers (Db.view (fst (Careers.run E c w)))
  = Careers.career_row (utc_now_str E (time_time E (S (ticks w))))
      <$> Careers.aggregate (utc_today_iso E (time_time E (ticks w)))
            (Db.team_stints (Db.view c)).
Proof.
  split; [reflexivity |]. rewrite careers_run_view.
  repeat split. unfold Careers.insert_careers. simpl.
  apply (right_id_L ∅ (∪)).
Qed.

(** X22. [main] rebuilds the careers from what the player stage left,
    also after a run cut short by a rate limit: when the player stage
    returns, the committed [player_careers] is the aggregation of the
    [team_stints] table as it then is, and players, stints and checkpoints
    are those the player stage left.  When the player stage is left by an
    exception, the career stage does not run: the connection and the world
    are as the player stage left them. *)
Theorem X22_main_composition (E : Env) (cfg : Config.Cfg) (api_url wiki_base : string)
    (c : Db.Conn) (w : World) :
  let mw := Mw.init api_url wiki_base
              (default 30%Z (Config.request_timeout_s cfg))
              (default (1#2)%Q (Config.throttle_s cfg)) 8 in
  let staged := Players.run E (Db.init_db c) mw cfg (W.set_limiter Mw.new_limiter w) in
  let c' := snd (Etl.main E cfg api_url wiki_base c w) in
  match fst (fst (Etl.main E cfg api_url wiki_base c w)) with
  | Players.Crashed e =>
      fst (fst staged) = Players.Crashed e /\
      c' = snd staged /\
      snd (fst (Etl.main E cfg api_url wiki_base c w)) = snd (fst staged)
  | o =>
      fst (fst staged) = o /\
      Db.durable c' = Db.view c' /\
      Db.team_stints (Db.view c') = Db.team_stints (Db.view (snd staged)) /\
      Db.players (Db.view c') = Db.players (Db.view (snd staged)) /\
      Db.checkpoints (Db.view c') = Db.checkpoints (Db.view (snd staged)) /\
      exists today now_utc,
        Db.player_careers (Db.view c')
        = Careers.career_row now_utc
            <$> Careers.aggregate today (Db.team_stints (Db.view c'))
  end.
Proof.
  intros mw staged c'. unfold c', Etl.main. fold mw. fold staged.
  destruct staged as [[o w1] c1].
  pose proof (careers_after E c1 w1) as (Hdur & Hst & Hpl & Hcp & Hcar).
  destruct o as [| | e]; simpl.
  - destruct (Careers.run E c1 w1) as [c2 w2]. simpl in *.
    do 5 (split; [first [reflexivity | assumption] |]).
    eexists _, _. apply (right_id_L ∅ (∪)).
  - destruct (Careers.run E c1 w1) as [c2 w2]. simpl in *.
    do 5 (split; [first [reflexivity | assumption] |]).
    eexists _, _. apply (right_id_L ∅ (∪)).
  - repeat split.
Qed.

(** ** Counting in the career stage *)

(** The sum of [stints_count] over the rows of [player_careers]. *)
Definition total_stints (m : gmap string Db.CareerRow) : Z :=
  map_fold (fun _ row acc => (Db.stints_count row + acc)%Z) 0%Z m.

(** The sum of the running counts over the groups. *)
Definition counted (m : gmap string Careers.group) : Z :=
  map_fold (fun _ g acc => (Careers.g_count g + acc)%Z) 0%Z m.

(** [joined IS NOT NULL] *)
Definition dated (r : Db.StintRow) : bool := bool_decide (is_Some (Db.joined r)).

Section CountingFacts.

Local Open Scope list_scope.

Lemma counted_insert_fresh (m : gmap string Careers.group) (k : string) (g : Careers.group) :
  m !! k = None -> counted (<[k := g]> m) = (Careers.g_count g + counted m)%Z.
Proof.
  intros Hk. unfold counted. rewrite map_fold_insert_L; [reflexivity | | exact Hk].
  intros; lia.
Qed.

Lemma counted_insert_over (m : gmap string Careers.group) (k : string)
    (g0 g : Careers.group) :
  m !! k = Some g0 ->
  counted (<[k := g]> m) = (Careers.g_count g - Careers.g_count g0 + counted m)%Z.
Proof.
  intros Hk.
  assert (counted m = (Careers.g_count g0 + counted (delete k m))%Z) as ->.
  { unfold counted. rewrite (map_fold_delete_L _ _ k g0 m); [reflexivity | | exact Hk].
    intros; lia. }
  rewrite <- insert_delete_eq, counted_insert_fresh by apply lookup_delete_eq.
  lia.
Qed.

Lemma feed_counted (today : string) (m : gmap string Careers.group) (r : Db.StintRow) :
  counted (Careers.feed today m r) = (counted m + if dated r then 1 else 0)%Z.
Proof.
  unfold Careers.feed, dated.
  destruct (Db.joined r) as [j |]; simpl; [| lia].
  destruct (m !! Db.player_title r) as [g |] eqn:Hg.
  - rewrite (counted_insert_over m _ g) by exact Hg. simpl. lia.
  - rewrite counted_insert_fresh by exact Hg. simpl. lia.
Qed.

Lemma aggregate_counted (today : string) (rows : list Db.StintRow) :
  forall m,
    counted (fold_left (Careers.feed today) rows m)
    = (counted m + Z.of_nat (length (List.filter dated rows)))%Z.
Proof.
  induction rows as [|r rows IH]; intros m; simpl; [lia |].
  rewrite IH, feed_counted. destruct (dated r); simpl; lia.
Qed.

End CountingFacts.

(** X23. Every dated stint is counted once: after [run] of the career
    stage, the [stints_count] of the rows of [player_careers] add up to the
    number of [team_stints] rows whose [joined] is not NULL. *)
Theorem X23_stints_counted_once (E : Env) (c : Db.Conn) (w : World) :
  total_stints (Db.player_careers (Db.view (fst (Careers.run E c w))))
  = Z.of_nat (length (List.filter dated (Db.team_stints (Db.view c)))).
Proof.
  destruct (careers_after E c w) as (_ & _ & _ & _ & ->).
  unfold total_stints. rewrite map_fold_fmap.
  change (counted (Careers.aggregate (utc_today_iso E (time_time E (ticks w)))
                     (Db.team_stints (Db.view c)))
          = Z.of_nat (length (List.filter dated (Db.team_stints (Db.view c))))).
  unfold Careers.aggregate. rewrite aggregate_counted.
  unfold counted. rewrite map_fold_empty. lia.
Qed.

(** ** The generic client of [data/liquipedia.py] *)

Section LiquipediaFacts.

Local Open Scope list_scope.

Lemma probe_key_dict (k : string) (d : list (string * json)) :
  match Liquipedia.probe_key k (JDict d) with
  | Liquipedia.Found l => (k, JList l) ∈ d
  | Liquipedia.Next => True
  | Liquipedia.Fails _ => False
  end.
Proof.
  simpl. destruct (List.find _ d) as [[k' v] |] eqn:Hfind; [| exact I].
  apply List.find_some in Hfind. destruct Hfind as [Hin Hk]. simpl in Hk.
  apply String.eqb_eq in Hk. subst k'.
  destruct v; try exact I. apply list_elem_of_In. exact Hin.
Qed.

Lemma scan_dict (keys : list string) (d : list (string * json)) :
  match Liquipedia.scan keys (JDict d) with
  | Liquipedia.Found l => exists k, k ∈ keys /\ (k, JList l) ∈ d
  | Liquipedia.Next => True
  | Liquipedia.Fails _ => False
  end.
Proof.
  induction keys as [|k keys IH]; [exact I |].
  cbn [Liquipedia.scan].
  pose proof (probe_key_dict k d) as Hk.
  destruct (Liquipedia.probe_key k (JDict d)) as [l | | e].
  - exists k. split; [apply list_elem_of_here | exact Hk].
  - destruct (Liquipedia.scan keys (JDict d)) as [l | | e]; [| exact I | exact IH].
    destruct IH as (k' & Hin & Hd). exists k'. split; [apply list_elem_of_further; exact Hin | exact Hd].
  - contradiction.
Qed.

Lemma first_list_value_spec (d : list (string * json)) :
  (exists k, (k, JList (Liquipedia.first_list_value (JDict d))) ∈ d) \/
  (Liquipedia.first_list_value (JDict d) = [] /\
   Forall (fun kv => Liquipedia.is_list (snd kv) = false) d).
Proof.
  simpl. destruct (List.find _ d) as [[k v] |] eqn:Hfind.
  - apply List.find_some in Hfind. destruct Hfind as [Hin Hv]. simpl in Hv.
    destruct v; try discriminate. left. exists k. apply list_elem_of_In. exact Hin.
  - right. split; [reflexivity |]. apply Forall_forall. intros kv Hin.
    apply (List.find_none _ _ Hfind). apply list_elem_of_In. exact Hin.
Qed.

Lemma scan_list (keys : list string) (l : list json) :
  match Liquipedia.scan keys (JList l) with
  | Liquipedia.Found _ => False
  | Liquipedia.Next => Forall (fun k => JStr k ∉ l) keys
  | Liquipedia.Fails e => e = TypeError /\ exists k, k ∈ keys /\ JStr k ∈ l
  end.
Proof.
  induction keys as [|k keys IH]; [constructor |].
  cbn [Liquipedia.scan Liquipedia.probe_key].
  destruct (existsb (Liquipedia.is_str k) l) eqn:Hex.
  - split; [reflexivity |]. exists k. split; [apply list_elem_of_here |].
    apply existsb_exists in Hex. destruct Hex as (v & Hin & Hv).
    destruct v; try discriminate. simpl in Hv. apply String.eqb_eq in Hv. subst s.
    apply list_elem_of_In. exact Hin.
  - destruct (Liquipedia.scan keys (JList l)) as [l' | | e].
    + contradiction.
    + constructor; [| exact IH]. intros Hin.
      assert (existsb (Liquipedia.is_str k) l = true) as Habs.
      { apply existsb_exists. exists (JStr k). split; [apply list_elem_of_In; exact Hin |].
        simpl. apply String.eqb_refl. }
      congruence.
    + destruct IH as (-> & k' & Hin & Hl). split; [reflexivity |].
      exists k'. split; [apply list_elem_of_further; exact Hin | exact Hl].
Qed.

Lemma scan_first_key (k : string) (keys : list string) (d : list (string * json))
    (l : list json) :
  List.find (fun kv => String.eqb (fst kv) k) d = Some (k, JList l) ->
  Liquipedia.rows_of (k :: keys) (JDict d) = Return l.
Proof.
  intros H. unfold Liquipedia.rows_of. cbn [Liquipedia.scan Liquipedia.probe_key].
  rewrite H. reflexivity.
Qed.

Lemma get_json_cases (E : Env) (self : Liquipedia.LiquipediaClient) (u : string)
    (ps : list (string * string)) (w : World) :
  let req := {| url := u; params := ps |} in
  let r := Liquipedia._get_json E self u ps w in
  sent (snd r) = S (sent w) /\
  match fst r with
  | Return payload =>
      log (snd r) = log w ++ [EvGet req; EvSleep (Liquipedia.throttle_s self)] /\
      exists resp, session_get E (sent w) req = Responds resp /\
                   json_body resp = Some payload /\
                   ((status_code resp < 400)%Z \/ (600 <= status_code resp)%Z)
  | Raise e =>
      log (snd r) = log w ++ [EvGet req] /\
      ((exists d, session_get E (sent w) req = Raises d /\ e = RequestException d) \/
       (exists s, e = HTTPError s /\ (400 <= s < 600)%Z) \/
       e = JSONDecodeError)
  end.
Proof.
  intros req r. unfold r, Liquipedia._get_json, W.get. fold req.
  destruct (session_get E (sent w) req) as [d | resp] eqn:Hget; simpl.
  - split; [reflexivity |]. split; [reflexivity |]. left. eauto.
  - destruct (Z.leb_spec 400 (status_code resp)) as [Hlo | Hlo];
      [destruct (Z.ltb_spec (status_code resp) 600) as [Hhi | Hhi] |]; simpl.
    + split; [reflexivity |]. split; [reflexivity |]. right. left. eauto.
    + destruct (json_body resp) as [payload |] eqn:Hjson; simpl.
      * split; [reflexivity |]. split; [rewrite <- app_assoc; reflexivity |].
        exists resp. repeat split; auto.
      * split; [reflexivity |]. split; [reflexivity |]. auto.
    + destruct (json_body resp) as [payload |] eqn:Hjson; simpl.
      * split; [reflexivity |]. split; [rewrite <- app_assoc; reflexivity |].
        exists resp. repeat split; auto.
      * split; [reflexivity |]. split; [reflexivity |]. auto.
Qed.

End LiquipediaFacts.

(** X24. What [get_matches] and [get_match_players] make of a decoded
    payload, for either list of candidate names.  A JSON object never
    raises: the result is one of its list values, or the empty list when
    no value is a list; a list value under the first candidate name wins.
    A JSON array is returned as it is, unless one of its elements is a
    candidate name as a string, in which case the indexing raises
    [TypeError].  [null], a boolean or a number raises [TypeError]. *)
Theorem X24_liquipedia_rows (keys : list string) :
  (forall d, exists l,
      Liquipedia.rows_of keys (JDict d) = Return l /\
      ((exists k, (k, JList l) ∈ d) \/
       (l = [] /\ Forall (fun kv => Liquipedia.is_list (snd kv) = false) d))) /\
  (forall k keys' d l,
      keys = k :: keys' ->
      List.find (fun kv => String.eqb (fst kv) k) d = Some (k, JList l) ->
      Liquipedia.rows_of keys (JDict d) = Return l) /\
  (forall l,
      (Liquipedia.rows_of keys (JList l) = Return l /\ Forall (fun k => JStr k ∉ l) keys) \/
      (Liquipedia.rows_of keys (JList l) = Raise TypeError /\
       exists k, k ∈ keys /\ JStr k ∈ l)) /\
  (forall payload,
      keys <> [] ->
      match payload with
      | JNull | JBool _ | JNum _ => Liquipedia.rows_of keys payload = Raise TypeError
      | _ => True
      end).
Proof.
  split; [| split; [| split]].
  - intros d. unfold Liquipedia.rows_of.
    pose proof (scan_dict keys d) as Hscan.
    destruct (Liquipedia.scan keys (JDict d)) as [l | | e].
    + exists l. split; [reflexivity |]. left.
      destruct Hscan as (k & _ & Hd). eauto.
    + exists (Liquipedia.first_list_value (JDict d)). split; [reflexivity |].
      apply first_list_value_spec.
    + contradiction.
  - intros k keys' d l -> H. apply scan_first_key. exact H.
  - intros l. unfold Liquipedia.rows_of.
    pose proof (scan_list keys l) as Hscan.
    destruct (Liquipedia.scan keys (JList l)) as [l' | | e].
    + contradiction.
    + left. auto.
    + right. destruct Hscan as [-> Hk]. auto.
  - intros payload Hkeys. destruct keys as [|k keys']; [congruence |].
    destruct payload; try exact I; reflexivity.
Qed.

(** X25. [get_matches] and [get_match_players], with a [throttle_s] that
    [time.sleep] accepts.  When the template does not format, its
    exception leaves the call and nothing else happens.  When it formats,
    exactly one GET is issued, to the formatted URL, and never retried;
    the call sleeps [throttle_s] once, after it, exactly when the reply
    was decoded (status outside 400..599 and a JSON body); and what it
    raises is the error of the GET, an [HTTPError] with a status from 400
    to 599, a [JSONDecodeError], or the [TypeError] of a payload that is
    not an object or array. *)
Theorem X25_liquipedia_one_request (E : Env) (self : Liquipedia.LiquipediaClient)
    (format : string -> list (string * json) -> result string)
    (template start end_ match_id : string) (limit offset : Z) (w : World)
    (players : bool) :
  sleep_accepts (Liquipedia.throttle_s self) ->
  let formatted :=
    if players then
      format template [("match_id", JStr match_id); ("limit", JNum limit);
                       ("offset", JNum offset)]
    else
      format template [("start", JStr start); ("end", JStr end_);
                       ("limit", JNum limit); ("offset", JNum offset)] in
  let r := if players then
             Liquipedia.get_match_players E self format template match_id limit offset w
           else Liquipedia.get_matches E self format template start end_ limit offset w in
  match formatted with
  | Raise e => r = (Raise e, w)
  | Return u =>
      let req := {| url := u; params := [] |} in
      sent (snd r) = S (sent w) /\
      (log (snd r) = (log w ++ [EvGet req])%list \/
       log (snd r) = (log w ++ [EvGet req; EvSleep (Liquipedia.throttle_s self)])%list /\
       exists resp payload,
         session_get E (sent w) req = Responds resp /\ json_body resp = Some payload /\
         ((status_code resp < 400)%Z \/ (600 <= status_code resp)%Z)) /\
      (forall rows, fst r = Return rows ->
         log (snd r) = (log w ++ [EvGet req; EvSleep (Liquipedia.throttle_s self)])%list) /\
      (forall e, fst r = Raise e ->
         (exists d, session_get E (sent w) req = Raises d /\ e = RequestException d) \/
         (exists s, e = HTTPError s /\ (400 <= s < 600)%Z) \/
         e = JSONDecodeError \/ e = TypeError)
  end.
Proof.
  intros _ formatted r.
  assert (Hgen : forall keys u,
            let req := {| url := u; params := [] |} in
            let r0 := match Liquipedia._get_json E self u [] w with
                      | (Raise e, w1) => (Raise e, w1)
                      | (Return payload, w1) => (Liquipedia.rows_of keys payload, w1)
                      end in
            sent (snd r0) = S (sent w) /\
            (log (snd r0) = (log w ++ [EvGet req])%list \/
             log (snd r0) = (log w ++ [EvGet req; EvSleep (Liquipedia.throttle_s self)])%list /\
             exists resp payload,
               session_get E (sent w) req = Responds resp /\ json_body resp = Some payload /\
               ((status_code resp < 400)%Z \/ (600 <= status_code resp)%Z)) /\
            (forall rows, fst r0 = Return rows ->
               log (snd r0)
               = (log w ++ [EvGet req; EvSleep (Liquipedia.throttle_s self)])%list) /\
            (forall e, fst r0 = Raise e ->
               (exists d, session_get E (sent w) req = Raises d /\ e = RequestException d) \/
               (exists s, e = HTTPError s /\ (400 <= s < 600)%Z) \/
               e = JSONDecodeError \/ e = TypeError)).
  { intros keys u.
    pose proof (get_json_cases E self u [] w) as Hjson. simpl in Hjson.
    destruct (Liquipedia._get_json E self u [] w) as [[payload | e] w1]; simpl in *.
    - destruct Hjson as (Hsent & Hlog & resp & Hget & Hbody & Hstatus).
      split; [exact Hsent |]. split; [right; split; [exact Hlog | eauto] |].
      split; [intros; exact Hlog |].
      intros e He. right. right. right.
      unfold Liquipedia.rows_of in He.
      destruct payload as [| b | z | s | l | d].
      + destruct keys; simpl in He; congruence.
      + destruct keys; simpl in He; congruence.
      + destruct keys; simpl in He; congruence.
      + assert (Hs : match Liquipedia.scan keys (JStr s) with
                     | Liquipedia.Found _ => False
                     | Liquipedia.Next => True
                     | Liquipedia.Fails e0 => e0 = TypeError
                     end).
        { clear He. induction keys as [|k keys IH]; [exact I |].
          cbn [Liquipedia.scan Liquipedia.probe_key].
          destruct (Py.contains k s); [reflexivity | exact IH]. }
        destruct (Liquipedia.scan keys (JStr s)); [contradiction | discriminate | congruence].
      + pose proof (scan_list keys l) as Hs.
        destruct (Liquipedia.scan keys (JList l)); [contradiction | discriminate |].
        destruct Hs as [-> _]. congruence.
      + pose proof (scan_dict keys d) as Hs.
        destruct (Liquipedia.scan keys (JDict d)); [discriminate | discriminate | contradiction].
    - destruct Hjson as (Hsent & Hlog & Hcases).
      split; [exact Hsent |]. split; [left; exact Hlog |].
      split; [discriminate |].
      intros e0 [= <-]. destruct Hcases as [H | [H | H]]; auto. }
  unfold r, formatted, Liquipedia.get_match_players, Liquipedia.get_matches.
  destruct players.
  - destruct (format template _) as [u | e]; [apply (Hgen Liquipedia.players_keys u) | reflexivity].
  - destruct (format template _) as [u | e]; [apply (Hgen Liquipedia.matches_keys u) | reflexivity].
Qed.

Lemma X25_liquipedia_one_request_witness :
  sent (snd (Liquipedia.get_matches Demo.env Liquipedia.init (fun t _ => Return t)
               "https://liquipedia.net/api/matches" "2024-01-01" "2024-02-01" 100 0
               Demo.world)) = 1%nat.
Proof.
  assert (Hsleep : sleep_accepts (Liquipedia.throttle_s Liquipedia.init))
    by (split; discriminate).
  exact (proj1 (X25_liquipedia_one_request Demo.env Liquipedia.init (fun t _ => Return t)
                  "https://liquipedia.net/api/matches" "2024-01-01" "2024-02-01" "" 100 0
                  Demo.world false Hsleep)).
Defined.

(** ** Configuration defaults *)

(** X26. The defaults [load_config] fills in are the ones the stages
    assume for an absent key: running the player stage, or the whole of
    [main], on the loaded configuration is running it on the file's own
    entries; and loading twice is loading once. *)
Theorem X26_config_defaults_agree (E : Env) (file : Config.Cfg) (api_url wiki_base : string)
    (mw : Mw.MediaWikiClient) (c : Db.Conn) (w : World) :
  Players.run E c mw (Config.load_config file) w = Players.run E c mw file w /\
  Etl.main E (Config.load_config file) api_url wiki_base c w
  = Etl.main E file api_url wiki_base c w /\
  Config.load_config (Config.load_config file) = Config.load_config file.
Proof.
  destruct file as [index dir [m |] [t |] [s |]]; repeat split.
Qed.
